(** * The LSP client of [app/tool/pylsp.py]

    A shallow embedding of [LSPClientSession] (framing, id correlation,
    handshake) and of [PythonLSPTool.execute], over an explicit model of
    the socket, the clock and the file system the code runs against.

    Conventions of the embedding.
    - Python [str] and [bytes] are both [string]: every text the program
      puts on the wire is ASCII ([json.dumps] escapes the rest), so
      [encode()] and [decode()] are the identity on it and [len] counts
      the same units on both.  Header bytes above 0x7f are outside the
      model.
    - Python values that travel as JSON are [json]; Python [None] is
      [JNull].  Numbers with a fraction or an exponent are not modelled.
    - Time is the integer number of milliseconds read by [time.time()];
      [timeout=3.0] is [3000], the [select] interval [0.1] is [100] and
      the settle delay [0.3] is [300].  Computation itself takes no time.
    - [async]/[await] run on one task, so they are sequencing. *)

From Stdlib Require Import ZArith Lia String Ascii DecimalString DecimalNat Sorted.
From Stdlib Require DecimalPos.
From stdpp Require Import base strings gmap list.

Set Warnings "-register-all".

Open Scope Z_scope.

(** ** Python string primitives used by the program *)

Module PyStr.

Definition CR : ascii := "013"%char.
Definition LF : ascii := "010"%char.
Definition CRLF : string := String CR (String LF EmptyString).
Definition CRLFCRLF : string := CRLF +:+ CRLF.

(** [s.endswith(suffix)] *)
Fixpoint endswith (s suffix : string) : bool :=
  String.eqb s suffix ||
  match s with
  | EmptyString => false
  | String _ s' => endswith s' suffix
  end.

(** [s.split("\r\n")] *)
Fixpoint split_crlf (s : string) : list string :=
  match s with
  | EmptyString => [EmptyString]
  | String c s' =>
    match s' with
    | String c2 s'' =>
        if Ascii.eqb c CR && Ascii.eqb c2 LF then EmptyString :: split_crlf s''
        else match split_crlf s' with
             | h :: t => String c h :: t
             | [] => [String c EmptyString]
             end
    | EmptyString => [String c EmptyString]
    end
  end.

(** [c in s] for a one-character [c] *)
Fixpoint contains (c : ascii) (s : string) : bool :=
  match s with
  | EmptyString => false
  | String d s' => Ascii.eqb c d || contains c s'
  end.

(** [s.split(c, 1)] on a string that contains [c]: the text before the
    first [c] and the text after it. *)
Fixpoint split_once (c : ascii) (s : string) : string * string :=
  match s with
  | EmptyString => (EmptyString, EmptyString)
  | String d s' =>
      if Ascii.eqb c d then (EmptyString, s')
      else let '(k, v) := split_once c s' in (String d k, v)
  end.

(** [str.isspace] on the ASCII range. *)
Definition is_space (c : ascii) : bool :=
  let n := nat_of_ascii c in
  ((9 <=? n) && (n <=? 13) || (28 <=? n) && (n <=? 32))%nat.

Fixpoint lstrip (s : string) : string :=
  match s with
  | EmptyString => EmptyString
  | String c s' => if is_space c then lstrip s' else s
  end.

Fixpoint rstrip (s : string) : string :=
  match s with
  | EmptyString => EmptyString
  | String c s' =>
      match rstrip s' with
      | EmptyString => if is_space c then EmptyString else String c EmptyString
      | r => String c r
      end
  end.

(** [s.strip()] *)
Definition strip (s : string) : string := rstrip (lstrip s).

Definition digit_val (c : ascii) : option Z :=
  let n := nat_of_ascii c in
  if ((48 <=? n) && (n <=? 57))%nat then Some (Z.of_nat n - 48) else None.

(** The digits of [int(s)]: decimal digits, single underscores allowed
    between two digits. *)
Fixpoint parse_digits (after_digit : bool) (acc : Z) (s : string) : option Z :=
  match s with
  | EmptyString => if after_digit then Some acc else None
  | String c s' =>
      match digit_val c with
      | Some d => parse_digits true (10 * acc + d) s'
      | None =>
          if Ascii.eqb c "_" && after_digit then parse_digits false acc s'
          else None
      end
  end.

(** [int(s)] for a [str] argument; [None] is [ValueError]. *)
Definition int_of_str (s : string) : option Z :=
  match strip s with
  | String "-" ds => Z.opp <$> parse_digits false 0 ds
  | String "+" ds => parse_digits false 0 ds
  | ds => parse_digits false 0 ds
  end.

(** [str(n)] for a length *)
Definition str_of_nat (n : nat) : string :=
  NilEmpty.string_of_uint (Nat.to_uint n).

(** [str(n)] for an [int] *)
Definition str_of_Z (n : Z) : string :=
  NilEmpty.string_of_int (Z.to_int n).

(** [' ' * n] *)
Fixpoint spaces (n : nat) : string :=
  match n with
  | O => EmptyString
  | S k => String " " (spaces k)
  end.

(** [s[:n]] and [s[n:]] *)
Fixpoint take (n : nat) (s : string) : string :=
  match n, s with
  | S k, String c s' => String c (take k s')
  | _, _ => EmptyString
  end.

Fixpoint drop (n : nat) (s : string) : string :=
  match n, s with
  | S k, String _ s' => drop k s'
  | _, _ => s
  end.

End PyStr.

(** ** JSON values, Python dictionaries and [json.dumps] *)

Module Json.

Inductive json : Type :=
| JNull
| JBool (b : bool)
| JInt (n : Z)
| JStr (s : string)
| JList (l : list json)
| JDict (d : list (string * json)).

(** A [dict] keeps its keys in insertion order. *)
Abbreviation dict := (list (string * json)).

(** [d.get(k)] *)
Fixpoint dict_get (k : string) (d : dict) : option json :=
  match d with
  | [] => None
  | (k', v) :: d' => if String.eqb k k' then Some v else dict_get k d'
  end.

(** [d[k] = v]: an existing key keeps its place. *)
Fixpoint dict_set (k : string) (v : json) (d : dict) : dict :=
  match d with
  | [] => [(k, v)]
  | (k', v') :: d' =>
      if String.eqb k k' then (k, v) :: d' else (k', v') :: dict_set k v d'
  end.

(** [type(v).__name__] *)
Definition type_name (v : json) : string :=
  match v with
  | JNull => "NoneType"
  | JBool _ => "bool"
  | JInt _ => "int"
  | JStr _ => "str"
  | JList _ => "list"
  | JDict _ => "dict"
  end.

(** [v == n] for an [int] [n]: [True == 1] and [False == 0] in Python. *)
Definition eq_int (v : json) (n : Z) : bool :=
  match v with
  | JInt m => m =? n
  | JBool b => (if b then 1 else 0) =? n
  | _ => false
  end.

Definition DQ : ascii := "034"%char.
Definition BS : ascii := "092"%char.

Definition hex_digit (n : nat) : ascii :=
  ascii_of_nat (if (n <? 10)%nat then 48 + n else 87 + n).

(** One character of [py_encode_basestring_ascii]. *)
Definition escape_char (c : ascii) : string :=
  let n := nat_of_ascii c in
  if Ascii.eqb c DQ then String BS (String DQ EmptyString)
  else if Ascii.eqb c BS then String BS (String BS EmptyString)
  else if (n =? 10)%nat then "\n"
  else if (n =? 13)%nat then "\r"
  else if (n =? 9)%nat then "\t"
  else if (n =? 8)%nat then "\b"
  else if (n =? 12)%nat then "\f"
  else if ((32 <=? n) && (n <=? 126))%nat then String c EmptyString
  else "\u00" +:+ String (hex_digit (n / 16)) (String (hex_digit (n mod 16)) EmptyString).

Fixpoint escape (s : string) : string :=
  match s with
  | EmptyString => EmptyString
  | String c s' => escape_char c +:+ escape s'
  end.

Definition quote (s : string) : string :=
  String DQ (escape s +:+ String DQ EmptyString).

Section Dumps.
(** [indent=None] or [indent=k] *)
Variable indent : option nat.

Definition newline (level : nat) : string :=
  match indent with
  | None => EmptyString
  | Some k => String PyStr.LF (PyStr.spaces (k * level))
  end.

Definition item_separator (level : nat) : string :=
  match indent with
  | None => ", "
  | Some _ => "," +:+ newline level
  end.

Fixpoint dumps_at (level : nat) (v : json) : string :=
  match v with
  | JNull => "null"
  | JBool true => "true"
  | JBool false => "false"
  | JInt n => PyStr.str_of_Z n
  | JStr s => quote s
  | JList [] => "[]"
  | JList (x :: l) =>
      "[" +:+ newline (S level) +:+ dumps_at (S level) x +:+
      (fix items (l : list json) : string :=
         match l with
         | [] => EmptyString
         | y :: l' => item_separator (S level) +:+ dumps_at (S level) y +:+ items l'
         end) l +:+
      newline level +:+ "]"
  | JDict [] => "{}"
  | JDict ((k, x) :: d) =>
      "{" +:+ newline (S level) +:+ quote k +:+ ": " +:+ dumps_at (S level) x +:+
      (fix items (d : dict) : string :=
         match d with
         | [] => EmptyString
         | (k', y) :: d' =>
             item_separator (S level) +:+ quote k' +:+ ": " +:+
             dumps_at (S level) y +:+ items d'
         end) d +:+
      newline level +:+ "}"
  end.
End Dumps.

(** [json.dumps(v)] and [json.dumps(v, indent=k)] *)
Definition json_dumps (indent : option nat) (v : json) : string :=
  dumps_at indent 0 v.

End Json.
Export Json.

(** ** Exceptions and the result of running a piece of the program *)

Inductive exn_class : Type :=
| RuntimeError
| ConnectionRefusedError
| BrokenPipeError
| OSError
| TypeError
| ValueError
| AttributeError
| JSONDecodeError
| UnicodeDecodeError.

(** An exception: its class and the text [str(e)] gives. *)
Record exn : Type := Exn { exn_cls : exn_class; exn_str : string }.

(** What a call does on a state [S]: it returns, it raises (the state
    keeps every mutation made before the [raise]), it never comes back
    ([Hang]: a blocking read with nothing to read, or a loop that cannot
    make progress), or the model's loop bound was too small ([NoFuel],
    which [wait_for_reads] shows [_wait_for] never meets). *)
Inductive res (S A : Type) : Type :=
| Ret (a : A) (s : S)
| Raise (e : exn) (s : S)
| Hang
| NoFuel.
Arguments Ret {S A} a s.
Arguments Raise {S A} e s.
Arguments Hang {S A}.
Arguments NoFuel {S A}.

Definition M (S A : Type) : Type := S -> res S A.

#[global] Instance M_ret {S} : MRet (M S) := fun A a s => Ret a s.
#[global] Instance M_bind {S} : MBind (M S) := fun A B k m s =>
  match m s with
  | Ret a s' => k a s'
  | Raise e s' => Raise e s'
  | Hang => Hang
  | NoFuel => NoFuel
  end.

Definition get {S} : M S S := fun s => Ret s s.
Definition put {S} (s : S) : M S unit := fun _ => Ret tt s.
Definition raise {S A} (e : exn) : M S A := fun s => Raise e s.
Definition hang {S A} : M S A := fun _ => Hang.
Definition no_fuel {S A} : M S A := fun _ => NoFuel.

(** [try: m except Exception as e: h e] *)
Definition try_except {S A} (m : M S A) (h : exn -> M S A) : M S A := fun s =>
  match m s with
  | Raise e s' => h e s'
  | r => r
  end.

(** ** The environment: sockets, clock, file system *)

(** Bytes the peer sends, in stream order, each chunk with the time (ms)
    at which it reaches the socket. *)
Abbreviation inbox_t := (list (Z * string)).

Record socket : Type := Socket {
  sent : list string;          (* every [sendall] argument, oldest first *)
  inbox : inbox_t;             (* what the peer sends and has not been read *)
  eof : bool;                  (* the peer closes once [inbox] is drained *)
  send_budget : option nat     (* [Some n]: the pipe breaks after n more sends *)
}.

Record LSPClientSession : Type := Session {
  oid : nat;                   (* identity of the Python object *)
  host : string;
  port : Z;
  sock : option socket;
  _id : Z
}.

Inductive file : Type :=
| Readable (content : string)
| Unreadable (e : exn).        (* [open]/[read] raises: a directory, bad UTF-8 *)

Record world : Type := World {
  clock : Z;                               (* [time.time()], ms *)
  files : gmap string file;                (* by absolute path *)
  endpoints : gmap (string * Z) socket;    (* listening (host, port) pairs *)
  connect_calls : nat;                     (* calls of [create_connection] *)
  constructed : nat                        (* [LSPClientSession] objects made *)
}.

Record PythonLSPTool : Type := Tool { _session : option LSPClientSession }.

(** [ToolResult(output=...)] and [ToolResult(error=...)] *)
Record ToolResult : Type := MkToolResult {
  output : option string;
  error : option string
}.

Definition set_clock (t : Z) (w : world) : world :=
  World t (files w) (endpoints w) (connect_calls w) (constructed w).
Definition set_sock (k : option socket) (s : LSPClientSession) : LSPClientSession :=
  Session (oid s) (host s) (port s) k (_id s).
Definition set_id (n : Z) (s : LSPClientSession) : LSPClientSession :=
  Session (oid s) (host s) (port s) (sock s) n.
Definition set_inbox (ib : inbox_t) (k : socket) : socket :=
  Socket (sent k) ib (eof k) (send_budget k).

(** State seen by a method of the session, and by a method of the tool. *)
Abbreviation sstate := (world * LSPClientSession)%type.
Abbreviation tstate := (world * PythonLSPTool)%type.

Fixpoint norm (ib : inbox_t) : inbox_t :=
  match ib with
  | (_, EmptyString) :: r => norm r
  | _ => ib
  end.

Fixpoint bytes_in (ib : inbox_t) : nat :=
  match ib with
  | [] => O
  | (_, s) :: r => (String.length s + bytes_in r)%nat
  end.

(** Up to [n] bytes of what has arrived by [now]. *)
Fixpoint take_avail (now : Z) (n : nat) (ib : inbox_t) : string * inbox_t :=
  match ib with
  | [] => (EmptyString, [])
  | (t, s) :: r =>
      if (n =? 0)%nat || negb (t <=? now) then (EmptyString, ib)
      else if (String.length s <=? n)%nat then
        let '(d, ib') := take_avail now (n - String.length s) r in (s +:+ d, ib')
      else (PyStr.take n s, (t, PyStr.drop n s) :: r)
  end.

(** [time.time()] *)
Definition time_time {X} : M (world * X) Z := fun st => Ret (clock st.1) st.

(** [asyncio.sleep(ms / 1000)] *)
Definition asyncio_sleep {X} (ms : Z) : M (world * X) unit := fun st =>
  Ret tt (set_clock (clock st.1 + ms) st.1, st.2).

(** [socket.create_connection((host, port))] *)
Definition create_connection {X} (h : string) (p : Z) : M (world * X) socket := fun st =>
  let w := World (clock st.1) (files st.1) (endpoints st.1)
                 (S (connect_calls st.1)) (constructed st.1) in
  match endpoints st.1 !! (h, p) with
  | Some k => Ret k (w, st.2)
  | None => Raise (Exn ConnectionRefusedError "[Errno 111] Connection refused") (w, st.2)
  end.

(** [select.select([self.sock], [], [], ms / 1000)]: is the list of
    readable sockets non-empty? *)
Definition select_select (ms : Z) : M sstate bool := fun st =>
  let '(w, self) := st in
  match sock self with
  | None => Raise (Exn TypeError "argument must be an int, or have a fileno() method") st
  | Some k =>
      match norm (inbox k) with
      | [] => if eof k then Ret true st
              else Ret false (set_clock (clock w + ms) w, self)
      | (t, _) :: _ =>
          if t <=? clock w then Ret true st
          else if t <? clock w + ms then Ret true (set_clock t w, self)
          else Ret false (set_clock (clock w + ms) w, self)
      end
  end.

(** [self.sock.recv(n)] on a blocking socket *)
Definition sock_recv (n : Z) : M sstate string := fun st =>
  let '(w, self) := st in
  match sock self with
  | None => Raise (Exn AttributeError "'NoneType' object has no attribute 'recv'") st
  | Some k =>
      if n <? 0 then Raise (Exn ValueError "negative buffersize in recv") st
      else if n =? 0 then Ret EmptyString st
      else match norm (inbox k) with
           | [] => if eof k then Ret EmptyString st else Hang
           | (t, s) :: r =>
               let now := Z.max (clock w) t in
               let '(data, ib) := take_avail now (Z.to_nat n) ((t, s) :: r) in
               Ret data (set_clock now w, set_sock (Some (set_inbox ib k)) self)
           end
  end.

(** [self.sock.sendall(data)] *)
Definition sock_sendall (data : string) : M sstate unit := fun st =>
  let '(w, self) := st in
  match sock self with
  | None => Raise (Exn AttributeError "'NoneType' object has no attribute 'sendall'") st
  | Some k =>
      match send_budget k with
      | Some O => Raise (Exn BrokenPipeError "[Errno 32] Broken pipe") st
      | Some (S b) =>
          Ret tt (w, set_sock (Some (Socket (sent k ++ [data]) (inbox k) (eof k) (Some b))) self)
      | None =>
          Ret tt (w, set_sock (Some (Socket (sent k ++ [data]) (inbox k) (eof k) None)) self)
      end
  end.

(** Library functions whose behaviour is fixed outside the repository:
    [json.loads] on the bytes of a body ([inl] is the exception it
    raises) and [os.path.abspath] for the process's working directory. *)
Class Platform : Type := {
  json_loads : string -> exn + json;
  abspath : string -> string
}.

(** ** [class LSPClientSession] *)

Section Program.
Context {P : Platform}.

(** [LSPClientSession()]: [__init__] with its default arguments. *)
Definition LSPClientSession_init {X} : M (world * X) LSPClientSession := fun st =>
  let w := st.1 in
  Ret (Session (constructed w) "127.0.0.1" 2087 None 0)
      (World (clock w) (files w) (endpoints w) (connect_calls w) (S (constructed w)), st.2).

(** [f"Content-Length: {len(body)}\r\n\r\n"] followed by the body. *)
Definition frame (body : string) : string :=
  "Content-Length: " +:+ PyStr.str_of_nat (String.length body) +:+ PyStr.CRLFCRLF +:+ body.

(** The [payload] dictionary [_send] builds. *)
Definition payload (method : string) (params : json) (id : option Z) : dict :=
  let p := [("jsonrpc"%string, JStr "2.0"); ("method"%string, JStr method);
            ("params"%string, params)] in
  match id with
  | Some i => dict_set "id" (JInt i) p
  | None => p
  end.

Definition _send (method : string) (params : json) (id : option Z) : M sstate unit :=
  st ← get;
  match sock st.2 with
  | None => raise (Exn RuntimeError "LSP socket not connected.")
  | Some _ =>
      let body := json_dumps None (JDict (payload method params id)) in
      sock_sendall (frame body)
  end.

(** [while not line.endswith(b"\r\n\r\n"): line += self.sock.recv(1)].
    At end of stream [recv] returns no byte and changes nothing, so the
    loop would repeat for ever. *)
Fixpoint read_header (fuel : nat) (line : string) : M sstate string :=
  if PyStr.endswith line PyStr.CRLFCRLF then mret line
  else match fuel with
       | O => no_fuel
       | S fuel' =>
           b ← sock_recv 1;
           match b with
           | EmptyString => hang
           | _ => read_header fuel' (line +:+ b)
           end
       end.

(** The [for l in line.decode().split("\r\n")] loop filling [headers].
    [decode()] is the identity on ASCII bytes, the header lines the
    statements are about; a header with a byte above 0x7f is outside the
    model. *)
Definition parse_headers (line : string) : gmap string string :=
  foldl (fun (headers : gmap string string) l =>
           if PyStr.contains ":" l then
             let '(k, v) := PyStr.split_once ":" l in
             <[PyStr.strip k := PyStr.strip v]> headers
           else headers)
        ∅ (PyStr.split_crlf line).

(** [int(headers.get("Content-Length", 0))] *)
Definition content_length (headers : gmap string string) : M sstate Z :=
  match headers !! "Content-Length"%string with
  | None => mret 0
  | Some v =>
      match PyStr.int_of_str v with
      | Some n => mret n
      | None => raise (Exn ValueError ("invalid literal for int() with base 10: '" +:+ v +:+ "'"))
      end
  end.

(** [message.get(key, dflt)] *)
Definition message_get {S} (message : json) (key : string) (dflt : json) : M S json :=
  match message with
  | JDict d => mret (default dflt (dict_get key d))
  | v => raise (Exn AttributeError
                  ("'" +:+ type_name v +:+ "' object has no attribute 'get'"))
  end.

(** One pass of the loop body after [select] reported the socket
    readable: read the header, then the body, and parse it. *)
Definition recv_message : M sstate json :=
  st ← get;
  line ← read_header (S (bytes_in (from_option inbox [] (sock st.2)))) EmptyString;
  let headers := parse_headers line in
  n ← content_length headers;
  body ← sock_recv n;
  match json_loads body with
  | inl e => raise e
  | inr message => mret message
  end.

(** The [while time.time() - start < timeout] loop of [_wait_for]. *)
Fixpoint wait_loop (fuel : nat) (target_id start timeout : Z) : M sstate json :=
  now ← time_time;
  if now - start <? timeout then
    match fuel with
    | O => no_fuel
    | S fuel' =>
        ready ← select_select 100;
        if negb ready then wait_loop fuel' target_id start timeout
        else
          message ← recv_message;
          i ← message_get message "id" JNull;
          if eq_int i target_id then mret message
          else wait_loop fuel' target_id start timeout
    end
  else mret JNull.

(** Iterations [wait_loop] can need: one per byte still to come and one
    per polling interval inside the timeout. *)
Definition wait_fuel (st : sstate) (timeout : Z) : nat :=
  (bytes_in (from_option inbox [] (sock st.2)) + Z.to_nat (timeout / 100 + 1))%nat.

Definition _wait_for (target_id : Z) (timeout : Z) : M sstate json :=
  start ← time_time;
  st ← get;
  wait_loop (wait_fuel st timeout) target_id start timeout.

Definition initialize_params : json :=
  JDict [("processId"%string, JNull);
         ("rootUri"%string, JStr ("file://" +:+ abspath "."));
         ("capabilities"%string, JDict [])].

Definition start : M sstate unit :=
  st ← get;
  k ← create_connection (host st.2) (port st.2);
  st ← get; put (st.1, set_sock (Some k) st.2);;
  st ← get; put (st.1, set_id 1 st.2);;
  _send "initialize" initialize_params None;;
  st ← get;
  _wait_for (_id st.2) 3000;;
  _send "initialized" (JDict []) None.

Definition request (method : string) (params : json) : M sstate json :=
  st ← get; put (st.1, set_id (_id st.2 + 1) st.2);;
  st ← get;
  _send method params (Some (_id st.2));;
  st ← get;
  _wait_for (_id st.2) 3000.

(** ** [class PythonLSPTool] *)

(** [PythonLSPTool.parameters] *)
Definition parameters : json :=
  JDict [
    ("type"%string, JStr "object");
    ("properties"%string, JDict [
       ("filepath"%string, JDict [
          ("type"%string, JStr "string");
          ("description"%string, JStr "Path to the Python file to analyze.")]);
       ("action"%string, JDict [
          ("type"%string, JStr "string");
          ("enum"%string, JList [JStr "hover"; JStr "definition"]);
          ("description"%string, JStr "Type of LSP action to perform.")]);
       ("line"%string, JDict [
          ("type"%string, JStr "integer");
          ("description"%string, JStr "Zero-based line number in the file.")]);
       ("character"%string, JDict [
          ("type"%string, JStr "integer");
          ("description"%string, JStr "Zero-based character index on the line.")])]);
    ("required"%string, JList [JStr "filepath"; JStr "action"; JStr "line"; JStr "character"])].

(** Run a method of [self._session] from a method of the tool. *)
Definition on_session {A} (m : M sstate A) : M tstate A := fun st =>
  match _session st.2 with
  | None => Raise (Exn AttributeError "'NoneType' object has no attribute") st
  | Some s =>
      match m (st.1, s) with
      | Ret a (w, s') => Ret a (w, Tool (Some s'))
      | Raise e (w, s') => Raise e (w, Tool (Some s'))
      | Hang => Hang
      | NoFuel => NoFuel
      end
  end.

(** [os.path.exists(full_path)] *)
Definition os_path_exists (full_path : string) : M tstate bool := fun st =>
  Ret (bool_decide (is_Some (files st.1 !! full_path))) st.

(** [with open(full_path, "r", encoding="utf-8") as f: content = f.read()] *)
Definition read_text (full_path : string) : M tstate string := fun st =>
  match files st.1 !! full_path with
  | Some (Readable content) => Ret content st
  | Some (Unreadable e) => Raise e st
  | None => Raise (Exn OSError ("[Errno 2] No such file or directory: '" +:+ full_path +:+ "'")) st
  end.

Definition tool_output (s : string) : ToolResult := MkToolResult (Some s) None.
Definition tool_error (s : string) : ToolResult := MkToolResult None (Some s).

Definition did_open_params (uri content : string) : json :=
  JDict [("textDocument"%string,
          JDict [("uri"%string, JStr uri); ("languageId"%string, JStr "python");
                 ("version"%string, JInt 1); ("text"%string, JStr content)])].

Definition position_params (uri : string) (line character : Z) : json :=
  JDict [("textDocument"%string, JDict [("uri"%string, JStr uri)]);
         ("position"%string,
          JDict [("line"%string, JInt line); ("character"%string, JInt character)])].

(** [return ToolResult(output=json.dumps(result.get("result", {}), indent=2))] *)
Definition render (result : json) : M tstate ToolResult :=
  r ← message_get result "result" (JDict []);
  mret (tool_output (json_dumps (Some 2%nat) r)).

(** [if self._session is None: ...]: the session is stored in the tool
    before [start] runs, so it stays there when [start] raises. *)
Definition ensure_session : M tstate unit :=
  st ← get;
  match _session st.2 with
  | None =>
      s ← LSPClientSession_init;
      st ← get; put (st.1, Tool (Some s));;
      on_session start
  | Some _ => mret tt
  end.

(** From [full_path = ...] to the settle delay.  [inl] is the early
    [return ToolResult(error=...)], [inr] carries [uri] on. *)
Definition open_document (filepath : string) : M tstate (ToolResult + string) :=
  let full_path := abspath filepath in
  let uri := "file://" +:+ full_path in
  there ← os_path_exists full_path;
  if negb there then mret (inl (tool_error ("File does not exist: " +:+ filepath)))
  else
    content ← read_text full_path;
    on_session (_send "textDocument/didOpen" (did_open_params uri content) None);;
    asyncio_sleep 300;;
    mret (inr uri).

(** The [if action == ...] chain and the final [return]. *)
Definition dispatch (action uri : string) (line character : Z) : M tstate ToolResult :=
  if String.eqb action "hover" then
    result ← on_session (request "textDocument/hover" (position_params uri line character));
    render result
  else if String.eqb action "definition" then
    result ← on_session (request "textDocument/definition" (position_params uri line character));
    render result
  else mret (tool_error ("Unsupported action: " +:+ action)).

(** The body of the [try] in [execute]. *)
Definition execute_try (filepath action : string) (line character : Z) : M tstate ToolResult :=
  ensure_session;;
  r ← open_document filepath;
  match r with
  | inl early => mret early
  | inr uri => dispatch action uri line character
  end.

(** [except Exception as e: return ToolResult(error=f"LSP tool error: {str(e)}")] *)
Definition on_exception (e : exn) : M tstate ToolResult :=
  mret (tool_error ("LSP tool error: " +:+ exn_str e)).

Definition execute (filepath action : string) (line character : Z) : M tstate ToolResult :=
  try_except (execute_try filepath action line character) on_exception.

End Program.

(** ** A concrete platform, to run the program on examples

    [PyJson.loads] follows [json.loads] on ASCII texts without fractional
    numbers (the text of an error other than the one for an empty body is
    not reproduced); [posix_abspath] is [os.path.abspath] on POSIX for a
    given working directory. *)

Module PyJson.

Definition is_ws (c : ascii) : bool :=
  let n := nat_of_ascii c in
  ((n =? 32) || (n =? 9) || (n =? 10) || (n =? 13))%nat.

Fixpoint skip_ws (s : string) : string :=
  match s with
  | String c s' => if is_ws c then skip_ws s' else s
  | EmptyString => s
  end.

Definition hex_val (c : ascii) : option nat :=
  let n := nat_of_ascii c in
  if ((48 <=? n) && (n <=? 57))%nat then Some (n - 48)%nat
  else if ((97 <=? n) && (n <=? 102))%nat then Some (n - 87)%nat
  else if ((65 <=? n) && (n <=? 70))%nat then Some (n - 55)%nat
  else None.

(** The character a one-letter escape stands for. *)
Definition unescape (e : ascii) : option ascii :=
  if Ascii.eqb e DQ then Some DQ
  else if Ascii.eqb e BS then Some BS
  else if Ascii.eqb e "/" then Some "/"%char
  else if Ascii.eqb e "b" then Some "008"%char
  else if Ascii.eqb e "f" then Some "012"%char
  else if Ascii.eqb e "n" then Some "010"%char
  else if Ascii.eqb e "r" then Some "013"%char
  else if Ascii.eqb e "t" then Some "009"%char
  else None.

(** The rest of a string literal, after its opening quote. *)
Fixpoint parse_string (s : string) : option (string * string) :=
  match s with
  | EmptyString => None
  | String c s' =>
      if Ascii.eqb c DQ then Some (EmptyString, s')
      else if Ascii.eqb c BS then
        match s' with
        | String "u" (String h1 (String h2 (String h3 (String h4 r)))) =>
            match hex_val h1, hex_val h2, hex_val h3, hex_val h4 with
            | Some O, Some O, Some a, Some b =>
                '(t, r') ← parse_string r;
                Some (String (ascii_of_nat (16 * a + b)) t, r')
            | _, _, _, _ => None
            end
        | String e s'' =>
            d ← unescape e;
            '(t, r') ← parse_string s'';
            Some (String d t, r')
        | EmptyString => None
        end
      else if (nat_of_ascii c <? 32)%nat then None
      else '(t, r) ← parse_string s'; Some (String c t, r)
  end.

Fixpoint parse_nat_digits (acc : Z) (s : string) : Z * string :=
  match s with
  | String c s' =>
      match PyStr.digit_val c with
      | Some d => parse_nat_digits (10 * acc + d) s'
      | None => (acc, s)
      end
  | EmptyString => (acc, s)
  end.

Definition starts_fraction (s : string) : bool :=
  match s with
  | String c _ => Ascii.eqb c "." || Ascii.eqb c "e" || Ascii.eqb c "E"
  | EmptyString => false
  end.

(** An unsigned JSON integer (no leading zero), refused when a fraction
    or an exponent follows. *)
Definition parse_unsigned (s : string) : option (Z * string) :=
  match s with
  | String c s' =>
      match PyStr.digit_val c with
      | Some 0 => if starts_fraction s' then None else Some (0, s')
      | Some d =>
          let '(n, r) := parse_nat_digits d s' in
          if starts_fraction r then None else Some (n, r)
      | None => None
      end
  | EmptyString => None
  end.

Definition parse_int (s : string) : option (Z * string) :=
  match s with
  | String "-" s' => '(n, r) ← parse_unsigned s'; Some (- n, r)
  | _ => parse_unsigned s
  end.

Fixpoint strip_prefix (p s : string) : option string :=
  match p, s with
  | EmptyString, _ => Some s
  | String a p', String b s' => if Ascii.eqb a b then strip_prefix p' s' else None
  | _, _ => None
  end.

Inductive mode : Type :=
| MValue
| MElems (acc : list json)
| MMembers (acc : dict).

(** A value; the elements of an array after its bracket or a comma; the
    members of an object after its brace or a comma. *)
Fixpoint parse (fuel : nat) (m : mode) (s : string) : option (json * string) :=
  match fuel with
  | O => None
  | S fuel' =>
      match m with
      | MValue =>
          match s with
          | String "{" r =>
              match skip_ws r with
              | String "}" r' => Some (JDict [], r')
              | r' => parse fuel' (MMembers []) r'
              end
          | String "[" r =>
              match skip_ws r with
              | String "]" r' => Some (JList [], r')
              | r' => parse fuel' (MElems []) r'
              end
          | String "034" r => '(t, r') ← parse_string r; Some (JStr t, r')
          | String "n" _ => r ← strip_prefix "null" s; Some (JNull, r)
          | String "t" _ => r ← strip_prefix "true" s; Some (JBool true, r)
          | String "f" _ => r ← strip_prefix "false" s; Some (JBool false, r)
          | _ => '(n, r) ← parse_int s; Some (JInt n, r)
          end
      | MElems acc =>
          '(v, r) ← parse fuel' MValue s;
          match skip_ws r with
          | String "," r' => parse fuel' (MElems (acc ++ [v])) (skip_ws r')
          | String "]" r' => Some (JList (acc ++ [v]), r')
          | _ => None
          end
      | MMembers acc =>
          match s with
          | String "034" r =>
              '(k, r) ← parse_string r;
              match skip_ws r with
              | String ":" r =>
                  '(v, r) ← parse fuel' MValue (skip_ws r);
                  match skip_ws r with
                  | String "," r' => parse fuel' (MMembers (dict_set k v acc)) (skip_ws r')
                  | String "}" r' => Some (JDict (dict_set k v acc), r')
                  | _ => None
                  end
              | _ => None
              end
          | _ => None
          end
      end
  end.

Definition loads (s : string) : exn + json :=
  match skip_ws s with
  | EmptyString => inl (Exn JSONDecodeError "Expecting value: line 1 column 1 (char 0)")
  | s' =>
      match parse (2 * String.length s' + 2) MValue s' with
      | Some (v, r) =>
          match skip_ws r with
          | EmptyString => inr v
          | _ => inl (Exn JSONDecodeError "Extra data")
          end
      | None => inl (Exn JSONDecodeError "malformed JSON text")
      end
  end.

End PyJson.

Module Posix.

Fixpoint split_slash (s : string) : list string :=
  match s with
  | EmptyString => [EmptyString]
  | String c s' =>
      if Ascii.eqb c "/" then EmptyString :: split_slash s'
      else match split_slash s' with
           | h :: t => String c h :: t
           | [] => [String c EmptyString]
           end
  end.

Fixpoint join_slash (l : list string) : string :=
  match l with
  | [] => EmptyString
  | [x] => x
  | x :: r => x +:+ "/" +:+ join_slash r
  end.

(** [os.path.normpath]; the components are kept newest first. *)
Definition normpath (path : string) : string :=
  let slashes :=
    match path with
    | String "/" (String "/" (String "/" _)) => "/"%string
    | String "/" (String "/" _) => "//"%string
    | String "/" _ => "/"%string
    | _ => EmptyString
    end in
  let comps :=
    foldl (fun acc c =>
             if String.eqb c EmptyString || String.eqb c "." then acc
             else if String.eqb c ".." then
               match acc with
               | [] => if String.eqb slashes EmptyString then [c] else []
               | x :: r => if String.eqb x ".." then c :: acc else r
               end
             else c :: acc)
          [] (split_slash path) in
  match slashes +:+ join_slash (rev comps) with
  | EmptyString => "."
  | p => p
  end.

(** [os.path.abspath] when [os.getcwd()] is [cwd]. *)
Definition posix_abspath (cwd path : string) : string :=
  match path with
  | String "/" _ => normpath path
  | _ => normpath (if PyStr.endswith cwd "/" then cwd +:+ path else cwd +:+ "/" +:+ path)
  end.

End Posix.

Definition posix (cwd : string) : Platform :=
  {| json_loads := PyJson.loads; abspath := Posix.posix_abspath cwd |}.

(** Write a JSON text with ['] for its quotation marks. *)
Fixpoint dq (s : string) : string :=
  match s with
  | EmptyString => EmptyString
  | String c s' => String (if Ascii.eqb c "'" then DQ else c) (dq s')
  end.

(** ** JSON values that [json.loads] reads back

    A Python [dict] holds each key once; an association list that does
    too, at every depth, is the image of a Python value. *)
Fixpoint distinct_keys (v : json) : bool :=
  match v with
  | JList l =>
      (fix all (l : list json) : bool :=
         match l with
         | [] => true
         | x :: l' => distinct_keys x && all l'
         end) l
  | JDict d =>
      bool_decide (NoDup d.*1) &&
      (fix all (d : dict) : bool :=
         match d with
         | [] => true
         | (_, x) :: d' => distinct_keys x && all d'
         end) d
  | _ => true
  end.

Fixpoint elems_distinct (l : list json) : bool :=
  match l with
  | [] => true
  | x :: l' => distinct_keys x && elems_distinct l'
  end.

Fixpoint members_distinct (d : dict) : bool :=
  match d with
  | [] => true
  | (_, x) :: d' => distinct_keys x && members_distinct d'
  end.

(** What may follow a value in a JSON text, and what a value may open
    with. *)
Definition follows (s : string) : bool :=
  match s with
  | EmptyString => true
  | String c _ =>
      PyJson.is_ws c || Ascii.eqb c "," || Ascii.eqb c "]" || Ascii.eqb c "}"
  end.

Definition opens_value (c : ascii) : bool :=
  negb (PyJson.is_ws c) && negb (Ascii.eqb c "]") && negb (Ascii.eqb c "}").

Section Texts.
Variable indent : option nat.

(** The text [dumps_at] writes after the first element of a list and
    after the first member of a dict. *)
Definition elems_text (level : nat) : list json -> string :=
  fix items (l : list json) : string :=
    match l with
    | [] => EmptyString
    | y :: l' => item_separator indent level +:+ dumps_at indent level y +:+ items l'
    end.

Definition members_text (level : nat) : dict -> string :=
  fix items (d : dict) : string :=
    match d with
    | [] => EmptyString
    | (k', y) :: d' =>
        item_separator indent level +:+ quote k' +:+ ": " +:+
        dumps_at indent level y +:+ items d'
    end.

(** [PyJson.parse], in each of its modes, reads back what [dumps_at]
    wrote, given fuel for the length of the text. *)
Definition value_reads_back (fuel : nat) : Prop :=
  forall v level rest,
    (String.length (dumps_at indent level v) <= fuel)%nat ->
    distinct_keys v = true -> follows rest = true ->
    PyJson.parse fuel PyJson.MValue (dumps_at indent level v +:+ rest) = Some (v, rest).

Definition elems_read_back (fuel : nat) : Prop :=
  forall x l acc level level' rest,
    (String.length (dumps_at indent level x) + String.length (elems_text level l) < fuel)%nat ->
    distinct_keys x = true -> elems_distinct l = true ->
    PyJson.parse fuel (PyJson.MElems acc)
      (dumps_at indent level x +:+ elems_text level l +:+
       newline indent level' +:+ String "]" rest)
    = Some (JList (acc ++ x :: l), rest).

Definition members_read_back (fuel : nat) : Prop :=
  forall k x d acc level level' rest,
    (String.length (dumps_at indent level x) + String.length (members_text level d) < fuel)%nat ->
    distinct_keys x = true -> members_distinct d = true ->
    NoDup (acc.*1 ++ k :: d.*1) ->
    PyJson.parse fuel (PyJson.MMembers acc)
      (quote k +:+ ": " +:+ dumps_at indent level x +:+ members_text level d +:+
       newline indent level' +:+ String "}" rest)
    = Some (JDict (acc ++ (k, x) :: d), rest).

End Texts.

(** ** Vocabulary of the statements *)

Section Vocabulary.
Context {P : Platform}.

(** *** Outcomes *)

(** [m] never exhausts the loop bound, and whenever it returns or raises
    the states before and after are related by [R]. *)
Definition always {S A} (R : S -> S -> Prop) (m : M S A) : Prop :=
  forall s, match m s with
            | Ret _ s' => R s s'
            | Raise _ s' => R s s'
            | Hang => True
            | NoFuel => False
            end.

(** *** Frames on the wire *)

(** A text without carriage return: a header line. *)
Fixpoint no_cr (s : string) : Prop :=
  match s with
  | EmptyString => True
  | String c s' => c <> PyStr.CR /\ no_cr s'
  end.

(** A text made of decimal digits. *)
Fixpoint all_digits (s : string) : Prop :=
  match s with
  | EmptyString => True
  | String c s' => is_Some (PyStr.digit_val c) /\ all_digits s'
  end.

(** The header [frame] puts before a body of [n] bytes. *)
Definition header (n : nat) : string :=
  "Content-Length: " +:+ PyStr.str_of_nat n +:+ PyStr.CRLFCRLF.

(** The input with [s] put back in front, as a chunk that arrived at [t]. *)
Definition chunk_cons (t : Z) (s : string) (r : inbox_t) : inbox_t :=
  match s with
  | EmptyString => r
  | _ => (t, s) :: r
  end.

(** The session with the unread input of its socket [k] replaced. *)
Definition with_inbox (ib : inbox_t) (k : socket) (self : LSPClientSession) : LSPClientSession :=
  set_sock (Some (set_inbox ib k)) self.

(** The socket after one successful [sendall]. *)
Definition pushed (data : string) (k : socket) : socket :=
  Socket (sent k ++ [data]) (inbox k) (eof k) (pred <$> send_budget k).

(** The last thing written to the session's socket. *)
Definition last_sent (st : sstate) : option string :=
  k ← sock st.2; last (sent k).

(** Bytes not read yet, and polling intervals left before deadline [d]. *)
Definition unread (st : sstate) : nat := bytes_in (from_option inbox [] (sock st.2)).
Definition ticks (d : Z) (st : sstate) : nat := Z.to_nat ((d - clock st.1 + 99) / 100).

(** A message on its way to the client: when its frame arrives, the text
    of its body, and the dictionary the body stands for. *)
Record delivery : Type := Delivery {
  arrival : Z;
  text : string;
  content : dict
}.

Definition frames_of (ds : list delivery) : inbox_t :=
  map (fun d => (arrival d, frame (text d))) ds.

Definition well_formed (d : delivery) : Prop :=
  json_loads (text d) = inr (JDict (content d)).

(** [message.get("id") == target_id] *)
Definition answers (target_id : Z) (message : dict) : bool :=
  eq_int (default JNull (dict_get "id" message)) target_id.

Definition initialize_frame : string :=
  frame (json_dumps None (JDict (payload "initialize" initialize_params None))).
Definition initialized_frame : string :=
  frame (json_dumps None (JDict (payload "initialized" (JDict []) None))).
Definition did_open_frame (filepath content : string) : string :=
  frame (json_dumps None
           (JDict (payload "textDocument/didOpen"
                     (did_open_params ("file://" +:+ abspath filepath) content) None))).

(** *** What a step may change *)

(** Only the clock and the unread input change. *)
Definition reads_only (st st' : sstate) : Prop :=
  exists c, clock st.1 <= c /\ st'.1 = set_clock c st.1 /\
    match sock st.2 with
    | Some k => exists ib, st'.2 = with_inbox ib k st.2 /\
                           (bytes_in ib <= bytes_in (inbox k))%nat
    | None => st'.2 = st.2
    end.

(** Nothing changes but the log of the socket, by at most one write. *)
Definition sends_only (st st' : sstate) : Prop :=
  st'.1 = st.1 /\
  (st'.2 = st.2 \/
   exists k data b, sock st.2 = Some k /\
     st'.2 = set_sock (Some (Socket (sent k ++ [data]) (inbox k) (eof k) b)) st.2).

(** The world apart from its clock, which only moves forward. *)
Definition world_kept (w w' : world) : Prop :=
  files w' = files w /\ endpoints w' = endpoints w /\
  connect_calls w' = connect_calls w /\ constructed w' = constructed w /\
  clock w <= clock w'.

(** The session is the same object, still connected (or still not). *)
Definition session_kept (st st' : sstate) : Prop :=
  world_kept st.1 st'.1 /\
  oid st'.2 = oid st.2 /\ host st'.2 = host st.2 /\ port st'.2 = port st.2 /\
  (is_Some (sock st'.2) <-> is_Some (sock st.2)).

(** ... and its id counter did not move. *)
Definition quiet (st st' : sstate) : Prop :=
  session_kept st st' /\ _id st'.2 = _id st.2.

(** The tool still holds the session it held, or still none. *)
Definition tool_kept (st st' : tstate) : Prop :=
  match _session st.2 with
  | Some s => exists s', _session st'.2 = Some s' /\
                session_kept (st.1, s) (st'.1, s') /\ _id s <= _id s'
  | None => _session st'.2 = None /\ world_kept st.1 st'.1
  end.

(** What [start] leaves behind: one more connection attempt. *)
Definition started (st st' : sstate) : Prop :=
  files st'.1 = files st.1 /\ endpoints st'.1 = endpoints st.1 /\
  connect_calls st'.1 = S (connect_calls st.1) /\ constructed st'.1 = constructed st.1 /\
  clock st.1 <= clock st'.1 /\
  oid st'.2 = oid st.2 /\ host st'.2 = host st.2 /\ port st'.2 = port st.2.

(** What the first [execute] of a tool leaves behind: a new session
    object, stored in the tool, and one connection attempt. *)
Definition session_made (st st' : tstate) : Prop :=
  exists s', _session st'.2 = Some s' /\ oid s' = constructed st.1 /\
    constructed st'.1 = S (constructed st.1) /\
    connect_calls st'.1 = S (connect_calls st.1) /\
    files st'.1 = files st.1 /\ endpoints st'.1 = endpoints st.1 /\
    clock st.1 <= clock st'.1.

(** The session [LSPClientSession()] makes in world [w], [w] after it,
    and [w] after a call of [create_connection]. *)
Definition fresh_session (w : world) : LSPClientSession :=
  Session (constructed w) "127.0.0.1" 2087 None 0.
Definition after_init (w : world) : world :=
  World (clock w) (files w) (endpoints w) (connect_calls w) (S (constructed w)).
Definition after_connect (w : world) : world :=
  World (clock w) (files w) (endpoints w) (S (connect_calls w)) (constructed w).

(** *** Runs *)

(** The ids a run of [request] calls allocates, in order: each call
    starts with [self._id += 1] and passes the new value as [id=]. *)
Fixpoint allocated (calls : list (string * json)) (st : sstate) : list Z :=
  match calls with
  | [] => []
  | (method, params) :: calls' =>
      (_id st.2 + 1) ::
      match request method params st with
      | Ret _ st' => allocated calls' st'
      | Raise _ st' => allocated calls' st'
      | _ => []
      end
  end.

(** A run of [execute] calls, each with [(filepath, action, line,
    character)]; [None] when one of them never returns. *)
Fixpoint execute_all (calls : list (string * string * Z * Z)) (st : tstate) : option tstate :=
  match calls with
  | [] => Some st
  | (filepath, action, line, character) :: calls' =>
      match execute filepath action line character st with
      | Ret _ st' => execute_all calls' st'
      | _ => None
      end
  end.

(** [execute] up to the settle delay. *)
Definition prepare (filepath : string) : M tstate (ToolResult + string) :=
  ensure_session;; open_document filepath.

(** The LSP method of an action [execute] supports. *)
Definition lsp_method (action : string) : option string :=
  if String.eqb action "hover" then Some "textDocument/hover"%string
  else if String.eqb action "definition" then Some "textDocument/definition"%string
  else None.

(** The payloads [execute] returns on its error paths. *)
Definition file_not_found (filepath : string) : ToolResult :=
  tool_error ("File does not exist: " +:+ filepath).
Definition unsupported_action (action : string) : ToolResult :=
  tool_error ("Unsupported action: " +:+ action).
Definition lsp_tool_error (e : exn) : ToolResult :=
  tool_error ("LSP tool error: " +:+ exn_str e).
Definition none_type_error : ToolResult :=
  lsp_tool_error (Exn AttributeError "'NoneType' object has no attribute 'get'").

End Vocabulary.

(** ** Vocabulary of the further properties *)

(** *** Header blocks *)

(** A header block: its lines, each ended by CRLF, then the blank line. *)
Fixpoint header_block (ls : list string) : string :=
  match ls with
  | [] => PyStr.CRLF
  | l :: ls' => l +:+ PyStr.CRLF +:+ header_block ls'
  end.

(** A line of a header block: not empty, no carriage return. *)
Definition header_line (l : string) : Prop := l <> EmptyString /\ no_cr l.

(** An ASCII text: [decode()] gives it back, character for byte. *)
Fixpoint all_ascii (s : string) : bool :=
  match s with
  | EmptyString => true
  | String c s' => (nat_of_ascii c <? 128)%nat && all_ascii s'
  end.

(** What one line adds to [headers], and the key it is stored under. *)
Definition header_step (headers : gmap string string) (l : string) : gmap string string :=
  if PyStr.contains ":" l then
    let '(k, v) := PyStr.split_once ":" l in
    <[PyStr.strip k := PyStr.strip v]> headers
  else headers.

Definition header_key (l : string) : string := PyStr.strip (PyStr.split_once ":" l).1.

(** The line [frame] writes. *)
Definition length_line (n : nat) : string := "Content-Length: " +:+ PyStr.str_of_nat n.

(** *** Outcomes *)

(** Whenever [m] returns, what it returns satisfies [Q]. *)
Definition yields {S A} (Q : A -> Prop) (m : M S A) : Prop :=
  forall s, match m s with Ret a _ => Q a | _ => True end.

(** Exactly one of [output] and [error] is set. *)
Definition one_sided (r : ToolResult) : bool :=
  match output r, error r with
  | Some _, None | None, Some _ => true
  | _, _ => false
  end.

(** The deadline of a wait that starts at [now]: the first polling
    instant at or after [now + timeout]. *)
Definition deadline (now timeout : Z) : Z := now + 100 * ((Z.max 0 timeout + 99) / 100).

(** *** Queries and runs *)

Section Queries.
Context {P : Platform}.

(** The frame of a query. *)
Definition request_frame (method uri : string) (line character id : Z) : string :=
  frame (json_dumps None (JDict (payload method (position_params uri line character) (Some id)))).

(** The session [s], connected through [k], once an [execute] has
    written its two frames: the didOpen notification and the query, under
    the next id. *)
Definition queried (path content method : string) (line character : Z)
    (k : socket) (s : LSPClientSession) : LSPClientSession :=
  set_sock
    (Some (pushed (request_frame method ("file://" +:+ abspath path) line character (_id s + 1))
             (pushed (did_open_frame path content) k)))
    (set_id (_id s + 1) s).

(** What [execute] makes of the outcome of its query. *)
Definition reported (r : res sstate json) : res tstate ToolResult :=
  match r with
  | Ret (JDict d) st =>
      Ret (tool_output (json_dumps (Some 2%nat) (default (JDict []) (dict_get "result" d))))
          (st.1, Tool (Some st.2))
  | Ret v st =>
      Ret (lsp_tool_error
             (Exn AttributeError ("'" +:+ type_name v +:+ "' object has no attribute 'get'")))
          (st.1, Tool (Some st.2))
  | Raise e st => Ret (lsp_tool_error e) (st.1, Tool (Some st.2))
  | Hang => Hang
  | NoFuel => NoFuel
  end.

(** The frames one [execute] writes through a connected session whose
    counter is at [id], in a world with the files of [w], and the counter
    after the call. *)
Definition call_frames (w : world) (id : Z) (call : string * string * Z * Z) : list string * Z :=
  let '(path, action, line, character) := call in
  match files w !! abspath path with
  | Some (Readable contents) =>
      match lsp_method action with
      | Some method =>
          ([did_open_frame path contents;
            request_frame method ("file://" +:+ abspath path) line character (id + 1)],
           id + 1)
      | None => ([did_open_frame path contents], id)
      end
  | _ => ([], id)
  end.

Fixpoint run_frames (w : world) (id : Z) (calls : list (string * string * Z * Z))
    : list string * Z :=
  match calls with
  | [] => ([], id)
  | call :: calls' =>
      let '(fs, id') := call_frames w id call in
      let '(fs', id'') := run_frames w id' calls' in
      (fs ++ fs', id'')
  end.

End Queries.

(** *** Texts *)

(** A printable ASCII character, and a text made of them: one byte per
    character under UTF-8, none of them a line break. *)
Definition printable (c : ascii) : bool :=
  ((32 <=? nat_of_ascii c) && (nat_of_ascii c <=? 126))%nat.

Fixpoint all_printable (s : string) : bool :=
  match s with
  | EmptyString => true
  | String c s' => printable c && all_printable s'
  end.

(** Induction on a JSON value, through its lists and dicts. *)
Section JsonInduction.
Variable Q : json -> Prop.
Hypothesis Hnull : Q JNull.
Hypothesis Hbool : forall b, Q (JBool b).
Hypothesis Hint : forall n, Q (JInt n).
Hypothesis Hstr : forall s, Q (JStr s).
Hypothesis Hlist : forall l, Forall Q l -> Q (JList l).
Hypothesis Hdict : forall d, Forall (fun kv => Q kv.2) d -> Q (JDict d).

Fixpoint json_induction (v : json) : Q v :=
  match v with
  | JNull => Hnull
  | JBool b => Hbool b
  | JInt n => Hint n
  | JStr s => Hstr s
  | JList l =>
      Hlist l ((fix all (l : list json) : Forall Q l :=
                  match l with
                  | [] => Forall_nil_2 Q
                  | x :: l' => Forall_cons_2 Q x l' (json_induction x) (all l')
                  end) l)
  | JDict d =>
      Hdict d ((fix all (d : dict) : Forall (fun kv => Q kv.2) d :=
                  match d with
                  | [] => Forall_nil_2 _
                  | (k, x) :: d' =>
                      Forall_cons_2 (fun kv => Q kv.2) (k, x) d' (json_induction x) (all d')
                  end) d)
  end.
End JsonInduction.

(** *** The schema *)

(** [v[k1][k2]...] *)
Fixpoint json_at (keys : list string) (v : json) : option json :=
  match keys with
  | [] => Some v
  | key :: keys' =>
      match v with
      | JDict d => dict_get key d ≫= json_at keys'
      | _ => None
      end
  end.

(** The values the schema allows for [action]. *)
Definition schema_actions : list json :=
  match json_at ["properties"; "action"; "enum"]%string parameters with
  | Some (JList l) => l
  | _ => []
  end.

(** ** Examples *)

(** The platform of the examples: CPython's [json] on a POSIX system,
    run from the directory [/w]. *)
Definition example_platform : Platform := posix "/w".

Definition example_files : gmap string file := {[ "/w/main.py"%string := Readable "x = 1" ]}.

(** A world at time 1000 with [server] listening, and one with nobody. *)
Definition example_world (server : socket) : world :=
  World 1000 example_files {[ ("127.0.0.1"%string, 2087) := server ]} 0 0.
Definition nowhere : world := World 1000 example_files ∅ 0 0.

(** A session connected to [k], and one whose [start] failed to connect. *)
Definition connected (k : socket) (id : Z) : LSPClientSession :=
  Session 0 "127.0.0.1" 2087 (Some k) id.
Definition unconnected : LSPClientSession := Session 0 "127.0.0.1" 2087 None 0.

(** A server that accepts the connection and never writes, and one that
    accepts it and closes it. *)
Definition silent : socket := Socket [] [] false None.
Definition hung_up : socket := Socket [] [] true None.

(** A notification, a reply to an older request and the awaited reply. *)
Definition log_message : delivery :=
  Delivery 1100 (dq "{'jsonrpc': '2.0', 'method': 'window/logMessage', 'params': {'type': 3}}")
    [("jsonrpc"%string, JStr "2.0"); ("method"%string, JStr "window/logMessage");
     ("params"%string, JDict [("type"%string, JInt 3)])].
Definition stale_reply : delivery :=
  Delivery 1150 (dq "{'jsonrpc': '2.0', 'id': 1, 'result': {}}")
    [("jsonrpc"%string, JStr "2.0"); ("id"%string, JInt 1); ("result"%string, JDict [])].
Definition hover_reply : delivery :=
  Delivery 1250 (dq "{'jsonrpc': '2.0', 'id': 2, 'result': {'contents': 'int'}}")
    [("jsonrpc"%string, JStr "2.0"); ("id"%string, JInt 2);
     ("result"%string, JDict [("contents"%string, JStr "int")])].
Definition example_traffic : list delivery := [log_message; stale_reply; hover_reply].
Definition chatty : socket := Socket [] (frames_of example_traffic) false None.

(** A server that answers the handshake. *)
Definition answering : socket := Socket [] (frames_of [stale_reply]) false None.

(** A server that answers the first query with an LSP error. *)
Definition error_reply : delivery :=
  Delivery 1350
    (dq "{'jsonrpc': '2.0', 'id': 2, 'error': {'code': -32601, 'message': 'Method Not Found'}}")
    [("jsonrpc"%string, JStr "2.0"); ("id"%string, JInt 2);
     ("error"%string, JDict [("code"%string, JInt (-32601));
                             ("message"%string, JStr "Method Not Found")])].
Definition refusing : socket := Socket [] (frames_of [error_reply]) false None.

(** A tool that has not been used, one whose session is connected, and
    one whose session never connected. *)
Definition unused : tstate := (example_world silent, Tool None).
Definition established : tstate := (example_world silent, Tool (Some (connected silent 1))).
Definition stranded : tstate := (nowhere, Tool (Some unconnected)).

Definition two_calls : list (string * string * Z * Z) :=
  [("./main.py"%string, "hover"%string, 15, 22);
   ("./main.py"%string, "definition"%string, 1, 1)].

(** A request as the hover query sends it, looped back to a reader. *)
Definition hover_params : json :=
  JDict [("textDocument"%string, JDict [("uri"%string, JStr "file:///w/main.py")])].
Definition hover_frame : string :=
  frame (json_dumps None (JDict (payload "textDocument/hover" hover_params (Some 7)))).
Definition loopback : socket := Socket [] [(900, hover_frame)] false None.

(** Servers that send one frame the reader cannot use: a body cut short,
    a body that is a list, a header in lower case; and one that sends the
    awaited reply with a [Content-Type] line. *)
Definition garbled : socket := Socket [] [(1100, frame (dq "{'id': 2"))] false None.
Definition listing : socket := Socket [] [(1100, frame "[1, 2]")] false None.
Definition lower_case_lines : list string :=
  ["content-length: 2"; "Content-Type: application/json"]%string.
Definition lower_case : socket :=
  Socket [] [(1100, header_block lower_case_lines +:+ "{}")] false None.
Definition content_type : string :=
  "Content-Type: application/vscode-jsonrpc; charset=utf-8".
Definition typed : socket :=
  Socket []
    [(1100, header_block [length_line (String.length (text hover_reply)); content_type]
            +:+ text hover_reply)]
    false None.

(** A reply that comes in two parts: the body split after the header,
    and the frame split after its first byte, the rest a minute later. *)
Definition first_part : string := dq "{'id': 2, ".
Definition second_part : string := dq "'result': {}}".
Definition halved : socket :=
  Socket []
    [(1100, header (String.length (first_part +:+ second_part)) +:+ first_part);
     (5000, second_part)]
    false None.
Definition trickling : socket :=
  Socket [] [(1100, "C"%string); (61000, PyStr.drop 1 (frame (text hover_reply)))] false None.

(** A notification that comes in two segments, nothing after it. *)
Definition notification_head : string := PyStr.take 40 (text log_message).
Definition notification_tail : string := PyStr.drop 40 (text log_message).
Definition segmented : socket :=
  Socket []
    [(1100, header (String.length (notification_head +:+ notification_tail))
            +:+ notification_head);
     (1200, notification_tail)]
    false None.

(** A server that has closed the connection: nothing to read, the end
    of the stream reached, and the pipe breaks at the second write. *)
Definition closed : socket := Socket [] [] true (Some 1%nat).

(** A world where [/w/pkg] is a directory. *)
Definition is_a_directory : exn := Exn OSError "[Errno 21] Is a directory: '/w/pkg'".
Definition with_directory : world :=
  World 1000 {[ "/w/pkg"%string := Unreadable is_a_directory ]}
        {[ ("127.0.0.1"%string, 2087) := silent ]} 0 0.

(** * Properties *)


(** ** Strings *)

Lemma str_app_cons c s t : String c s +:+ t = String c (s +:+ t).
Proof. reflexivity. Qed.

Lemma str_app_nil_l s : EmptyString +:+ s = s.
Proof. reflexivity. Qed.

Lemma str_app_nil_r s : s +:+ EmptyString = s.
Proof. induction s as [|c s IH]; [done|]. by rewrite str_app_cons, IH. Qed.

Lemma str_app_assoc s t u : (s +:+ t) +:+ u = s +:+ (t +:+ u).
Proof. induction s as [|c s IH]; [done|]. by rewrite !str_app_cons, IH. Qed.

Lemma str_length_app s t : String.length (s +:+ t) = (String.length s + String.length t)%nat.
Proof. induction s as [|c s IH]; [done|]. rewrite str_app_cons. simpl. by rewrite IH. Qed.

Lemma endswith_spec s suf : PyStr.endswith s suf = true <-> exists t, s = t +:+ suf.
Proof.
  induction s as [|c s IH]; cbn [PyStr.endswith].
  - rewrite orb_false_r, String.eqb_eq. split.
    + intros <-. by exists EmptyString.
    + intros [[|] Ht]; [done|]. rewrite str_app_cons in Ht. discriminate.
  - rewrite orb_true_iff, String.eqb_eq, IH. split.
    + intros [<- | [t ->]]; [by exists EmptyString | by exists (String c t)].
    + intros [[|d t] Ht]; [by left|]. rewrite str_app_cons in Ht. injection Ht as -> ->. right. by exists t.
Qed.

Lemma terminator_once pre a q :
  no_cr pre -> pre +:+ PyStr.CRLFCRLF = a +:+ PyStr.CRLFCRLF +:+ q -> q = EmptyString.
Proof.
  revert a. induction pre as [|c pre IH]; intros a Hcr Heq.
  - apply (f_equal String.length) in Heq. rewrite !str_length_app in Heq.
    destruct q; [done|]. simpl in Heq. lia.
  - destruct Hcr as [Hc Hcr]. destruct a as [|d a].
    + rewrite str_app_cons in Heq. injection Heq as Hd _. done.
    + rewrite !str_app_cons in Heq. injection Heq as _ Heq. by eapply IH.
Qed.

Lemma split_crlf_line a b :
  no_cr a -> PyStr.split_crlf (a +:+ PyStr.CRLF +:+ b) = a :: PyStr.split_crlf b.
Proof.
  induction a as [|c a IH]; intros Hcr.
  - reflexivity.
  - destruct Hcr as [Hc Hcr]. rewrite str_app_cons.
    cbn [PyStr.split_crlf]. rewrite (IH Hcr).
    apply Ascii.eqb_neq in Hc. rewrite Hc. simpl.
    destruct a; reflexivity.
Qed.

Lemma string_of_uint_digits d : all_digits (NilEmpty.string_of_uint d).
Proof. induction d; simpl; (split; [by eexists | done]) || done. Qed.

Lemma digit_not_cr c : is_Some (PyStr.digit_val c) -> c <> PyStr.CR.
Proof. intros [d Hd] ->. discriminate. Qed.

Lemma digit_not_space c : is_Some (PyStr.digit_val c) -> PyStr.is_space c = false.
Proof.
  intros [d Hd]. unfold PyStr.digit_val, PyStr.is_space in *.
  destruct (_ && _)%bool eqn:E in Hd; [|done].
  apply andb_true_iff in E as [E1 E2].
  apply Nat.leb_le in E1. apply Nat.leb_le in E2.
  apply orb_false_iff. split; apply andb_false_iff; right; apply Nat.leb_gt; lia.
Qed.

Lemma all_digits_no_cr s : all_digits s -> no_cr s.
Proof. induction s as [|c s IH]; [done|]. intros [Hc Hs]. split; [by apply digit_not_cr | auto]. Qed.

Lemma lstrip_digits s : all_digits s -> PyStr.lstrip s = s.
Proof. destruct s as [|c s]; [done|]. intros [Hc _]. simpl. by rewrite digit_not_space. Qed.

Lemma rstrip_digits s : all_digits s -> PyStr.rstrip s = s.
Proof.
  induction s as [|c s IH]; [done|]. intros [Hc Hs]. simpl. rewrite (IH Hs).
  destruct s; [by rewrite digit_not_space | done].
Qed.

Lemma strip_digits s : all_digits s -> PyStr.strip s = s.
Proof. intros Hs. unfold PyStr.strip. by rewrite lstrip_digits, rstrip_digits. Qed.

Lemma parse_digits_uint d b acc :
  0 <= acc -> (d <> Decimal.Nil \/ b = true) ->
  PyStr.parse_digits b acc (NilEmpty.string_of_uint d)
  = Some (Z.of_nat (Nat.of_uint_acc d (Z.to_nat acc))).
Proof.
  revert b acc. induction d; intros b acc Hacc Hne;
    cbn [NilEmpty.string_of_uint PyStr.parse_digits Nat.of_uint_acc];
    [ destruct Hne as [ ? | -> ]; [done|]; f_equal; lia | .. ];
    (change (PyStr.digit_val _) with (Some 0) || change (PyStr.digit_val _) with (Some 1)
     || change (PyStr.digit_val _) with (Some 2) || change (PyStr.digit_val _) with (Some 3)
     || change (PyStr.digit_val _) with (Some 4) || change (PyStr.digit_val _) with (Some 5)
     || change (PyStr.digit_val _) with (Some 6) || change (PyStr.digit_val _) with (Some 7)
     || change (PyStr.digit_val _) with (Some 8) || change (PyStr.digit_val _) with (Some 9));
    cbv iota; rewrite IHd by (lia || auto); rewrite ?Nat.tail_mul_spec.
    all: do 3 f_equal; lia.
Qed.

Lemma to_uint_nonnil n : Nat.to_uint n <> Decimal.Nil.
Proof.
  intros E. pose proof (Unsigned.of_to n) as Hn. rewrite E in Hn. simpl in Hn. subst n.
  discriminate.
Qed.

Lemma str_of_nat_digits n : all_digits (PyStr.str_of_nat n).
Proof. apply string_of_uint_digits. Qed.

Lemma int_of_str_of_nat n : PyStr.int_of_str (PyStr.str_of_nat n) = Some (Z.of_nat n).
Proof.
  unfold PyStr.int_of_str. rewrite strip_digits by apply str_of_nat_digits.
  assert (PyStr.parse_digits false 0 (PyStr.str_of_nat n) = Some (Z.of_nat n)) as Hp.
  { unfold PyStr.str_of_nat. rewrite parse_digits_uint; [|lia|left; apply to_uint_nonnil].
    change (Z.to_nat 0) with O. fold (Nat.of_uint (Nat.to_uint n)). by rewrite Unsigned.of_to. }
  pose proof (str_of_nat_digits n) as Hd.
  destruct (PyStr.str_of_nat n) as [|c s] eqn:E; [done|].
  destruct Hd as [[d Hd] _].
  destruct (Ascii.eqb_spec c "-") as [->|?]; [discriminate|].
  destruct (Ascii.eqb_spec c "+") as [->|?]; [discriminate|].
  destruct c as [[] [] [] [] [] [] [] []]; try done.
Qed.

(** ** JSON texts read back *)

Lemma parse_string_escape_char c rest :
  PyJson.parse_string (escape_char c +:+ rest)
  = '(t, r) ← PyJson.parse_string rest; Some (String c t, r).
Proof.
  destruct c as [[] [] [] [] [] [] [] []]; reflexivity.
Qed.

Lemma parse_string_escape s rest :
  PyJson.parse_string (escape s +:+ String DQ rest) = Some (s, rest).
Proof.
  induction s as [|c s IH]; [reflexivity|].
  cbn [escape]. rewrite str_app_assoc, parse_string_escape_char, IH. reflexivity.
Qed.

Lemma parse_quote s rest fuel :
  PyJson.parse (S fuel) PyJson.MValue (quote s +:+ rest) = Some (JStr s, rest).
Proof.
  unfold quote. rewrite str_app_cons, str_app_assoc, str_app_cons, str_app_nil_l.
  cbn [PyJson.parse]. by rewrite parse_string_escape.
Qed.

Lemma dumps_list indent level x l :
  dumps_at indent level (JList (x :: l))
  = "[" +:+ newline indent (S level) +:+ dumps_at indent (S level) x +:+
    elems_text indent (S level) l +:+ newline indent level +:+ "]".
Proof. reflexivity. Qed.

Lemma dumps_dict indent level k x d :
  dumps_at indent level (JDict ((k, x) :: d))
  = "{" +:+ newline indent (S level) +:+ quote k +:+ ": " +:+ dumps_at indent (S level) x +:+
    members_text indent (S level) d +:+ newline indent level +:+ "}".
Proof. reflexivity. Qed.

Lemma distinct_list l : distinct_keys (JList l) = elems_distinct l.
Proof. reflexivity. Qed.

Lemma distinct_dict d :
  distinct_keys (JDict d) = bool_decide (NoDup d.*1) && members_distinct d.
Proof. reflexivity. Qed.

Lemma skip_ws_head c s : PyJson.is_ws c = false -> PyJson.skip_ws (String c s) = String c s.
Proof. intros H. simpl. by rewrite H. Qed.

Lemma skip_ws_spaces n s : PyJson.skip_ws (PyStr.spaces n +:+ s) = PyJson.skip_ws s.
Proof. induction n as [|n IH]; [done|]. cbn [PyStr.spaces]. by rewrite str_app_cons. Qed.

Lemma skip_ws_newline indent level s :
  PyJson.skip_ws (newline indent level +:+ s) = PyJson.skip_ws s.
Proof.
  destruct indent as [k|]; unfold newline; [|by rewrite str_app_nil_l].
  rewrite str_app_cons. cbn [PyJson.skip_ws].
  change (PyJson.is_ws PyStr.LF) with true. cbv iota. apply skip_ws_spaces.
Qed.

Lemma item_separator_cons indent level s :
  exists t, item_separator indent level +:+ s = String "," t /\
            PyJson.skip_ws t = PyJson.skip_ws s /\
            (String.length s <= String.length t)%nat.
Proof.
  destruct indent as [k|]; unfold item_separator.
  - exists (newline (Some k) level +:+ s). rewrite str_app_assoc. split; [done|].
    split; [apply skip_ws_newline|]. rewrite str_length_app. lia.
  - exists (String " " s). split; [done|]. split; [done|]. simpl. lia.
Qed.

Lemma nzhead_head d : match Decimal.nzhead d with Decimal.D0 _ => False | _ => True end.
Proof. induction d; simpl; auto. Qed.

Lemma pos_to_uint_normal p : Decimal.unorm (Pos.to_uint p) = Pos.to_uint p.
Proof.
  pose proof (DecimalPos.Unsigned.to_of (Pos.to_uint p)) as H.
  rewrite DecimalPos.Unsigned.of_to in H. symmetry. exact H.
Qed.

(** The decimal digits of a positive number: a first digit that is not
    zero, then the digits that complete it. *)
Lemma pos_to_uint_digits p :
  exists c a l,
    NilEmpty.string_of_uint (Pos.to_uint p) = String c (NilEmpty.string_of_uint l) /\
    PyStr.digit_val c = Some (Z.pos a) /\
    Pos.of_uint_acc l a = p.
Proof.
  pose proof (DecimalPos.Unsigned.of_to p) as Hof.
  pose proof (pos_to_uint_normal p) as Hnorm.
  pose proof (DecimalPos.Unsigned.to_uint_nonzero p) as Hnz.
  destruct (Pos.to_uint p) as [|l|l|l|l|l|l|l|l|l|l] eqn:E.
  - discriminate.
  - exfalso. unfold Decimal.unorm in Hnorm. simpl in Hnorm.
    pose proof (nzhead_head l) as Hh.
    destruct (Decimal.nzhead l); done.
  - exists "1"%char, 1%positive, l. simpl in Hof. by injection Hof as ->.
  - exists "2"%char, 2%positive, l. simpl in Hof. by injection Hof as ->.
  - exists "3"%char, 3%positive, l. simpl in Hof. by injection Hof as ->.
  - exists "4"%char, 4%positive, l. simpl in Hof. by injection Hof as ->.
  - exists "5"%char, 5%positive, l. simpl in Hof. by injection Hof as ->.
  - exists "6"%char, 6%positive, l. simpl in Hof. by injection Hof as ->.
  - exists "7"%char, 7%positive, l. simpl in Hof. by injection Hof as ->.
  - exists "8"%char, 8%positive, l. simpl in Hof. by injection Hof as ->.
  - exists "9"%char, 9%positive, l. simpl in Hof. by injection Hof as ->.
Qed.

Lemma follows_stops rest acc :
  follows rest = true ->
  PyJson.parse_nat_digits acc rest = (acc, rest) /\ PyJson.starts_fraction rest = false.
Proof.
  destruct rest as [|c rest]; [done|].
  destruct c as [[] [] [] [] [] [] [] []]; (discriminate || done).
Qed.

Lemma parse_nat_digits_uint l a rest :
  follows rest = true ->
  PyJson.parse_nat_digits (Z.pos a) (NilEmpty.string_of_uint l +:+ rest)
  = (Z.pos (Pos.of_uint_acc l a), rest).
Proof.
  intros Hrest. revert a.
  induction l; intros a; cbn [NilEmpty.string_of_uint Pos.of_uint_acc];
    [ rewrite str_app_nil_l; by apply follows_stops | .. ];
    rewrite str_app_cons; cbn [PyJson.parse_nat_digits];
    (change (PyStr.digit_val _) with (Some 0) || change (PyStr.digit_val _) with (Some 1)
     || change (PyStr.digit_val _) with (Some 2) || change (PyStr.digit_val _) with (Some 3)
     || change (PyStr.digit_val _) with (Some 4) || change (PyStr.digit_val _) with (Some 5)
     || change (PyStr.digit_val _) with (Some 6) || change (PyStr.digit_val _) with (Some 7)
     || change (PyStr.digit_val _) with (Some 8) || change (PyStr.digit_val _) with (Some 9));
    cbv iota; rewrite <- IHl; f_equal; lia.
Qed.

Lemma parse_unsigned_pos p rest :
  follows rest = true ->
  PyJson.parse_unsigned (NilEmpty.string_of_uint (Pos.to_uint p) +:+ rest)
  = Some (Z.pos p, rest).
Proof.
  intros Hrest. destruct (pos_to_uint_digits p) as (c & a & l & -> & Hc & <-).
  rewrite str_app_cons. cbn [PyJson.parse_unsigned]. rewrite Hc.
  rewrite parse_nat_digits_uint by done.
  by rewrite (proj2 (follows_stops rest 0 Hrest)).
Qed.

Lemma parse_int_str_of_Z n rest :
  follows rest = true ->
  PyJson.parse_int (PyStr.str_of_Z n +:+ rest) = Some (n, rest).
Proof.
  intros Hrest. unfold PyStr.str_of_Z. destruct n as [|p|p]; cbn [Z.to_int NilEmpty.string_of_int].
  - change (PyJson.parse_int (String "0" rest) = Some (0, rest)).
    cbn. by rewrite (proj2 (follows_stops rest 0 Hrest)).
  - pose proof (parse_unsigned_pos p rest Hrest) as Hp.
    destruct (pos_to_uint_digits p) as (c & a & l & E & Hc & _). rewrite E in *.
    rewrite str_app_cons in *. unfold PyJson.parse_int.
    destruct c as [[] [] [] [] [] [] [] []]; try discriminate; exact Hp.
  - rewrite str_app_cons. cbn [PyJson.parse_int].
    by rewrite parse_unsigned_pos.
Qed.

Lemma dumps_head indent level v :
  exists c s, dumps_at indent level v = String c s /\ opens_value c = true.
Proof.
  destruct v as [|[]|n|s|[|x l]|[|[k x] d]]; try (by eexists _, _).
  unfold dumps_at, PyStr.str_of_Z. destruct n as [|p|p]; try (by eexists _, _).
  cbn [Z.to_int NilEmpty.string_of_int].
  destruct (pos_to_uint_digits p) as (c & a & l & -> & Hc & _).
  eexists _, _. split; [done|].
  destruct c as [[] [] [] [] [] [] [] []]; try discriminate; done.
Qed.

Lemma parse_value_int fuel n rest :
  follows rest = true ->
  PyJson.parse (S fuel) PyJson.MValue (PyStr.str_of_Z n +:+ rest) = Some (JInt n, rest).
Proof.
  intros Hrest.
  assert (PyJson.parse (S fuel) PyJson.MValue (PyStr.str_of_Z n +:+ rest)
          = '(m, r) ← PyJson.parse_int (PyStr.str_of_Z n +:+ rest); Some (JInt m, r)) as ->.
  { unfold PyStr.str_of_Z. destruct n as [|p|p]; cbn [Z.to_int NilEmpty.string_of_int]; try done.
    destruct (pos_to_uint_digits p) as (c & a & l & -> & Hc & _).
    rewrite str_app_cons.
    destruct c as [[] [] [] [] [] [] [] []]; try discriminate; done. }
  by rewrite parse_int_str_of_Z.
Qed.

Lemma elems_text_cons indent level y l :
  elems_text indent level (y :: l)
  = item_separator indent level +:+ dumps_at indent level y +:+ elems_text indent level l.
Proof. reflexivity. Qed.

Lemma members_text_cons indent level k y d :
  members_text indent level ((k, y) :: d)
  = item_separator indent level +:+ quote k +:+ ": " +:+ dumps_at indent level y +:+
    members_text indent level d.
Proof. reflexivity. Qed.

Lemma member_text k s :
  quote k +:+ ": " +:+ s = String DQ (escape k +:+ String DQ (String ":" (String " " s))).
Proof.
  unfold quote. by rewrite str_app_cons, str_app_assoc, !str_app_cons, !str_app_nil_l.
Qed.

Lemma skip_ws_dumps indent level v s :
  PyJson.skip_ws (dumps_at indent level v +:+ s) = dumps_at indent level v +:+ s.
Proof.
  destruct (dumps_head indent level v) as (c & t & -> & Hc).
  rewrite str_app_cons. apply skip_ws_head.
  unfold opens_value in Hc. by destruct (PyJson.is_ws c).
Qed.

Lemma skip_ws_quote k s : PyJson.skip_ws (quote k +:+ s) = quote k +:+ s.
Proof. unfold quote. by rewrite str_app_cons. Qed.

Lemma dumps_length indent level v : (1 <= String.length (dumps_at indent level v))%nat.
Proof. destruct (dumps_head indent level v) as (c & t & -> & _). simpl. lia. Qed.

Lemma follows_close indent level c s :
  c = "]"%char \/ c = "}"%char -> follows (newline indent level +:+ String c s) = true.
Proof.
  intros Hc. destruct indent as [k|]; unfold newline.
  - by rewrite str_app_cons.
  - rewrite str_app_nil_l. by destruct Hc as [-> | ->].
Qed.

Lemma follows_separator indent level s : follows (item_separator indent level +:+ s) = true.
Proof. by destruct (item_separator_cons indent level s) as (t & -> & _). Qed.

Lemma dict_set_fresh k v (acc : dict) : k ∉ acc.*1 -> dict_set k v acc = acc ++ [(k, v)].
Proof.
  induction acc as [|[k' v'] acc IH]; [done|]. intros Hk.
  apply not_elem_of_cons in Hk as [Hne Hk]. cbn [dict_set app].
  destruct (String.eqb_spec k k') as [->|_]; [done|]. by rewrite IH.
Qed.

Section ReadsBack.
Variable indent : option nat.

Lemma elems_step fuel :
  value_reads_back indent fuel -> elems_read_back indent fuel -> elems_read_back indent (S fuel).
Proof.
  intros IHv IHe x l acc level level' rest Hlen Hx Hl.
  cbn [PyJson.parse].
  rewrite IHv; [|lia|done|].
  - cbn [mbind option_bind]. destruct l as [|y l].
    + cbn [elems_text]. rewrite str_app_nil_l, skip_ws_newline. reflexivity.
    + rewrite elems_text_cons, !str_app_assoc.
      destruct (item_separator_cons indent level
                  (dumps_at indent level y +:+ elems_text indent level l +:+
                   newline indent level' +:+ String "]" rest)) as (t & E & Hskip & Ht).
      rewrite E, (skip_ws_head "," t) by done. cbv iota. rewrite Hskip, skip_ws_dumps.
      rewrite elems_text_cons, !str_length_app in Hlen.
      cbn [elems_distinct] in Hl. apply andb_true_iff in Hl as [Hy Hl].
      pose proof (f_equal String.length E) as HE.
      rewrite !str_length_app in HE. rewrite !str_length_app in Ht.
      cbn [String.length] in HE, Ht.
      rewrite IHe; [|lia|done|done].
      by rewrite <- app_assoc.
  - destruct l as [|y l].
    + cbn [elems_text]. rewrite str_app_nil_l. apply follows_close. by left.
    + rewrite elems_text_cons, !str_app_assoc. apply follows_separator.
Qed.

Lemma members_step fuel :
  value_reads_back indent fuel -> members_read_back indent fuel -> members_read_back indent (S fuel).
Proof.
  intros IHv IHm k x d acc level level' rest Hlen Hx Hd Hkeys.
  rewrite member_text. cbn [PyJson.parse].
  rewrite parse_string_escape. cbn [mbind option_bind].
  rewrite (skip_ws_head ":") by done. cbv iota.
  change (PyJson.skip_ws (String " " ?s)) with (PyJson.skip_ws s).
  rewrite skip_ws_dumps.
  assert (k ∉ acc.*1) as Hk.
  { apply NoDup_app in Hkeys as (_ & Hkeys & _). intros Hin.
    apply (Hkeys k Hin). left. }
  rewrite IHv; [|lia|done|].
  - cbn [mbind option_bind]. rewrite (dict_set_fresh k x acc Hk). destruct d as [|[k' y] d].
    + cbn [members_text]. rewrite str_app_nil_l, skip_ws_newline. reflexivity.
    + rewrite members_text_cons, !str_app_assoc.
      destruct (item_separator_cons indent level
                  (quote k' +:+ ": " +:+ dumps_at indent level y +:+
                   members_text indent level d +:+
                   newline indent level' +:+ String "}" rest)) as (t & E & Hskip & Ht).
      rewrite E, (skip_ws_head "," t) by done. cbv iota. rewrite Hskip.
      rewrite skip_ws_quote.
      rewrite members_text_cons, !str_length_app in Hlen.
      cbn [members_distinct] in Hd. apply andb_true_iff in Hd as [Hy Hd].
      pose proof (f_equal String.length E) as HE.
      rewrite !str_length_app in HE. rewrite !str_length_app in Ht.
      cbn [String.length] in HE, Ht.
      rewrite IHm; [|lia|done|done|].
      * by rewrite <- app_assoc.
      * rewrite fmap_app, <- app_assoc. exact Hkeys.
  - destruct d as [|[k' y] d].
    + cbn [members_text]. rewrite str_app_nil_l. apply follows_close. by right.
    + rewrite members_text_cons, !str_app_assoc. apply follows_separator.
Qed.

Lemma value_step fuel :
  value_reads_back indent fuel -> elems_read_back indent fuel -> members_read_back indent fuel ->
  value_reads_back indent (S fuel).
Proof.
  intros IHv IHe IHm v level rest Hlen Hv Hrest.
  destruct v as [|[]|n|s|[|x l]|[|[k x] d]].
  - reflexivity.
  - reflexivity.
  - reflexivity.
  - by apply parse_value_int.
  - apply parse_quote.
  - reflexivity.
  - rewrite distinct_list in Hv. cbn [elems_distinct] in Hv.
    apply andb_true_iff in Hv as [Hx Hl].
    rewrite dumps_list, !str_length_app in Hlen. cbn [String.length] in Hlen.
    pose proof (IHe x l [] (S level) level rest) as H. cbn [app] in H.
    rewrite dumps_list, !str_app_assoc.
    change ("]" +:+ rest) with (String "]" rest).
    change ("[" +:+ ?s) with (String "[" s).
    cbn [PyJson.parse]. rewrite skip_ws_newline, skip_ws_dumps.
    rewrite <- H by (lia || done).
    destruct (dumps_head indent (S level) x) as (c & t & -> & Hc).
    rewrite str_app_cons.
    destruct c as [[] [] [] [] [] [] [] []]; try discriminate Hc; reflexivity.
  - reflexivity.
  - rewrite distinct_dict in Hv. cbn [members_distinct] in Hv.
    apply andb_true_iff in Hv as [Hkeys Hv]. apply bool_decide_eq_true in Hkeys.
    apply andb_true_iff in Hv as [Hx Hd].
    rewrite dumps_dict, !str_length_app in Hlen. cbn [String.length] in Hlen.
    pose proof (IHm k x d [] (S level) level rest) as H. cbn [app fmap list_fmap] in H.
    rewrite dumps_dict, !str_app_assoc.
    change ("}" +:+ rest) with (String "}" rest).
    change ("{" +:+ ?s) with (String "{" s).
    cbn [PyJson.parse]. rewrite skip_ws_newline, skip_ws_quote.
    rewrite <- H by (lia || done).
    rewrite member_text. reflexivity.
Qed.

Lemma reads_back fuel :
  value_reads_back indent fuel /\ elems_read_back indent fuel /\ members_read_back indent fuel.
Proof.
  induction fuel as [|fuel (IHv & IHe & IHm)].
  - split; [|split].
    + intros v level rest Hlen. pose proof (dumps_length indent level v). lia.
    + intros x l acc level level' rest Hlen. lia.
    + intros k x d acc level level' rest Hlen. lia.
  - split; [|split].
    + by apply value_step.
    + by apply elems_step.
    + by apply members_step.
Qed.

End ReadsBack.

(** [json.loads(json.dumps(v))] and [json.loads(json.dumps(v, indent=k))]
    give [v] back. *)
Theorem loads_dumps indent v :
  distinct_keys v = true -> PyJson.loads (json_dumps indent v) = inr v.
Proof.
  intros Hv. unfold PyJson.loads, json_dumps.
  pose proof (skip_ws_dumps indent 0 v EmptyString) as Hs. rewrite str_app_nil_r in Hs.
  rewrite Hs.
  pose proof (proj1 (reads_back indent (2 * String.length (dumps_at indent 0 v) + 2)) v 0%nat
                EmptyString) as Hp.
  rewrite str_app_nil_r in Hp. specialize (Hp ltac:(lia) Hv eq_refl).
  destruct (dumps_head indent 0 v) as (c & t & E & _). rewrite E in *.
  cbv iota. by rewrite Hp.
Qed.

(** ** Reading from the socket *)

Lemma bind_unfold {S A B} (m : M S A) (k : A -> M S B) s :
  (m ≫= k) s = match m s with
               | Ret a s' => k a s'
               | Raise e s' => Raise e s'
               | Hang => Hang
               | NoFuel => NoFuel
               end.
Proof. reflexivity. Qed.

Lemma set_clock_same w : set_clock (clock w) w = w.
Proof. by destruct w. Qed.

Lemma take_avail_0 now ib : take_avail now 0 ib = (EmptyString, ib).
Proof. by destruct ib as [|[t s] r]. Qed.

Lemma recv_one w self k t c s r :
  sock self = Some k -> inbox k = (t, String c s) :: r -> t <= clock w ->
  sock_recv 1 (w, self) = Ret (String c EmptyString) (w, with_inbox (chunk_cons t s r) k self).
Proof.
  intros Hk Hib Ht. unfold sock_recv. rewrite Hk, Hib. cbn [norm].
  change (1 <? 0) with false. change (1 =? 0) with false. cbv iota.
  rewrite Z.max_l by lia. rewrite set_clock_same.
  change (Z.to_nat 1) with 1%nat. cbn [take_avail].
  change (1 =? 0)%nat with false. rewrite orb_false_l.
  assert ((t <=? clock w) = true) as -> by lia. cbn [negb].
  destruct s as [|c' s]; cbn [String.length Nat.leb Nat.sub].
  - by rewrite take_avail_0.
  - reflexivity.
Qed.

Lemma read_header_spec (h line : string) : forall fuel w self k t tail r,
  h <> EmptyString ->
  sock self = Some k -> inbox k = (t, h +:+ tail) :: r -> t <= clock w ->
  (forall p q, h = (p +:+ q) -> q <> EmptyString ->
               PyStr.endswith (line +:+ p) PyStr.CRLFCRLF = false) ->
  PyStr.endswith (line +:+ h) PyStr.CRLFCRLF = true ->
  (String.length h <= fuel)%nat ->
  read_header fuel line (w, self)
  = Ret (line +:+ h) (w, with_inbox (chunk_cons t tail r) k self).
Proof.
  revert line. induction h as [|c h IH]; intros line fuel w self k t tail r Hne Hk Hib Ht Hpre Hend Hfuel;
    [done|].
  destruct fuel as [|fuel]; [simpl in Hfuel; lia|].
  cbn [read_header].
  pose proof (Hpre EmptyString (String c h) eq_refl ltac:(done)) as H0.
  rewrite str_app_nil_r in H0. rewrite H0.
  rewrite bind_unfold.
  rewrite str_app_cons in Hib.
  rewrite (recv_one _ _ _ _ _ _ _ Hk Hib Ht).
  destruct h as [|c' h].
  - (* the last byte of the header *)
    destruct fuel; cbn [read_header]; rewrite Hend; reflexivity.
  - set (k' := set_inbox (chunk_cons t (String c' h +:+ tail) r) k).
    set (self' := with_inbox (chunk_cons t (String c' h +:+ tail) r) k self).
    assert (Hpre' : forall p q, String c' h = (p +:+ q) -> q <> EmptyString ->
              PyStr.endswith ((line +:+ String c EmptyString) +:+ p) PyStr.CRLFCRLF = false).
    { intros p q Hp Hq. rewrite str_app_assoc.
      apply (Hpre (String c p) q); [|done]. by rewrite str_app_cons, Hp. }
    assert (Hend' : PyStr.endswith ((line +:+ String c EmptyString) +:+ String c' h)
                      PyStr.CRLFCRLF = true) by (by rewrite str_app_assoc).
    assert (Hfuel' : (String.length (String c' h) <= fuel)%nat) by (simpl in Hfuel |- *; lia).
    rewrite (IH (line +:+ String c EmptyString) fuel w self' k' t tail r
               ltac:(done) eq_refl eq_refl Ht Hpre' Hend' Hfuel').
    by rewrite str_app_assoc.
Qed.

Lemma with_inbox_same self k : sock self = Some k -> with_inbox (inbox k) k self = self.
Proof. destruct self, k. simpl. by intros ->. Qed.

Lemma recv_body w self k t body r :
  sock self = Some k -> inbox k = chunk_cons t body r -> t <= clock w ->
  sock_recv (Z.of_nat (String.length body)) (w, self)
  = Ret body (w, with_inbox r k self).
Proof.
  intros Hk Hib Ht. unfold sock_recv. rewrite Hk.
  assert ((Z.of_nat (String.length body) <? 0) = false) as -> by (apply Z.ltb_ge; lia).
  destruct body as [|c body].
  - simpl in *. rewrite <- Hib. by rewrite with_inbox_same.
  - assert ((Z.of_nat (String.length (String c body)) =? 0) = false) as ->
      by (apply Z.eqb_neq; simpl; lia).
    rewrite Hib. cbn [chunk_cons norm].
    rewrite Z.max_l by lia. rewrite set_clock_same, Nat2Z.id.
    cbn [take_avail]. assert ((t <=? clock w) = true) as -> by lia.
    cbn [String.length Nat.eqb orb negb]. rewrite Nat.leb_refl, Nat.sub_diag, take_avail_0.
    by rewrite str_app_nil_r.
Qed.

(** ** Decoding one frame *)

Section Frames.
Context {P : Platform}.

Lemma frame_header body : frame body = header (String.length body) +:+ body.
Proof. unfold frame, header. by rewrite !str_app_assoc. Qed.

Lemma header_no_cr n : no_cr ("Content-Length: " +:+ PyStr.str_of_nat n).
Proof.
  repeat (rewrite str_app_cons; split; [discriminate|]). rewrite str_app_nil_l.
  apply all_digits_no_cr, str_of_nat_digits.
Qed.

Lemma header_assoc n :
  header n = ("Content-Length: " +:+ PyStr.str_of_nat n) +:+ PyStr.CRLFCRLF.
Proof. unfold header. by rewrite !str_app_assoc. Qed.

Lemma parse_headers_header n :
  parse_headers (header n) !! "Content-Length"%string = Some (PyStr.str_of_nat n).
Proof.
  unfold parse_headers.
  replace (header n) with (("Content-Length: " +:+ PyStr.str_of_nat n) +:+ PyStr.CRLF +:+ PyStr.CRLF).
  2:{ unfold header. by rewrite !str_app_assoc. }
  rewrite split_crlf_line by apply header_no_cr.
  change (PyStr.split_crlf PyStr.CRLF) with [EmptyString; EmptyString].
  cbn [foldl].
  change (PyStr.contains ":" ("Content-Length: " +:+ PyStr.str_of_nat n)) with true.
  change (PyStr.split_once ":" ("Content-Length: " +:+ PyStr.str_of_nat n))
    with ("Content-Length"%string, String " " (PyStr.str_of_nat n)).
  change (PyStr.contains ":" EmptyString) with false. cbv iota.
  change (PyStr.strip "Content-Length") with "Content-Length"%string.
  assert (PyStr.strip (String " " (PyStr.str_of_nat n)) = PyStr.str_of_nat n) as ->.
  { unfold PyStr.strip. cbn [PyStr.lstrip]. change (PyStr.is_space " ") with true. cbv iota.
    apply strip_digits, str_of_nat_digits. }
  apply lookup_insert_eq.
Qed.

Lemma recv_message_frame w self k t body r :
  sock self = Some k -> inbox k = (t, frame body) :: r -> t <= clock w ->
  recv_message (w, self)
  = match json_loads body with
    | inl e => Raise e (w, with_inbox r k self)
    | inr message => Ret message (w, with_inbox r k self)
    end.
Proof.
  intros Hk Hib Ht. unfold recv_message.
  rewrite bind_unfold. cbn [get fst snd].
  rewrite Hk. cbn [from_option]. rewrite Hib, frame_header in *.
  rewrite bind_unfold.
  rewrite (read_header_spec (header (String.length body)) EmptyString _ w self k t body r);
    [ | done | done | done | done | | | ].
  - rewrite str_app_nil_l, bind_unfold. unfold content_length.
    rewrite parse_headers_header, int_of_str_of_nat. cbn [mret M_ret].
    rewrite bind_unfold.
    rewrite (recv_body w _ (set_inbox (chunk_cons t body r) k) t body r); [|done..].
    replace (with_inbox r (set_inbox (chunk_cons t body r) k)
               (with_inbox (chunk_cons t body r) k self)) with (with_inbox r k self)
      by (by destruct self, k).
    by destruct (json_loads body).
  - intros p q Hp Hq. rewrite str_app_nil_l.
    destruct (PyStr.endswith p PyStr.CRLFCRLF) eqn:E; [|done].
    apply endswith_spec in E as [a ->].
    rewrite header_assoc in Hp. rewrite (str_app_assoc a) in Hp.
    apply terminator_once in Hp; [done | apply header_no_cr].
  - rewrite str_app_nil_l. apply endswith_spec. eexists. apply header_assoc.
  - cbn [bytes_in]. rewrite str_length_app. lia.
Qed.

End Frames.

(** ** Steps that only read *)

Lemma always_bind {S A B} (R : S -> S -> Prop) (m : M S A) (k : A -> M S B) :
  Transitive R -> always R m -> (forall a, always R (k a)) -> always R (m ≫= k).
Proof.
  intros HT Hm Hk s. rewrite bind_unfold. specialize (Hm s).
  destruct (m s) as [a s'|e s'| |]; try done.
  specialize (Hk a s'). destruct (k a s') as [b s''|e s''| |]; try done; by etrans.
Qed.

Lemma always_ret {S A} (R : S -> S -> Prop) (a : A) : Reflexive R -> always R (mret a).
Proof. intros HR s. apply HR. Qed.

Lemma always_weaken {S A} (R R' : S -> S -> Prop) (m : M S A) :
  (forall s s', R s s' -> R' s s') -> always R m -> always R' m.
Proof. intros HRR Hm s. specialize (Hm s). destruct (m s); auto. Qed.

Lemma with_inbox_twice ib ib' k self :
  with_inbox ib' (set_inbox ib k) (with_inbox ib k self) = with_inbox ib' k self.
Proof. by destruct self, k. Qed.

Lemma set_clock_twice c c' w : set_clock c' (set_clock c w) = set_clock c' w.
Proof. by destruct w. Qed.

#[global] Instance reads_only_refl : Reflexive reads_only.
Proof.
  intros [w self]. exists (clock w). cbn. split; [lia|]. split; [by rewrite set_clock_same|].
  destruct (sock self) as [k|] eqn:Hk; [|done].
  exists (inbox k). by rewrite with_inbox_same.
Qed.

#[global] Instance reads_only_trans : Transitive reads_only.
Proof.
  intros [w self] [w1 self1] [w2 self2] (c & Hc & Hw & Hs) (c' & Hc' & Hw' & Hs').
  cbn in *. subst w1. exists c'. cbn. split; [cbn in Hc'; lia|].
  split; [by rewrite Hw', set_clock_twice|].
  destruct (sock self) as [k|] eqn:Hk.
  - destruct Hs as (ib & -> & Hb). cbn in Hs'. destruct Hs' as (ib' & -> & Hb').
    exists ib'. rewrite with_inbox_twice. split; [done|]. destruct k; cbn in *; lia.
  - subst self1. rewrite Hk in Hs'. by subst.
Qed.

Lemma bytes_in_norm ib : bytes_in (norm ib) = bytes_in ib.
Proof. induction ib as [|[t [|c s]] r IH]; cbn; auto. Qed.

Lemma take_avail_bytes now n ib d ib' :
  take_avail now n ib = (d, ib') ->
  bytes_in ib = (String.length d + bytes_in ib')%nat.
Proof.
  revert n d ib'. induction ib as [|[t s] r IH]; intros n d ib' E; cbn in E.
  - by injection E as <- <-.
  - destruct (_ || _)%bool; [by injection E as <- <-|].
    destruct (_ <=? _)%nat eqn:Hle.
    + destruct (take_avail now (n - String.length s) r) as [d0 ib0] eqn:E0.
      injection E as <- <-. apply IH in E0. cbn. rewrite str_length_app. lia.
    + injection E as <- <-. cbn. apply Nat.leb_gt in Hle.
      clear IH. revert n Hle. induction s as [|c s IHs]; intros [|n] Hle; cbn in *; try lia.
      specialize (IHs n ltac:(lia)). lia.
Qed.

Lemma select_reads ms : 0 <= ms -> always reads_only (select_select ms).
Proof.
  intros Hms [w self]. unfold select_select.
  destruct (sock self) as [k|] eqn:Hk; [|reflexivity].
  assert (forall c, clock w <= c -> reads_only (w, self) (set_clock c w, self)) as Hclk.
  { intros c Hc. exists c. cbn. rewrite Hk. repeat split; [done|].
    exists (inbox k). by rewrite with_inbox_same. }
  destruct (norm (inbox k)) as [|[t s] r].
  - destruct (eof k); [reflexivity|]. apply Hclk. lia.
  - destruct (t <=? clock w) eqn:E1; [reflexivity|].
    destruct (t <? clock w + ms) eqn:E2; apply Hclk; lia.
Qed.

Lemma recv_reads n : always reads_only (sock_recv n).
Proof.
  intros [w self]. unfold sock_recv.
  destruct (sock self) as [k|] eqn:Hk; [|reflexivity].
  destruct (n <? 0); [reflexivity|]. destruct (n =? 0); [reflexivity|].
  destruct (norm (inbox k)) as [|[t s] r] eqn:Hn.
  - destruct (eof k); [reflexivity|done].
  - destruct (take_avail _ _ _) as [d ib] eqn:E.
    exists (Z.max (clock w) t). cbn. rewrite Hk. split; [lia|]. split; [done|].
    exists ib. split; [done|]. apply take_avail_bytes in E.
    rewrite <- (bytes_in_norm (inbox k)), Hn, E. lia.
Qed.

(** A non-empty read shortens the unread input. *)
Lemma recv_progress n st b st' :
  sock_recv n st = Ret b st' -> b <> EmptyString -> (unread st' < unread st)%nat.
Proof.
  destruct st as [w self]. unfold sock_recv, unread. cbn [snd].
  destruct (sock self) as [k|] eqn:Hk; [|done].
  destruct (n <? 0); [done|]. destruct (n =? 0); [by intros [= <- <-]|].
  destruct (norm (inbox k)) as [|[t s] r] eqn:Hn.
  - destruct (eof k); [by intros [= <- <-]|done].
  - destruct (take_avail _ _ _) as [d ib] eqn:E. intros [= <- <-] Hb. cbn.
    apply take_avail_bytes in E. rewrite <- (bytes_in_norm (inbox k)), Hn, E.
    destruct d; [done|]. cbn. lia.
Qed.

Lemma reads_only_unread st st' : reads_only st st' -> (unread st' <= unread st)%nat.
Proof.
  destruct st as [w self], st' as [w' self']. intros (c & _ & _ & Hs). unfold unread. cbn in *.
  destruct (sock self) as [k|] eqn:Hk; [|subst; by rewrite Hk].
  destruct Hs as (ib & -> & Hb). destruct self, k; cbn in *; lia.
Qed.

Lemma reads_only_clock st st' : reads_only st st' -> clock st.1 <= clock st'.1.
Proof. intros (c & Hc & -> & _). by destruct st as [[] ?]. Qed.

Section Loops.
Context {P : Platform}.

Lemma read_header_reads fuel : forall line st,
  (unread st < fuel)%nat ->
  match read_header fuel line st with
  | Ret _ st' => reads_only st st' /\
                 (PyStr.endswith line PyStr.CRLFCRLF = false -> (unread st' < unread st)%nat)
  | Raise _ st' => reads_only st st'
  | Hang => True
  | NoFuel => False
  end.
Proof.
  induction fuel as [|fuel IH]; intros line st Hfuel; [lia|].
  cbn [read_header]. destruct (PyStr.endswith line PyStr.CRLFCRLF) eqn:E.
  { split; [reflexivity | done]. }
  rewrite bind_unfold. pose proof (recv_reads 1 st) as Hr.
  destruct (sock_recv 1 st) as [b st1|e st1| |] eqn:E1; try done.
  destruct b as [|c b]; [done|].
  assert (unread st1 < unread st)%nat as Hlt by (by eapply recv_progress).
  specialize (IH (line +:+ String c b) st1 ltac:(lia)).
  destruct (read_header fuel _ st1) as [l st2|e st2| |]; try done.
  - destruct IH as [IH _]. split; [by etrans|].
    intros _. apply reads_only_unread in IH. lia.
  - by etrans.
Qed.

Lemma content_length_same headers st :
  match content_length headers st with
  | Ret _ st' => st' = st
  | Raise _ st' => st' = st
  | _ => False
  end.
Proof.
  unfold content_length. destruct (headers !! _) as [v|]; [|done].
  by destruct (PyStr.int_of_str v).
Qed.

Lemma recv_message_reads st :
  match recv_message st with
  | Ret _ st' => reads_only st st' /\ (unread st' < unread st)%nat
  | Raise _ st' => reads_only st st'
  | Hang => True
  | NoFuel => False
  end.
Proof.
  unfold recv_message. rewrite bind_unfold. cbn [get]. rewrite bind_unfold.
  pose proof (read_header_reads (S (unread st)) EmptyString st ltac:(lia)) as Hh.
  fold (unread st).
  destruct (read_header _ _ st) as [line st1|e st1| |]; try done.
  destruct Hh as [Hro Hlt]. specialize (Hlt eq_refl).
  rewrite bind_unfold. pose proof (content_length_same (parse_headers line) st1) as Hc.
  destruct (content_length _ st1) as [n st1'|e st1'| |]; try done; subst st1'; [|done].
  rewrite bind_unfold. pose proof (recv_reads n st1) as Hr.
  destruct (sock_recv n st1) as [body st2|e st2| |]; try done; [|by etrans].
  assert (reads_only st st2) as H2 by (by etrans).
  apply reads_only_unread in Hr.
  destruct (json_loads body); cbn; [done|]. split; [done|lia].
Qed.

Lemma select_not_ready ms st st' :
  select_select ms st = Ret false st' -> st' = (set_clock (clock st.1 + ms) st.1, st.2).
Proof.
  destruct st as [w self]. unfold select_select.
  destruct (sock self) as [k|]; [|done].
  destruct (norm (inbox k)) as [|[t s] r].
  - destruct (eof k); [done|]. by intros [= <-].
  - destruct (t <=? clock w); [done|]. destruct (t <? clock w + ms); [done|]. by intros [= <-].
Qed.

Lemma ticks_mono d st st' : clock st.1 <= clock st'.1 -> (ticks d st' <= ticks d st)%nat.
Proof. unfold ticks. intros H. Z.div_mod_to_equations. lia. Qed.

Lemma message_get_same {S} message key dflt (st : S) :
  match message_get message key dflt st with
  | Ret _ st' => st' = st
  | Raise _ st' => st' = st
  | _ => False
  end.
Proof. by destruct message. Qed.

Lemma wait_loop_reads fuel : forall target start timeout st,
  (unread st + ticks (start + timeout) st <= fuel)%nat ->
  match wait_loop fuel target start timeout st with
  | Ret _ st' => reads_only st st'
  | Raise _ st' => reads_only st st'
  | Hang => True
  | NoFuel => False
  end.
Proof.
  induction fuel as [|fuel IH]; intros target start timeout st Hfuel.
  - cbn [wait_loop]. unfold mbind at 1, M_bind at 1. cbn [time_time].
    destruct (_ <? _) eqn:E; [|exact (reads_only_refl st)].
    unfold ticks in Hfuel. apply Z.ltb_lt in E. revert Hfuel. Z.div_mod_to_equations. lia.
  - cbn [wait_loop]. unfold mbind at 1, M_bind at 1. cbn [time_time].
    destruct (_ <? _) eqn:E; [|exact (reads_only_refl st)]. apply Z.ltb_lt in E.
    rewrite bind_unfold. pose proof (select_reads 100 ltac:(lia) st) as Hs.
    destruct (select_select 100 st) as [ready st1|e st1| |] eqn:Es; try done.
    destruct ready; cbn [negb].
    + rewrite bind_unfold. pose proof (recv_message_reads st1) as Hm.
      destruct (recv_message st1) as [message st2|e st2| |]; try done; [|by etrans].
      destruct Hm as [Hm Hlt]. assert (reads_only st st2) as H2 by (by etrans).
      rewrite bind_unfold. pose proof (message_get_same message "id" JNull st2) as Hg.
      destruct (message_get _ _ _ st2) as [i st2'|e st2'| |]; try done; subst st2'; [|done].
      destruct (eq_int i target); [done|].
      pose proof (reads_only_unread _ _ Hs). pose proof (reads_only_clock _ _ H2).
      pose proof (ticks_mono (start + timeout) _ _ H0).
      specialize (IH target start timeout st2 ltac:(lia)).
      destruct (wait_loop fuel _ _ _ st2); try done; by etrans.
    + apply select_not_ready in Es as Hst1.
      assert (unread st1 = unread st) as Hu by (by subst st1).
      assert (ticks (start + timeout) st1 < ticks (start + timeout) st)%nat as Ht.
      { subst st1. unfold ticks. destruct st as [[] ?]. cbn in *.
        Z.div_mod_to_equations. lia. }
      specialize (IH target start timeout st1 ltac:(lia)).
      destruct (wait_loop fuel _ _ _ st1); try done; by etrans.
Qed.

Lemma wait_for_reads target timeout : always reads_only (_wait_for target timeout).
Proof.
  intros st. unfold _wait_for. rewrite bind_unfold. cbn [time_time]. rewrite bind_unfold. cbn [get].
  apply wait_loop_reads. unfold wait_fuel, ticks. fold (unread st).
  apply Nat.add_le_mono_l. Z.div_mod_to_equations. lia.
Qed.

End Loops.

(** ** The waiting loop on well-formed traffic *)

Section Correlation.
Context {P : Platform}.

Lemma frame_cons body : exists s, frame body = String "C" s.
Proof. unfold frame. rewrite str_app_cons. by eexists. Qed.

Lemma select_frames w self k d ds :
  sock self = Some k -> inbox k = frames_of (d :: ds) ->
  select_select 100 (w, self)
  = if arrival d <? clock w + 100
    then Ret true (set_clock (Z.max (clock w) (arrival d)) w, self)
    else Ret false (set_clock (clock w + 100) w, self).
Proof.
  intros Hk Hib. unfold select_select. rewrite Hk, Hib. cbn [frames_of map].
  destruct (frame_cons (text d)) as [s ->]. cbn [norm].
  destruct (arrival d <=? clock w) eqn:E1.
  - assert ((arrival d <? clock w + 100) = true) as -> by lia.
    rewrite Z.max_l by lia. by rewrite set_clock_same.
  - destruct (arrival d <? clock w + 100) eqn:E2; [|done].
    rewrite Z.max_r by lia. done.
Qed.

Lemma select_idle w self k :
  sock self = Some k -> inbox k = [] -> eof k = false ->
  select_select 100 (w, self) = Ret false (set_clock (clock w + 100) w, self).
Proof. intros Hk Hib He. unfold select_select. by rewrite Hk, Hib, He. Qed.

(** What one pass of the loop does with the frame at the head of the
    input once [select] has reported it. *)
Lemma recv_delivery w self k d ds :
  sock self = Some k -> inbox k = frames_of (d :: ds) -> well_formed d ->
  arrival d <= clock w ->
  recv_message (w, self) = Ret (JDict (content d)) (w, with_inbox (frames_of ds) k self).
Proof.
  intros Hk Hib Hwf Ht.
  rewrite (recv_message_frame w self k (arrival d) (text d) (frames_of ds)); [|done..].
  by rewrite Hwf.
Qed.

Lemma wait_loop_expired fuel target start timeout st :
  (clock st.1 - start <? timeout) = false ->
  wait_loop fuel target start timeout st = Ret JNull st.
Proof.
  intros E. destruct fuel; cbn [wait_loop]; unfold mbind, M_bind; cbn [time_time]; by rewrite E.
Qed.

Lemma wait_loop_poll fuel target start timeout st :
  (clock st.1 - start <? timeout) = true ->
  wait_loop (S fuel) target start timeout st
  = match select_select 100 st with
    | Ret false st1 => wait_loop fuel target start timeout st1
    | Ret true st1 =>
        match recv_message st1 with
        | Ret message st2 =>
            match message_get message "id" JNull st2 with
            | Ret i st3 =>
                if eq_int i target then Ret message st3
                else wait_loop fuel target start timeout st3
            | Raise e st3 => Raise e st3
            | Hang => Hang
            | NoFuel => NoFuel
            end
        | Raise e st2 => Raise e st2
        | Hang => Hang
        | NoFuel => NoFuel
        end
    | Raise e st1 => Raise e st1
    | Hang => Hang
    | NoFuel => NoFuel
    end.
Proof.
  intros E. cbn [wait_loop]. unfold mbind at 1, M_bind at 1. cbn [time_time]. rewrite E.
  rewrite bind_unfold. destruct (select_select 100 st) as [[|] st1|e st1| |]; try done.
  cbn [negb]. rewrite bind_unfold. destruct (recv_message st1) as [m st2|e st2| |]; try done.
  rewrite bind_unfold. destruct (message_get m "id" JNull st2) as [i st3|e st3| |]; try done.
  by destruct (eq_int i target).
Qed.

Lemma wait_loop_frames fuel : forall ds w self k target start timeout,
  sock self = Some k -> eof k = false -> inbox k = frames_of ds ->
  Forall well_formed ds ->
  (length ds + ticks (start + timeout) (w, self) <= fuel)%nat ->
  exists skipped rest w',
    ds = skipped ++ rest /\
    Forall (fun d => answers target (content d) = false) skipped /\
    clock w <= clock w' /\
    ((wait_loop fuel target start timeout (w, self)
      = Ret JNull (w', with_inbox (frames_of rest) k self) /\ start + timeout <= clock w')
     \/ exists d rest', rest = d :: rest' /\ answers target (content d) = true /\
          arrival d < start + timeout + 100 /\
          wait_loop fuel target start timeout (w, self)
          = Ret (JDict (content d)) (w', with_inbox (frames_of rest') k self)).
Proof.
  induction fuel as [|fuel IH]; intros ds w self k target start timeout Hk He Hib Hwf Hfuel.
  all: destruct (clock w - start <? timeout) eqn:E.
  all: try (exists [], ds, w; split; [done|]; split; [done|]; split; [lia|]; left;
            rewrite wait_loop_expired by done;
            split; [by rewrite <- Hib, with_inbox_same | lia]).
  - unfold ticks in Hfuel. cbn in Hfuel. revert Hfuel. Z.div_mod_to_equations. lia.
  - rewrite wait_loop_poll by done. destruct ds as [|d ds].
    + (* nothing to read: one more polling interval *)
      rewrite (select_idle w self k Hk Hib He).
      destruct (IH [] (set_clock (clock w + 100) w) self k target start timeout Hk He Hib Hwf)
        as (skipped & rest & w' & Hds & Hsk & Hc & Hres).
      { unfold ticks in *. cbn in *. revert Hfuel. Z.div_mod_to_equations. lia. }
      exists skipped, rest, w'. cbn in Hc. repeat split; [done|done|lia|exact Hres].
    + rewrite (select_frames w self k d ds Hk Hib).
      destruct (arrival d <? clock w + 100) eqn:Et.
      * (* the head frame is there: read it *)
        set (w1 := set_clock (Z.max (clock w) (arrival d)) w).
        apply Forall_cons in Hwf as [Hd Hwf].
        rewrite (recv_delivery w1 self k d ds Hk Hib Hd) by (cbn; lia).
        cbn [message_get mret M_ret].
        fold (answers target (content d)).
        destruct (answers target (content d)) eqn:Ea.
        { exists [], (d :: ds), w1. repeat split; [done|cbn; lia|]. right.
          exists d, ds. repeat split; [done|lia]. }
        set (k1 := set_inbox (frames_of ds) k). set (self1 := with_inbox (frames_of ds) k self).
        destruct (IH ds w1 self1 k1 target start timeout eq_refl He eq_refl Hwf)
          as (skipped & rest & w' & Hds & Hsk & Hc & Hres).
        { unfold ticks in *. cbn in *. revert Hfuel. Z.div_mod_to_equations. lia. }
        exists (d :: skipped), rest, w'. subst ds. cbn in Hc.
        split; [done|]. split; [by constructor|]. split; [lia|].
        unfold self1, k1 in Hres. rewrite !with_inbox_twice in Hres. exact Hres.
      * (* the head frame is not there yet *)
        destruct (IH (d :: ds) (set_clock (clock w + 100) w) self k target start timeout
                    Hk He Hib Hwf)
          as (skipped & rest & w' & Hds & Hsk & Hc & Hres).
        { unfold ticks in *. cbn in *. revert Hfuel. Z.div_mod_to_equations. lia. }
        exists skipped, rest, w'. cbn in Hc. repeat split; [done|done|lia|exact Hres].
Qed.

Lemma wait_loop_finds fuel : forall skipped d rest w self k target start timeout,
  sock self = Some k -> inbox k = frames_of (skipped ++ d :: rest) ->
  Forall well_formed (skipped ++ [d]) ->
  Forall (fun x => answers target (content x) = false) skipped ->
  answers target (content d) = true ->
  Forall (fun x => arrival x < start + timeout) (skipped ++ [d]) ->
  clock w < start + timeout ->
  (length skipped + ticks (start + timeout) (w, self) <= fuel)%nat ->
  exists w', clock w <= clock w' < start + timeout /\
    wait_loop fuel target start timeout (w, self)
    = Ret (JDict (content d)) (w', with_inbox (frames_of rest) k self).
Proof.
  induction fuel as [|fuel IH];
    intros skipped d rest w self k target start timeout Hk Hib Hwf Hsk Hd Harr Hc Hfuel.
  { unfold ticks in Hfuel. cbn in Hfuel. revert Hfuel. Z.div_mod_to_equations. lia. }
  rewrite wait_loop_poll by (cbn; lia).
  destruct skipped as [|x skipped]; cbn [app] in *.
  - rewrite (select_frames w self k d rest Hk Hib).
    rewrite Forall_singleton in Hwf, Harr.
    destruct (arrival d <? clock w + 100) eqn:Et.
    + set (w1 := set_clock (Z.max (clock w) (arrival d)) w).
      rewrite (recv_delivery w1 self k d rest Hk Hib Hwf) by (cbn; lia).
      cbn [message_get mret M_ret]. fold (answers target (content d)). rewrite Hd.
      exists w1. split; [cbn; lia | done].
    + destruct (IH [] d rest (set_clock (clock w + 100) w) self k target start timeout)
        as (w' & Hw' & Hres); try done.
      * by apply Forall_singleton.
      * by apply Forall_singleton.
      * cbn. lia.
      * unfold ticks in *. cbn in *. revert Hfuel. Z.div_mod_to_equations. lia.
      * exists w'. cbn in Hw'. split; [lia | done].
  - rewrite (select_frames w self k x (skipped ++ d :: rest) Hk Hib).
    apply Forall_cons in Hwf as [Hx Hwf]. apply Forall_cons in Harr as [Hax Harr].
    apply Forall_cons in Hsk as [Hnx Hsk].
    destruct (arrival x <? clock w + 100) eqn:Et.
    + set (w1 := set_clock (Z.max (clock w) (arrival x)) w).
      rewrite (recv_delivery w1 self k x _ Hk Hib Hx) by (cbn; lia).
      cbn [message_get mret M_ret]. fold (answers target (content x)). rewrite Hnx.
      set (ib := frames_of (skipped ++ d :: rest)).
      destruct (IH skipped d rest w1 (with_inbox ib k self) (set_inbox ib k) target start timeout)
        as (w' & Hw' & Hres); try done.
      * cbn. lia.
      * unfold ticks in *. cbn in *. revert Hfuel. Z.div_mod_to_equations. lia.
      * exists w'. cbn in Hw'. split; [lia|]. by rewrite with_inbox_twice in Hres.
    + destruct (IH (x :: skipped) d rest (set_clock (clock w + 100) w) self k target start timeout)
        as (w' & Hw' & Hres); try done.
      * by constructor.
      * by constructor.
      * by constructor.
      * cbn. lia.
      * unfold ticks in *. cbn in *. revert Hfuel. Z.div_mod_to_equations. lia.
      * exists w'. cbn in Hw'. split; [lia | done].
Qed.

Lemma wait_loop_sound fuel : forall target start timeout st r st',
  wait_loop fuel target start timeout st = Ret r st' ->
  r = JNull \/ exists m, r = JDict m /\ answers target m = true.
Proof.
  induction fuel as [|fuel IH]; intros target start timeout st r st' Hr.
  all: destruct (clock st.1 - start <? timeout) eqn:E;
    [|rewrite wait_loop_expired in Hr by done; injection Hr as <- <-; by left].
  - cbn [wait_loop] in Hr. unfold mbind, M_bind in Hr. cbn [time_time] in Hr. by rewrite E in Hr.
  - rewrite wait_loop_poll in Hr by done.
    destruct (select_select 100 st) as [[|] st1|e st1| |]; try done; [|by eapply IH].
    destruct (recv_message st1) as [message st2|e st2| |]; try done.
    destruct message as [| | | | |m]; try done. cbn [message_get mret M_ret] in Hr.
    fold (answers target m) in Hr. destruct (answers target m) eqn:Ea; [|by eapply IH].
    injection Hr as <- <-. right. by exists m.
Qed.

Lemma frames_length ds : (length ds <= bytes_in (frames_of ds))%nat.
Proof.
  induction ds as [|d ds IH]; [done|].
  change (frames_of (d :: ds)) with ((arrival d, frame (text d)) :: frames_of ds).
  cbn [bytes_in length]. destruct (frame_cons (text d)) as [s ->]. cbn [String.length]. lia.
Qed.

End Correlation.

(** ** Correlation and framing *)

Section Waiting.
Context {P : Platform}.

Lemma wait_for_unfold target timeout st :
  _wait_for target timeout st
  = wait_loop (wait_fuel st timeout) target (clock st.1) timeout st.
Proof. reflexivity. Qed.

Lemma wait_fuel_enough st timeout n :
  (n <= unread st)%nat ->
  (n + ticks (clock st.1 + timeout) st <= wait_fuel st timeout)%nat.
Proof.
  intros Hn. unfold wait_fuel, ticks. fold (unread st).
  apply Nat.add_le_mono; [done|]. Z.div_mod_to_equations. lia.
Qed.

Lemma send_spec method params id w self k :
  sock self = Some k ->
  _send method params id (w, self)
  = sock_sendall (frame (json_dumps None (JDict (payload method params id)))) (w, self).
Proof. intros Hk. unfold _send. rewrite bind_unfold. cbn [get snd]. by rewrite Hk. Qed.

Lemma send_last method params id st st' :
  _send method params id st = Ret tt st' ->
  last_sent st' = Some (frame (json_dumps None (JDict (payload method params id)))).
Proof.
  destruct st as [w self]. unfold _send. rewrite bind_unfold. cbn [get snd].
  destruct (sock self) as [k|] eqn:Hk; [|done].
  unfold sock_sendall. rewrite Hk.
  destruct (send_budget k) as [[|b]|]; [done| |]; intros [= <-];
    unfold last_sent; cbn; by rewrite last_snoc.
Qed.

Lemma payload_fields method params id :
  dict_get "id" (payload method params (Some id)) = Some (JInt id) /\
  dict_get "method" (payload method params (Some id)) = Some (JStr method) /\
  dict_get "params" (payload method params (Some id)) = Some params.
Proof. done. Qed.

Lemma recv_sent_frame method params id sender sender' data w self k t rest :
  _send method params (Some id) sender = Ret tt sender' ->
  last_sent sender' = Some data ->
  json_loads (json_dumps None (JDict (payload method params (Some id))))
  = inr (JDict (payload method params (Some id))) ->
  sock self = Some k -> inbox k = (t, data) :: rest -> t <= clock w ->
  exists message,
    recv_message (w, self) = Ret (JDict message) (w, with_inbox rest k self) /\
    dict_get "id" message = Some (JInt id) /\
    dict_get "method" message = Some (JStr method) /\
    dict_get "params" message = Some params.
Proof.
  intros Hsend Hlast Hjson Hk Hib Ht.
  apply send_last in Hsend.
  assert (data = frame (json_dumps None (JDict (payload method params (Some id))))) as ->
    by congruence.
  exists (payload method params (Some id)). split; [|apply payload_fields].
  rewrite (recv_message_frame w self k t _ rest Hk Hib Ht). by rewrite Hjson.
Qed.

End Waiting.

Lemma payload_distinct method params id :
  distinct_keys params = true ->
  distinct_keys (JDict (payload method params (Some id))) = true.
Proof.
  intros Hp. rewrite distinct_dict. apply andb_true_iff. split.
  - vm_compute. reflexivity.
  - cbn. by rewrite Hp.
Qed.

(** C5. A request frame written by [_send] and read back by the frame
    reader of [_wait_for] yields a message with the same id, method and
    params: with any JSON reader that inverts [json.dumps] on the
    payload, and with the reader [PyJson.loads] for every [params] whose
    dicts hold each key once. *)
Theorem framing_round_trip method params id :
  (forall (P : Platform) sender sender' data w self k t rest,
     _send method params (Some id) sender = Ret tt sender' ->
     last_sent sender' = Some data ->
     json_loads (json_dumps None (JDict (payload method params (Some id))))
     = inr (JDict (payload method params (Some id))) ->
     sock self = Some k -> inbox k = (t, data) :: rest -> t <= clock w ->
     exists message,
       recv_message (w, self) = Ret (JDict message) (w, with_inbox rest k self) /\
       dict_get "id" message = Some (JInt id) /\
       dict_get "method" message = Some (JStr method) /\
       dict_get "params" message = Some params) /\
  (forall cwd sender sender' data w self k t rest,
     distinct_keys params = true ->
     _send method params (Some id) sender = Ret tt sender' ->
     last_sent sender' = Some data ->
     sock self = Some k -> inbox k = (t, data) :: rest -> t <= clock w ->
     exists message,
       recv_message (P := posix cwd) (w, self)
       = Ret (JDict message) (w, with_inbox rest k self) /\
       dict_get "id" message = Some (JInt id) /\
       dict_get "method" message = Some (JStr method) /\
       dict_get "params" message = Some params).
Proof.
  split.
  - intros P sender sender' data w self k t rest. apply recv_sent_frame.
  - intros cwd sender sender' data w self k t rest Hp Hsend Hlast.
    apply (recv_sent_frame (P := posix cwd) method params id sender sender' data);
      [done | done |].
    apply loads_dumps. by apply payload_distinct.
Qed.

(** ** Steps that keep the session *)

#[global] Instance world_kept_refl : Reflexive world_kept.
Proof. intros w. unfold world_kept. repeat split; lia. Qed.

#[global] Instance world_kept_trans : Transitive world_kept.
Proof. intros w1 w2 w3 (?&?&?&?&?) (?&?&?&?&?). unfold world_kept. repeat split; try congruence; lia. Qed.

#[global] Instance session_kept_refl : Reflexive session_kept.
Proof. intros st. unfold session_kept. repeat split; done. Qed.

#[global] Instance session_kept_trans : Transitive session_kept.
Proof.
  intros s1 s2 s3 (?&?&?&?&?) (?&?&?&?&?). unfold session_kept.
  split; [by etrans|]. repeat (split; [congruence|]). by etrans.
Qed.

#[global] Instance quiet_refl : Reflexive quiet.
Proof. intros st. split; [reflexivity | done]. Qed.

#[global] Instance quiet_trans : Transitive quiet.
Proof. intros s1 s2 s3 [? ?] [? ?]. split; [by etrans | congruence]. Qed.

Lemma reads_only_quiet st st' : reads_only st st' -> quiet st st'.
Proof.
  destruct st as [w self], st' as [w' self']. intros (c & Hc & Hw & Hs). cbn in *. subst w'.
  assert (world_kept w (set_clock c w)) by (unfold world_kept; by destruct w).
  destruct (sock self) as [k|] eqn:Hk.
  - destruct Hs as (ib & -> & _). unfold quiet, session_kept. cbn.
    rewrite Hk. repeat split; try done; by eexists.
  - subst self'. by repeat split.
Qed.

Lemma sends_only_quiet st st' : sends_only st st' -> quiet st st'.
Proof.
  destruct st as [w self], st' as [w' self']. intros [Hw Hs]. cbn in *. subst w'.
  destruct Hs as [->|(k & data & b & Hk & ->)]; [reflexivity|].
  unfold quiet, session_kept. cbn. rewrite Hk. repeat split; try done; by eexists.
Qed.

Section Session.
Context {P : Platform}.

Lemma sendall_sends data : always sends_only (sock_sendall data).
Proof.
  intros [w self]. unfold sock_sendall. destruct (sock self) as [k|] eqn:Hk.
  - destruct (send_budget k) as [[|b]|]; (split; [done|]); [by left|right..];
      by eexists _, _, _.
  - split; [done | by left].
Qed.

Lemma send_sends method params id : always sends_only (_send method params id).
Proof.
  intros [w self]. unfold _send. rewrite bind_unfold. cbn [get snd].
  destruct (sock self) as [k|] eqn:Hk; [apply sendall_sends|]. split; [done | by left].
Qed.

Lemma send_quiet method params id : always quiet (_send method params id).
Proof. eapply always_weaken; [apply sends_only_quiet | apply send_sends]. Qed.

Lemma wait_for_quiet target timeout : always quiet (_wait_for target timeout).
Proof. eapply always_weaken; [apply reads_only_quiet | apply wait_for_reads]. Qed.

Lemma request_unfold method params w self :
  request method params (w, self)
  = match _send method params (Some (_id self + 1)) (w, set_id (_id self + 1) self) with
    | Ret _ st2 => _wait_for (_id st2.2) 3000 st2
    | Raise e st2 => Raise e st2
    | Hang => Hang
    | NoFuel => NoFuel
    end.
Proof.
  unfold request. rewrite bind_unfold. cbn [get]. rewrite bind_unfold. cbn [put fst snd].
  rewrite bind_unfold. cbn [get]. rewrite bind_unfold. cbn [fst snd set_id _id].
  destruct (_send _ _ _ _) as [[] st2|e st2| |]; try done.
Qed.

(** [request] moves the id counter by one, whatever happens next. *)
Lemma request_steps method params :
  always (fun st st' => session_kept st st' /\ _id st'.2 = _id st.2 + 1)
         (request method params).
Proof.
  intros [w self]. rewrite request_unfold.
  set (st1 := (w, set_id (_id self + 1) self)).
  assert (session_kept (w, self) st1 /\ _id st1.2 = _id self + 1) as [H1 H1'].
  { split; [|done]. by repeat split. }
  pose proof (send_quiet method params (Some (_id self + 1)) st1) as Hs.
  destruct (_send _ _ _ st1) as [[] st2|e st2| |]; [|by destruct Hs|done..].
  pose proof (wait_for_quiet (_id st2.2) 3000 st2) as Hw.
  destruct Hs as [Hs Hs'].
  destruct (_wait_for _ _ st2) as [r st3|e st3| |]; try done; destruct Hw as [Hw Hw'];
    (split; [by do 2 (etrans; [eassumption|]) | cbn in *; congruence]).
Qed.

End Session.

(** ** Steps of the tool *)

#[global] Instance tool_kept_refl : Reflexive tool_kept.
Proof.
  intros [w tool]. unfold tool_kept. cbn. destruct (_session tool) as [s|]; [|by split].
  exists s. repeat split; try done; lia.
Qed.

#[global] Instance tool_kept_trans : Transitive tool_kept.
Proof.
  intros [w1 t1] [w2 t2] [w3 t3]. unfold tool_kept. cbn.
  destruct (_session t1) as [s1|].
  - intros (s2 & -> & H12 & Hi) (s3 & -> & H23 & Hi'). exists s3.
    split; [done|]. split; [by etrans | lia].
  - intros [-> H12] [-> H23]. split; [done | by etrans].
Qed.

Section Tool.
Context {P : Platform}.

Lemma on_session_some {A} (m : M sstate A) w tool s :
  _session tool = Some s ->
  on_session m (w, tool)
  = match m (w, s) with
    | Ret a st' => Ret a (st'.1, Tool (Some st'.2))
    | Raise e st' => Raise e (st'.1, Tool (Some st'.2))
    | Hang => Hang
    | NoFuel => NoFuel
    end.
Proof.
  intros Hs. unfold on_session. cbn [fst snd]. rewrite Hs.
  by destruct (m (w, s)) as [a [w' s']|e [w' s']| |].
Qed.

Lemma on_session_kept {A} (R : sstate -> sstate -> Prop) (m : M sstate A) :
  (forall st st', R st st' -> session_kept st st' /\ _id st.2 <= _id st'.2) ->
  always R m -> always tool_kept (on_session m).
Proof.
  intros HR Hm [w tool]. destruct (_session tool) as [s|] eqn:Hs.
  - rewrite (on_session_some m w tool s Hs). specialize (Hm (w, s)).
    destruct (m (w, s)) as [a [w' s']|e [w' s']| |]; try done;
      apply HR in Hm as [H1 H2]; unfold tool_kept; cbn; rewrite Hs; by exists s'.
  - unfold on_session. cbn. rewrite Hs. unfold tool_kept. cbn. rewrite Hs. by split.
Qed.

Lemma quiet_kept st st' : quiet st st' -> session_kept st st' /\ _id st.2 <= _id st'.2.
Proof. intros [H1 H2]. split; [done |]. rewrite H2. reflexivity. Qed.

Lemma sleep_kept ms : 0 <= ms -> always tool_kept (asyncio_sleep ms).
Proof.
  intros Hms [w tool]. unfold asyncio_sleep, tool_kept. cbn.
  assert (world_kept w (set_clock (clock w + ms) w)).
  { unfold world_kept. destruct w. cbn. repeat split. lia. }
  destruct (_session tool) as [s|]; [|by split].
  exists s. split; [done|]. split; [|lia]. split; [done|]. by repeat split.
Qed.

Lemma exists_kept path : always tool_kept (os_path_exists path).
Proof. intros st. exact (tool_kept_refl st). Qed.

Lemma read_text_kept path : always tool_kept (read_text path).
Proof.
  intros st. unfold read_text. destruct (files st.1 !! path) as [[c|e]|]; exact (tool_kept_refl st).
Qed.

Lemma render_kept result : always tool_kept (render result).
Proof. intros st. destruct result; exact (tool_kept_refl st). Qed.

Lemma open_document_kept path : always tool_kept (open_document path).
Proof.
  unfold open_document. cbv zeta. apply always_bind; [apply tool_kept_trans | apply exists_kept |].
  intros there. destruct (negb there); [apply always_ret, tool_kept_refl|].
  apply always_bind; [apply tool_kept_trans | apply read_text_kept |]. intros content.
  apply always_bind; [apply tool_kept_trans | |].
  { eapply on_session_kept; [apply quiet_kept | apply send_quiet]. }
  intros _. apply always_bind; [apply tool_kept_trans | by apply sleep_kept |].
  intros _. apply always_ret, tool_kept_refl.
Qed.

Lemma request_kept method params : always tool_kept (on_session (request method params)).
Proof.
  eapply on_session_kept; [|apply request_steps].
  intros st st' [H1 H2]. split; [done | lia].
Qed.

Lemma dispatch_kept action uri line character :
  always tool_kept (dispatch action uri line character).
Proof.
  unfold dispatch.
  destruct (String.eqb action "hover");
    [|destruct (String.eqb action "definition")]; [| |apply always_ret, tool_kept_refl].
  all: apply always_bind; [apply tool_kept_trans | apply request_kept | apply render_kept].
Qed.

Lemma ensure_session_some st s :
  _session st.2 = Some s -> ensure_session st = Ret tt st.
Proof. intros Hs. unfold ensure_session. rewrite bind_unfold. cbn [get]. by rewrite Hs. Qed.

(** Every exception is caught at the boundary of [execute]. *)
Lemma execute_catches path action line character st :
  match execute path action line character st with
  | Raise _ _ => False
  | _ => True
  end.
Proof. unfold execute, try_except. by destruct (execute_try _ _ _ _ st). Qed.

Lemma execute_kept path action line character st s :
  _session st.2 = Some s ->
  match execute path action line character st with
  | Ret _ st' => tool_kept st st'
  | Raise _ _ => False
  | Hang => True
  | NoFuel => False
  end.
Proof.
  intros Hs. pose proof (execute_catches path action line character st) as Hc.
  assert (always tool_kept (r ← open_document path;
                            match r with
                            | inl early => mret early
                            | inr uri => dispatch action uri line character
                            end)) as Hbody.
  { apply always_bind; [apply tool_kept_trans | apply open_document_kept |].
    intros [early|uri]; [apply always_ret, tool_kept_refl | apply dispatch_kept]. }
  unfold execute, try_except, execute_try in *. rewrite bind_unfold in *.
  rewrite (ensure_session_some st s Hs) in *.
  specialize (Hbody st).
  destruct ((open_document path ≫= _) st) as [r st'|e st'| |]; try done.
Qed.

End Tool.

(** ** [start] and the first [execute] *)

Section Start.
Context {P : Platform}.

Lemma start_unfold w self :
  start (w, self)
  = match endpoints w !! (host self, port self) with
    | None => Raise (Exn ConnectionRefusedError "[Errno 111] Connection refused")
                    (after_connect w, self)
    | Some k =>
        match _send "initialize" initialize_params None
                    (after_connect w, set_id 1 (set_sock (Some k) self)) with
        | Ret _ st2 =>
            match _wait_for (_id st2.2) 3000 st2 with
            | Ret _ st3 => _send "initialized" (JDict []) None st3
            | Raise e st3 => Raise e st3
            | Hang => Hang
            | NoFuel => NoFuel
            end
        | Raise e st2 => Raise e st2
        | Hang => Hang
        | NoFuel => NoFuel
        end
    end.
Proof.
  unfold start. rewrite bind_unfold. cbn [get]. rewrite bind_unfold.
  unfold create_connection. cbn [fst snd]. fold (after_connect w).
  destruct (endpoints w !! (host self, port self)) as [k|]; [|done].
  rewrite bind_unfold. cbn [get]. rewrite bind_unfold. cbn [put fst snd].
  rewrite bind_unfold. cbn [get]. rewrite bind_unfold. cbn [put fst snd].
  rewrite bind_unfold.
  destruct (_send _ _ _ _) as [[] st2|e st2| |]; try done.
Qed.

Lemma started_quiet st0 st1 st2 : started st0 st1 -> quiet st1 st2 -> started st0 st2.
Proof.
  intros (?&?&?&?&?&?&?&?) [((?&?&?&?&?)&?&?&?&?) ?]. unfold started.
  repeat split; try congruence; lia.
Qed.

Lemma start_started : always started start.
Proof.
  intros [w self]. rewrite start_unfold.
  assert (forall s', oid s' = oid self -> host s' = host self -> port s' = port self ->
                     started (w, self) (after_connect w, s')) as H0.
  { intros s' ???. unfold started. cbn. repeat split; try done; lia. }
  destruct (endpoints w !! (host self, port self)) as [k|]; [|by apply H0].
  set (st1 := (after_connect w, set_id 1 (set_sock (Some k) self))).
  assert (started (w, self) st1) as H1 by (by apply H0).
  pose proof (send_quiet "initialize" initialize_params None st1) as Hs.
  destruct (_send _ _ _ st1) as [[] st2|e st2| |]; try done; [|by eapply started_quiet].
  assert (started (w, self) st2) as H2 by (by eapply started_quiet).
  pose proof (wait_for_quiet (_id st2.2) 3000 st2) as Hw.
  destruct (_wait_for _ _ st2) as [r st3|e st3| |]; try done; [|by eapply started_quiet].
  assert (started (w, self) st3) as H3 by (by eapply started_quiet).
  pose proof (send_quiet "initialized" (JDict []) None st3) as Hs'.
  destruct (_send _ _ _ st3) as [[] st4|e st4| |]; try done; by eapply started_quiet.
Qed.

Lemma ensure_session_none w tool :
  _session tool = None ->
  ensure_session (w, tool)
  = match start (after_init w, fresh_session w) with
    | Ret a st' => Ret a (st'.1, Tool (Some st'.2))
    | Raise e st' => Raise e (st'.1, Tool (Some st'.2))
    | Hang => Hang
    | NoFuel => NoFuel
    end.
Proof.
  intros Hs. unfold ensure_session. rewrite bind_unfold. cbn [get snd]. rewrite Hs.
  rewrite bind_unfold. unfold LSPClientSession_init. cbn [fst snd].
  rewrite bind_unfold. cbn [get]. rewrite bind_unfold. cbn [put fst snd].
  fold (after_init w). fold (fresh_session w).
  by rewrite (on_session_some start (after_init w) (Tool (Some (fresh_session w))) (fresh_session w)).
Qed.

Lemma ensure_session_made st :
  _session st.2 = None ->
  match ensure_session st with
  | Ret _ st' => session_made st st'
  | Raise _ st' => session_made st st'
  | Hang => True
  | NoFuel => False
  end.
Proof.
  destruct st as [w tool]. cbn [snd]. intros Hs. rewrite (ensure_session_none w tool Hs).
  pose proof (start_started (after_init w, fresh_session w)) as H.
  destruct (start _) as [a [w' s']|e [w' s']| |]; try done;
    destruct H as (?&?&?&?&?&?&?&?); cbn in *; exists s'; by repeat split.
Qed.

(** [execute] returns a payload or never returns: it raises nothing, and
    the loop bound of the model is never the reason it stops. *)
Lemma execute_total path action line character st :
  match execute path action line character st with
  | Ret _ _ => True
  | Raise _ _ => False
  | Hang => True
  | NoFuel => False
  end.
Proof.
  destruct (_session st.2) as [s|] eqn:Hs.
  { pose proof (execute_kept path action line character st s Hs) as H.
    by destruct (execute path action line character st). }
  pose proof (ensure_session_made st Hs) as Hm.
  assert (always tool_kept (r ← open_document path;
                            match r with
                            | inl early => mret early
                            | inr uri => dispatch action uri line character
                            end)) as Hbody.
  { apply always_bind; [apply tool_kept_trans | apply open_document_kept |].
    intros [early|uri]; [apply always_ret, tool_kept_refl | apply dispatch_kept]. }
  unfold execute, try_except, execute_try. rewrite bind_unfold.
  destruct (ensure_session st) as [[] st0|e st0| |]; try done.
  specialize (Hbody st0).
  by destruct ((open_document path ≫= _) st0) as [r st'|e st'| |].
Qed.

End Start.

(** ** The result of [execute] *)

Section Execute.
Context {P : Platform}.

Lemma execute_unfold path action line character st :
  execute path action line character st
  = match prepare path st with
    | Ret (inl early) st1 => Ret early st1
    | Ret (inr uri) st1 => try_except (dispatch action uri line character) on_exception st1
    | Raise e st1 => on_exception e st1
    | Hang => Hang
    | NoFuel => NoFuel
    end.
Proof.
  unfold execute, execute_try, prepare, try_except. rewrite !bind_unfold.
  destruct (ensure_session st) as [[] st0|e st0| |]; try done.
  rewrite !bind_unfold.
  destruct (open_document path st0) as [[early|uri] st1|e st1| |]; done.
Qed.

Lemma dispatch_supported action method uri line character :
  lsp_method action = Some method ->
  dispatch action uri line character
  = (result ← on_session (request method (position_params uri line character));
     render result).
Proof.
  unfold lsp_method, dispatch. destruct (String.eqb action "hover"); [by intros [= <-]|].
  destruct (String.eqb action "definition"); [by intros [= <-]|done].
Qed.

Lemma dispatch_unsupported action uri line character :
  lsp_method action = None ->
  dispatch action uri line character = mret (tool_error ("Unsupported action: " +:+ action)).
Proof.
  unfold lsp_method, dispatch. destruct (String.eqb action "hover"); [done|].
  by destruct (String.eqb action "definition").
Qed.

(** C1 (what the code does). When the query's wait times out, [request]
    returns [None], [result.get] raises AttributeError, and [execute]
    returns the error payload of its exception handler, not an empty
    result. *)
Theorem execute_timeout_is_error path action method line character st uri st1 st2 :
  prepare path st = Ret (inr uri) st1 ->
  lsp_method action = Some method ->
  on_session (request method (position_params uri line character)) st1 = Ret JNull st2 ->
  execute path action line character st = Ret none_type_error st2.
Proof.
  intros Hp Hm Hr. rewrite execute_unfold, Hp. unfold try_except.
  rewrite (dispatch_supported _ _ _ _ _ Hm), bind_unfold, Hr. reflexivity.
Qed.

(** An unsupported action ends [execute] right after [prepare]. *)
Lemma execute_unsupported path action line character st :
  lsp_method action = None ->
  execute path action line character st
  = match prepare path st with
    | Ret (inl early) st1 => Ret early st1
    | Ret (inr _) st1 => Ret (tool_error ("Unsupported action: " +:+ action)) st1
    | Raise e st1 => Ret (tool_error ("LSP tool error: " +:+ exn_str e)) st1
    | Hang => Hang
    | NoFuel => NoFuel
    end.
Proof.
  intros Hm. rewrite execute_unfold.
  destruct (prepare path st) as [[early|uri] st1|e st1| |]; try done.
  by rewrite (dispatch_unsupported _ _ _ _ Hm).
Qed.

Lemma send_ok method params id w self k :
  sock self = Some k -> send_budget k <> Some 0%nat ->
  _send method params id (w, self)
  = Ret tt (w, set_sock (Some (pushed (frame (json_dumps None (JDict (payload method params id)))) k)) self).
Proof.
  intros Hk Hb. rewrite (send_spec _ _ _ _ _ _ Hk). unfold sock_sendall. rewrite Hk.
  unfold pushed. by destruct (send_budget k) as [[|b]|].
Qed.

Lemma send_broken method params id w self k :
  sock self = Some k -> send_budget k = Some 0%nat ->
  _send method params id (w, self)
  = Raise (Exn BrokenPipeError "[Errno 32] Broken pipe") (w, self).
Proof.
  intros Hk Hb. rewrite (send_spec _ _ _ _ _ _ Hk). unfold sock_sendall. by rewrite Hk, Hb.
Qed.

Lemma open_document_unfold path w tool :
  open_document path (w, tool)
  = match files w !! abspath path with
    | None => Ret (inl (tool_error ("File does not exist: " +:+ path))) (w, tool)
    | Some (Unreadable e) => Raise e (w, tool)
    | Some (Readable content) =>
        match on_session (_send "textDocument/didOpen"
                            (did_open_params ("file://" +:+ abspath path) content) None)
                         (w, tool) with
        | Ret _ st1 => Ret (inr ("file://" +:+ abspath path))
                           (set_clock (clock st1.1 + 300) st1.1, st1.2)
        | Raise e st1 => Raise e st1
        | Hang => Hang
        | NoFuel => NoFuel
        end
    end.
Proof.
  unfold open_document. rewrite bind_unfold. unfold os_path_exists, read_text. cbn [fst snd].
  destruct (files w !! abspath path) as [[content|e]|] eqn:Hf.
  - rewrite bool_decide_eq_true_2 by (by eexists). cbn [negb].
    rewrite bind_unfold. cbn [fst snd]. rewrite Hf. rewrite bind_unfold.
    destruct (on_session _ (w, tool)) as [[] st1|e st1| |]; done.
  - rewrite bool_decide_eq_true_2 by (by eexists). cbn [negb].
    rewrite bind_unfold. cbn [fst snd]. by rewrite Hf.
  - by rewrite bool_decide_eq_false_2 by (by intros [? ?]).
Qed.

(** With a session in place, [prepare] reads nothing, leaves the id
    counter alone and sends at most the didOpen notification. *)
Lemma prepare_sends_only path w tool s :
  _session tool = Some s ->
  match prepare path (w, tool) with
  | Ret _ st1 | Raise _ st1 =>
      exists s1, _session st1.2 = Some s1 /\ _id s1 = _id s /\
        (s1 = s \/
         exists k content, sock s = Some k /\
           s1 = set_sock (Some (pushed (did_open_frame path content) k)) s)
  | Hang => False
  | NoFuel => False
  end.
Proof.
  intros Hs. unfold prepare. rewrite bind_unfold, (ensure_session_some (w, tool) s Hs).
  rewrite open_document_unfold.
  destruct (files w !! abspath path) as [[content|e]|] eqn:Hf.
  all: try (exists s; by repeat split; try left).
  rewrite (on_session_some _ w tool s Hs).
  destruct (sock s) as [k|] eqn:Hk.
  - destruct (decide (send_budget k = Some 0%nat)) as [Hb|Hb].
    + rewrite (send_broken _ _ _ _ _ _ Hk Hb). exists s. by repeat split; try left.
    + rewrite (send_ok _ _ _ _ _ _ Hk Hb). cbn.
      eexists. split; [done|]. split; [done|]. right. by exists k, content.
  - unfold _send. rewrite bind_unfold. cbn [get snd]. rewrite Hk. cbn.
    exists s. by repeat split; try left.
Qed.

End Execute.

(** ** The handshake *)

Section Handshake.
Context {P : Platform}.

Lemma reads_only_sent st st' k :
  reads_only st st' -> sock st.2 = Some k ->
  exists k', sock st'.2 = Some k' /\ sent k' = sent k /\ send_budget k' = send_budget k.
Proof.
  destruct st as [w self], st' as [w' self']. intros (c & _ & _ & Hs) Hk. cbn in *.
  rewrite Hk in Hs. destruct Hs as (ib & -> & _). by eexists.
Qed.

(** What [start] has put on the wire when it returns, and when it raises
    after connecting. *)
Lemma start_sent w self k :
  endpoints w !! (host self, port self) = Some k -> send_budget k <> Some 0%nat ->
  match start (w, self) with
  | Ret _ st' => exists k', sock st'.2 = Some k' /\
                   sent k' = sent k ++ [initialize_frame; initialized_frame]
  | Raise _ st' => exists k', sock st'.2 = Some k' /\ sent k' = sent k ++ [initialize_frame]
  | Hang => True
  | NoFuel => False
  end.
Proof.
  intros Hk Hb. rewrite start_unfold, Hk.
  rewrite (send_ok _ _ _ _ _ k) by done.
  set (k2 := pushed _ k). set (st2 := (after_connect w, _)).
  pose proof (wait_for_reads (_id st2.2) 3000 st2) as Hw.
  destruct (_wait_for _ _ st2) as [r [w3 s3]|e st3| |]; try done.
  - destruct (reads_only_sent _ _ k2 Hw eq_refl) as (k3 & Hk3 & Hs3 & Hb3). cbn in Hk3.
    destruct (decide (send_budget k3 = Some 0%nat)) as [Hb'|Hb'].
    + rewrite (send_broken _ _ _ _ _ _ Hk3 Hb'). exists k3. by rewrite Hs3.
    + rewrite (send_ok _ _ _ _ _ _ Hk3 Hb'). eexists. split; [done|]. cbn.
      rewrite Hs3. unfold k2. cbn. by rewrite <- app_assoc.
  - destruct (reads_only_sent _ _ k2 Hw eq_refl) as (k3 & Hk3 & Hs3 & _).
    exists k3. by rewrite Hs3.
Qed.

(** C2 (what the code does). [start] calls [_send("initialize", ...)]
    without [id=], so the payload has no id field: the frame that opens
    the handshake is a notification, not a request with id 1. *)
Theorem initialize_sent_without_id w self k :
  endpoints w !! (host self, port self) = Some k -> send_budget k <> Some 0%nat ->
  dict_get "id" (payload "initialize" initialize_params None) = None /\
  match start (w, self) with
  | Ret _ st' | Raise _ st' =>
      exists k' more, sock st'.2 = Some k' /\ sent k' = sent k ++ initialize_frame :: more
  | Hang => True
  | NoFuel => False
  end.
Proof.
  intros Hk Hb. split; [reflexivity|]. pose proof (start_sent w self k Hk Hb) as H.
  destruct (start (w, self)) as [a st'|e st'| |]; try done;
    destruct H as (k' & Hk' & Hs); exists k'; eexists; (split; [done|]); exact Hs.
Qed.

(** C6 (what the code does). Whenever [start] completes, whether its
    wait for id 1 was answered or timed out, exactly two frames have
    gone out, in this order: initialize, then initialized.  The first
    carries no id, so no initialize request with id 1 precedes the
    initialized notification. *)
Theorem handshake_order_without_id w self k st' :
  endpoints w !! (host self, port self) = Some k ->
  start (w, self) = Ret tt st' ->
  dict_get "id" (payload "initialize" initialize_params None) = None /\
  exists k', sock st'.2 = Some k' /\
    sent k' = sent k ++ [initialize_frame; initialized_frame].
Proof.
  intros Hk Hr. split; [reflexivity|].
  destruct (decide (send_budget k = Some 0%nat)) as [Hb|Hb].
  - rewrite start_unfold, Hk in Hr. by rewrite (send_broken _ _ _ _ _ k) in Hr.
  - pose proof (start_sent w self k Hk Hb) as H. by rewrite Hr in H.
Qed.

End Handshake.

(** ** The lifetime of a session *)

Section Lifetime.
Context {P : Platform}.

Lemma execute_all_kept calls : forall st s st',
  _session st.2 = Some s -> execute_all calls st = Some st' -> tool_kept st st'.
Proof.
  induction calls as [|[[[path action] line] character] calls IH]; intros st s st' Hs Hrun.
  - injection Hrun as <-. reflexivity.
  - cbn [execute_all] in Hrun.
    pose proof (execute_kept path action line character st s Hs) as Hk.
    destruct (execute path action line character st) as [r st1| | |]; try done.
    assert (exists s1, _session st1.2 = Some s1) as [s1 Hs1].
    { unfold tool_kept in Hk. rewrite Hs in Hk. destruct Hk as (s1 & ? & _). by exists s1. }
    etrans; [exact Hk|]. by eapply IH.
Qed.

(** C8. The ids a session's [request] calls allocate are strictly
    increasing, and all greater than the counter's value before the
    first of them; and no [execute] on the session a tool holds ever
    lowers the counter. *)
Theorem request_ids_strictly_increase calls st :
  StronglySorted Z.lt (allocated calls st) /\
  Forall (Z.lt (_id st.2)) (allocated calls st) /\
  (forall runs tst s tst',
     _session tst.2 = Some s -> execute_all runs tst = Some tst' ->
     exists s', _session tst'.2 = Some s' /\ _id s <= _id s').
Proof.
  assert (forall st, StronglySorted Z.lt (allocated calls st) /\
                     Forall (Z.lt (_id st.2)) (allocated calls st)) as Hids.
  { induction calls as [|[method params] calls IH]; intros st'.
    { split; constructor. }
    cbn [allocated]. pose proof (request_steps method params st') as Hr.
    assert (forall st1, _id st1.2 = _id st'.2 + 1 ->
              StronglySorted Z.lt (_id st'.2 + 1 :: allocated calls st1) /\
              Forall (Z.lt (_id st'.2)) (_id st'.2 + 1 :: allocated calls st1)) as Hstep.
    { intros st1 Hid. destruct (IH st1) as [Hs Hf]. rewrite Hid in Hf. split.
      - by constructor.
      - constructor; [lia|]. eapply Forall_impl; [exact Hf|]. cbn. lia. }
    destruct (request method params st') as [r st1|e st1| |].
    - apply Hstep, Hr.
    - apply Hstep, Hr.
    - split; repeat constructor; lia.
    - split; repeat constructor; lia. }
  destruct (Hids st) as [H1 H2]. split; [done|]. split; [done|].
  intros runs tst s tst' Hs Hrun.
  pose proof (execute_all_kept runs tst s tst' Hs Hrun) as Hk.
  unfold tool_kept in Hk. rewrite Hs in Hk. destruct Hk as (s' & ? & _ & ?). by exists s'.
Qed.


End Lifetime.

(** ** Validation order *)

Section Validation.
Context {P : Platform}.

Lemma execute_missing path action line character st st1 :
  files st1.1 !! abspath path = None ->
  ensure_session st = Ret tt st1 ->
  execute path action line character st = Ret (file_not_found path) st1.
Proof.
  intros Hf He. rewrite execute_unfold. unfold prepare. rewrite bind_unfold, He.
  destruct st1 as [w1 tool1]. rewrite open_document_unfold. cbn in Hf. by rewrite Hf.
Qed.

(** C3, as amended.  On a missing file: with a session in place
    [execute] returns the file-not-found error and changes nothing; with
    none it first builds the session and runs [start] (one connection
    attempt), and reports file-not-found only if [start] returned. *)
Theorem missing_file_after_session path action line character st :
  files st.1 !! abspath path = None ->
  (forall s, _session st.2 = Some s ->
     execute path action line character st = Ret (file_not_found path) st) /\
  (_session st.2 = None ->
     match ensure_session st with
     | Ret _ st1 =>
         session_made st st1 /\
         execute path action line character st = Ret (file_not_found path) st1
     | Raise e st1 =>
         session_made st st1 /\
         execute path action line character st = Ret (lsp_tool_error e) st1
     | Hang => execute path action line character st = Hang
     | NoFuel => False
     end).
Proof.
  intros Hf. split.
  - intros s Hs. apply execute_missing; [done | by eapply ensure_session_some].
  - intros Hs. pose proof (ensure_session_made st Hs) as Hm.
    destruct (ensure_session st) as [[] st1|e st1| |] eqn:He; try done.
    + split; [done|]. apply execute_missing; [|done].
      destruct Hm as (s' & _ & _ & _ & _ & Hf' & _). by rewrite Hf'.
    + split; [done|]. rewrite execute_unfold. unfold prepare. by rewrite bind_unfold, He.
    + rewrite execute_unfold. unfold prepare. by rewrite bind_unfold, He.
Qed.

Lemma lsp_method_none action :
  action <> "hover"%string -> action <> "definition"%string -> lsp_method action = None.
Proof.
  intros H1 H2. unfold lsp_method.
  apply String.eqb_neq in H1, H2. by rewrite H1, H2.
Qed.

(** C7, as amended.  For an action other than hover and definition,
    [execute] is [prepare] and nothing more: [request] is not called.
    It reports the unsupported action when [prepare] got as far as the
    settle delay, and the earlier error otherwise.  With a session in
    place the id counter keeps its value, nothing is read, and the only
    frame that can go out is the didOpen notification. *)
Theorem unsupported_action_never_requests path action line character st :
  action <> "hover"%string -> action <> "definition"%string ->
  execute path action line character st
  = match prepare path st with
    | Ret (inl early) st1 => Ret early st1
    | Ret (inr _) st1 => Ret (unsupported_action action) st1
    | Raise e st1 => Ret (lsp_tool_error e) st1
    | Hang => Hang
    | NoFuel => NoFuel
    end /\
  (forall s, _session st.2 = Some s ->
     exists r st' s',
       execute path action line character st = Ret r st' /\
       _session st'.2 = Some s' /\ _id s' = _id s /\
       (s' = s \/
        exists k content, sock s = Some k /\
          s' = set_sock (Some (pushed (did_open_frame path content) k)) s)).
Proof.
  intros H1 H2. pose proof (lsp_method_none action H1 H2) as Hm.
  split; [by apply execute_unsupported|].
  intros s Hs. rewrite (execute_unsupported _ _ _ _ _ Hm).
  destruct st as [w tool]. pose proof (prepare_sends_only path w tool s Hs) as Hp.
  destruct (prepare path (w, tool)) as [[early|uri] st1|e st1| |]; try done;
    destruct Hp as (s1 & ? & ? & ?); by eexists _, st1, s1.
Qed.

End Validation.

(** ** Waiting: arrival, silence, end of stream *)

Section Arrival.
Context {P : Platform}.

Lemma select_chunk w self k t c s r :
  sock self = Some k -> inbox k = (t, String c s) :: r ->
  select_select 100 (w, self)
  = if t <? clock w + 100
    then Ret true (set_clock (Z.max (clock w) t) w, self)
    else Ret false (set_clock (clock w + 100) w, self).
Proof.
  intros Hk Hib. unfold select_select. rewrite Hk, Hib. cbn [norm].
  destruct (t <=? clock w) eqn:E1.
  - assert ((t <? clock w + 100) = true) as -> by lia.
    rewrite Z.max_l by lia. by rewrite set_clock_same.
  - destruct (t <? clock w + 100) eqn:E2; [|done].
    rewrite Z.max_r by lia. done.
Qed.

(** The loop polls until the first chunk is there, then reads. *)
Lemma wait_loop_arrival fuel : forall w self k t c s r target start timeout,
  sock self = Some k -> inbox k = (t, String c s) :: r ->
  t < start + timeout -> clock w < start + timeout ->
  (ticks (start + timeout) (w, self) <= fuel)%nat ->
  exists fuel',
    wait_loop fuel target start timeout (w, self)
    = match recv_message (set_clock (Z.max (clock w) t) w, self) with
      | Ret message st2 =>
          match message_get message "id" JNull st2 with
          | Ret i st3 =>
              if eq_int i target then Ret message st3
              else wait_loop fuel' target start timeout st3
          | Raise e st3 => Raise e st3
          | Hang => Hang
          | NoFuel => NoFuel
          end
      | Raise e st2 => Raise e st2
      | Hang => Hang
      | NoFuel => NoFuel
      end.
Proof.
  induction fuel as [|fuel IH]; intros w self k t c s r target start timeout Hk Hib Ht Hc Hfuel.
  { unfold ticks in Hfuel. cbn in Hfuel. revert Hfuel. Z.div_mod_to_equations. lia. }
  rewrite wait_loop_poll by (cbn; lia).
  rewrite (select_chunk w self k t c s r Hk Hib).
  destruct (t <? clock w + 100) eqn:Et.
  - by exists fuel.
  - destruct (IH (set_clock (clock w + 100) w) self k t c s r target start timeout Hk Hib Ht)
      as [fuel' Hres].
    + cbn. lia.
    + unfold ticks in *. cbn in *. revert Hfuel. Z.div_mod_to_equations. lia.
    + exists fuel'. rewrite Hres. cbn [clock set_clock].
      rewrite set_clock_twice. by replace (Z.max (clock w + 100) t) with (Z.max (clock w) t) by lia.
Qed.

Lemma wait_for_arrival w self k t c s r target timeout :
  sock self = Some k -> inbox k = (t, String c s) :: r ->
  t < clock w + timeout -> 0 < timeout ->
  exists fuel',
    _wait_for target timeout (w, self)
    = match recv_message (set_clock (Z.max (clock w) t) w, self) with
      | Ret message st2 =>
          match message_get message "id" JNull st2 with
          | Ret i st3 =>
              if eq_int i target then Ret message st3
              else wait_loop fuel' target (clock w) timeout st3
          | Raise e st3 => Raise e st3
          | Hang => Hang
          | NoFuel => NoFuel
          end
      | Raise e st2 => Raise e st2
      | Hang => Hang
      | NoFuel => NoFuel
      end.
Proof.
  intros Hk Hib Ht Hpos. rewrite wait_for_unfold.
  apply (wait_loop_arrival _ w self k t c s r); [done|done|done|cbn; lia|].
  pose proof (wait_fuel_enough (w, self) timeout 0 ltac:(lia)) as H. exact H.
Qed.

End Arrival.

Section Idle.
Context {P : Platform}.

Lemma wait_loop_idle fuel : forall w self k target start timeout,
  sock self = Some k -> inbox k = [] -> eof k = false ->
  (ticks (start + timeout) (w, self) <= fuel)%nat ->
  wait_loop fuel target start timeout (w, self)
  = Ret JNull (set_clock (deadline (clock w) (start + timeout - clock w)) w, self).
Proof.
  induction fuel as [|fuel IH]; intros w self k target start timeout Hk Hib He Hfuel.
  all: destruct (clock w - start <? timeout) eqn:E.
  all: try (rewrite wait_loop_expired by done; unfold deadline;
            rewrite Z.max_l by lia; change ((0 + 99) / 100) with 0;
            rewrite Z.mul_0_r, Z.add_0_r; by rewrite set_clock_same).
  - unfold ticks in Hfuel. cbn in Hfuel. revert Hfuel. Z.div_mod_to_equations. lia.
  - rewrite wait_loop_poll by done. rewrite (select_idle w self k Hk Hib He).
    rewrite (IH _ self k target start timeout Hk Hib He).
    + rewrite set_clock_twice. f_equal. f_equal. f_equal. cbn [clock set_clock]. unfold deadline.
      apply Z.ltb_lt in E. rewrite (Z.max_r 0 (start + timeout - clock w)) by lia.
      destruct (Z.max_spec 0 (start + timeout - (clock w + 100))) as [[? ->]|[? ->]];
        Z.div_mod_to_equations; lia.
    + unfold ticks in *. cbn in *. revert Hfuel. Z.div_mod_to_equations. lia.
Qed.

(** X2. On a connection that stays open and silent, [_wait_for] reads
    nothing and returns [None] at the first polling instant at or after
    the timeout: the wait lasts the timeout rounded up to a multiple of
    the 100 ms [select] interval, and no time at all when the timeout is
    not positive. *)
Theorem wait_for_idle_timeout w self k target timeout :
  sock self = Some k -> inbox k = [] -> eof k = false ->
  _wait_for target timeout (w, self)
  = Ret JNull (set_clock (deadline (clock w) timeout) w, self).
Proof.
  intros Hk Hib He. rewrite wait_for_unfold. cbn [fst].
  rewrite (wait_loop_idle _ w self k target (clock w) timeout Hk Hib He).
  - by replace (clock w + timeout - clock w) with timeout by lia.
  - exact (wait_fuel_enough (w, self) timeout 0 ltac:(lia)).
Qed.

Lemma wait_for_eof_hangs w self k target timeout :
  sock self = Some k -> inbox k = [] -> eof k = true -> 0 < timeout ->
  _wait_for target timeout (w, self) = Hang.
Proof.
  intros Hk Hib He Hpos. rewrite wait_for_unfold. cbn [fst].
  unfold wait_fuel. cbn [snd]. rewrite Hk. cbn [from_option]. rewrite Hib. cbn [bytes_in Nat.add].
  destruct (Z.to_nat (timeout / 100 + 1)) as [|fuel] eqn:Ef.
  { revert Ef. Z.div_mod_to_equations. lia. }
  rewrite wait_loop_poll by (cbn; lia).
  unfold select_select. rewrite Hk, Hib, He. cbn [norm].
  unfold recv_message. rewrite bind_unfold. cbn [get snd]. rewrite Hk. cbn [from_option].
  rewrite Hib. cbn [bytes_in]. rewrite bind_unfold. cbn [read_header].
  change (PyStr.endswith EmptyString PyStr.CRLFCRLF) with false. cbv iota.
  rewrite bind_unfold. unfold sock_recv. rewrite Hk, Hib, He. reflexivity.
Qed.

Lemma wait_for_finds skipped d rest w self k target timeout :
  sock self = Some k -> inbox k = frames_of (skipped ++ d :: rest) ->
  Forall well_formed (skipped ++ [d]) ->
  Forall (fun x => answers target (content x) = false) skipped ->
  answers target (content d) = true ->
  Forall (fun x => arrival x < clock w + timeout) (skipped ++ [d]) ->
  0 < timeout ->
  exists c, clock w <= c < clock w + timeout /\
    _wait_for target timeout (w, self)
    = Ret (JDict (content d)) (set_clock c w, with_inbox (frames_of rest) k self).
Proof.
  intros Hk Hib Hwf Hsk Hd Harr Hpos.
  pose proof (wait_for_reads target timeout (w, self)) as Hreads.
  rewrite wait_for_unfold in *. cbn [fst] in *.
  destruct (wait_loop_finds (wait_fuel (w, self) timeout) skipped d rest w self k
              target (clock w) timeout) as (w' & Hw' & Hres); try done; [lia| |].
  - apply (wait_fuel_enough (w, self)). unfold unread. cbn [snd]. rewrite Hk. cbn [from_option].
    rewrite Hib. etrans; [|apply frames_length]. rewrite length_app. lia.
  - rewrite Hres in Hreads. destruct Hreads as (c & Hc & Hw & _). cbn [fst] in *.
    exists c. subst w'. split; [destruct w; cbn in *; lia | done].
Qed.

(** X3. [_wait_for] only reads: whether it returns or raises, nothing
    has been written to the socket, the id counter and the file system
    are as they were, time has not gone back and no unread byte has
    appeared; and it stops of its own accord (timeout, match, exception)
    unless a read blocks. *)
Theorem wait_for_never_writes target timeout st :
  match _wait_for target timeout st with
  | Ret _ st' | Raise _ st' =>
      (sent <$> sock st'.2) = (sent <$> sock st.2) /\
      _id st'.2 = _id st.2 /\ oid st'.2 = oid st.2 /\
      files st'.1 = files st.1 /\ connect_calls st'.1 = connect_calls st.1 /\
      clock st.1 <= clock st'.1 /\ (unread st' <= unread st)%nat
  | Hang => True
  | NoFuel => False
  end.
Proof.
  pose proof (wait_for_reads target timeout st) as H.
  assert (forall st', reads_only st st' ->
            (sent <$> sock st'.2) = (sent <$> sock st.2) /\
            _id st'.2 = _id st.2 /\ oid st'.2 = oid st.2 /\
            files st'.1 = files st.1 /\ connect_calls st'.1 = connect_calls st.1 /\
            clock st.1 <= clock st'.1 /\ (unread st' <= unread st)%nat) as Himp.
  { intros st' Hr. pose proof (reads_only_unread _ _ Hr) as Hu.
    pose proof (reads_only_clock _ _ Hr) as Hc.
    destruct Hr as (c & _ & Hw & Hself). destruct st as [w self], st' as [w' self'].
    cbn [fst snd] in *. subst w'.
    destruct (sock self) as [k|] eqn:Hk.
    - destruct Hself as (ib & -> & _). cbn. by destruct w.
    - rewrite Hself in *. rewrite Hk. by destruct w. }
  destruct (_wait_for target timeout st) as [r st'|e st'| |]; try done; by apply Himp.
Qed.

End Idle.

(** ** Header blocks *)

Section Blocks.
Context {P : Platform}.

Lemma parse_headers_fold line :
  parse_headers line = foldl header_step ∅ (PyStr.split_crlf line).
Proof. reflexivity. Qed.

Lemma header_is_block n : header n = header_block [length_line n].
Proof. unfold header, length_line. cbn [header_block]. by rewrite !str_app_assoc. Qed.

Lemma split_block ls :
  Forall header_line ls ->
  PyStr.split_crlf (header_block ls) = ls ++ [EmptyString; EmptyString].
Proof.
  induction ls as [|l ls IH]; intros Hls; [reflexivity|].
  apply Forall_cons in Hls as [[_ Hl] Hls]. cbn [header_block app].
  rewrite split_crlf_line by done. by rewrite IH.
Qed.

Lemma parse_headers_block ls :
  Forall header_line ls -> parse_headers (header_block ls) = foldl header_step ∅ ls.
Proof. intros Hls. by rewrite parse_headers_fold, split_block, foldl_app. Qed.

Lemma block_ends ls : ls <> [] -> exists pre, header_block ls = pre +:+ PyStr.CRLFCRLF.
Proof.
  induction ls as [|l ls IH]; [done|]. intros _. destruct ls as [|l' ls].
  - exists l. reflexivity.
  - destruct (IH ltac:(done)) as [pre Hpre]. exists (l +:+ PyStr.CRLF +:+ pre).
    change (header_block (l :: l' :: ls)) with (l +:+ PyStr.CRLF +:+ header_block (l' :: ls)).
    by rewrite Hpre, !str_app_assoc.
Qed.

Lemma line_terminator l rest a q :
  no_cr l ->
  (forall a' q', rest = a' +:+ PyStr.CRLFCRLF +:+ q' -> q' = EmptyString) ->
  (forall s, rest <> String PyStr.CR s) ->
  l +:+ PyStr.CRLF +:+ rest = a +:+ PyStr.CRLFCRLF +:+ q -> q = EmptyString.
Proof.
  intros Hl Hrest Hhead. revert a. induction l as [|c l IH]; intros a Heq.
  - rewrite str_app_nil_l in Heq. destruct a as [|d [|d' a]].
    + injection Heq as Heq. by destruct (Hhead _ Heq).
    + cbn in Heq. injection Heq as _ Heq. discriminate.
    + cbn in Heq. injection Heq as _ _ Heq. by eapply Hrest.
  - destruct Hl as [Hc Hl]. destruct a as [|d a].
    + cbn in Heq. injection Heq as Heq _. done.
    + rewrite !str_app_cons in Heq. injection Heq as _ Heq. by eapply IH.
Qed.

Lemma block_terminator ls a q :
  ls <> [] -> Forall header_line ls ->
  header_block ls = a +:+ PyStr.CRLFCRLF +:+ q -> q = EmptyString.
Proof.
  revert a q. induction ls as [|l ls IH]; [done|]. intros a q _ Hls Heq.
  apply Forall_cons in Hls as [[Hne Hl] Hls]. destruct ls as [|l' ls].
  - exact (terminator_once l a q Hl Heq).
  - apply (line_terminator l (header_block (l' :: ls)) a q Hl); [| |done].
    + intros a' q'. by apply IH.
    + intros s Hs. apply Forall_cons in Hls as [[Hne' Hl'] _].
      destruct l' as [|c l']; [done|]. destruct Hl' as [Hc _].
      cbn [header_block] in Hs. rewrite str_app_cons in Hs. by injection Hs as Hs _.
Qed.

Lemma header_step_other headers l key :
  header_key l <> key -> header_step headers l !! key = headers !! key.
Proof.
  intros Hkey. unfold header_step, header_key in *.
  destruct (PyStr.contains ":" l); [|done].
  destruct (PyStr.split_once ":" l) as [k v]. by apply lookup_insert_ne.
Qed.

Lemma headers_other ls key : forall headers,
  Forall (fun l => header_key l <> key) ls ->
  foldl header_step headers ls !! key = headers !! key.
Proof.
  induction ls as [|l ls IH]; intros headers Hls; [done|].
  apply Forall_cons in Hls as [Hl Hls]. cbn [foldl]. rewrite IH by done.
  by apply header_step_other.
Qed.

Lemma length_line_step headers n :
  header_step headers (length_line n) !! "Content-Length"%string = Some (PyStr.str_of_nat n).
Proof.
  unfold header_step, length_line.
  change (PyStr.contains ":" ("Content-Length: " +:+ PyStr.str_of_nat n)) with true.
  change (PyStr.split_once ":" ("Content-Length: " +:+ PyStr.str_of_nat n))
    with ("Content-Length"%string, String " " (PyStr.str_of_nat n)).
  cbv iota beta.
  change (PyStr.strip "Content-Length") with "Content-Length"%string.
  assert (PyStr.strip (String " " (PyStr.str_of_nat n)) = PyStr.str_of_nat n) as ->.
  { unfold PyStr.strip. cbn [PyStr.lstrip]. change (PyStr.is_space " ") with true. cbv iota.
    apply strip_digits, str_of_nat_digits. }
  apply lookup_insert_eq.
Qed.

Lemma length_line_ok n : header_line (length_line n).
Proof. split; [done | apply header_no_cr]. Qed.

(** [recv_message] reads a header block to its blank line, whatever its
    lines are, and then the number of bytes [headers] asks for. *)
Lemma recv_message_block ls w self k t tail r :
  ls <> [] -> Forall header_line ls ->
  sock self = Some k -> inbox k = (t, header_block ls +:+ tail) :: r -> t <= clock w ->
  recv_message (w, self)
  = (n ← content_length (foldl header_step ∅ ls);
     body ← sock_recv n;
     match json_loads body with
     | inl e => raise e
     | inr message => mret message
     end) (w, with_inbox (chunk_cons t tail r) k self).
Proof.
  intros Hne Hls Hk Hib Ht. unfold recv_message.
  rewrite bind_unfold. cbn [get fst snd].
  rewrite Hk. cbn [from_option]. rewrite Hib.
  rewrite bind_unfold.
  rewrite (read_header_spec (header_block ls) EmptyString _ w self k t tail r);
    [ | | done | done | done | | | ].
  - by rewrite str_app_nil_l, parse_headers_block.
  - destruct ls as [|[|c l] ls]; [done| |done].
    apply Forall_cons in Hls as [[Hl _] _]. done.
  - intros p q Hp Hq. rewrite str_app_nil_l.
    destruct (PyStr.endswith p PyStr.CRLFCRLF) eqn:E; [|done].
    apply endswith_spec in E as [a ->].
    rewrite (str_app_assoc a) in Hp. by apply block_terminator in Hp.
  - rewrite str_app_nil_l. apply endswith_spec. by apply block_ends.
  - cbn [bytes_in]. rewrite str_length_app. lia.
Qed.

End Blocks.

(** ** Frames the reader cannot use, frames in parts *)

Lemma recv_partial w self k t c b1 t2 b2 r n :
  sock self = Some k -> inbox k = (t, String c b1) :: (t2, b2) :: r ->
  t <= clock w -> clock w < t2 -> (String.length (String c b1) <= n)%nat ->
  sock_recv (Z.of_nat n) (w, self)
  = Ret (String c b1) (w, with_inbox ((t2, b2) :: r) k self).
Proof.
  intros Hk Hib Ht Ht2 Hn. unfold sock_recv. rewrite Hk.
  assert ((Z.of_nat n <? 0) = false) as -> by (apply Z.ltb_ge; lia).
  assert ((Z.of_nat n =? 0) = false) as -> by (apply Z.eqb_neq; simpl in Hn; lia).
  rewrite Hib. cbn [norm]. rewrite Z.max_l by lia. rewrite set_clock_same, Nat2Z.id.
  cbn [take_avail].
  assert ((n =? 0)%nat = false) as -> by (apply Nat.eqb_neq; simpl in Hn; lia).
  assert ((t <=? clock w) = true) as -> by lia. cbn [orb negb].
  assert ((String.length (String c b1) <=? n)%nat = true) as -> by (by apply Nat.leb_le).
  assert ((t2 <=? clock w) = false) as -> by lia. cbn [negb]. rewrite orb_true_r.
  by rewrite str_app_nil_r.
Qed.

Section Malformed.
Context {P : Platform}.

Lemma block_cons ls tail : exists c s, header_block ls +:+ tail = String c s.
Proof.
  destruct ls as [|[|c l] ls]; cbn [header_block]; rewrite ?str_app_cons; by eexists _, _.
Qed.

(** X8. [_wait_for] does not catch what [json.loads] raises: a frame whose
    body is not a JSON text ends the wait with that exception, the frame
    read and gone. *)
Theorem wait_for_raises_on_bad_body w self k t body r target timeout e :
  sock self = Some k -> inbox k = (t, frame body) :: r ->
  t < clock w + timeout -> 0 < timeout ->
  json_loads body = inl e ->
  _wait_for target timeout (w, self)
  = Raise e (set_clock (Z.max (clock w) t) w, with_inbox r k self).
Proof.
  intros Hk Hib Ht Hpos Hjson.
  destruct (frame_cons body) as [s Hs]. rewrite Hs in Hib.
  destruct (wait_for_arrival w self k t _ s r target timeout Hk Hib Ht Hpos) as [fuel' ->].
  rewrite <- Hs in Hib.
  rewrite (recv_message_frame _ self k t body r Hk Hib) by (cbn; lia).
  by rewrite Hjson.
Qed.

(** X9. A frame whose body is a JSON text but not an object (a list, a
    string, a number, [null]) makes [message.get] fail: the wait ends
    with AttributeError. *)
Theorem wait_for_raises_on_non_object w self k t body r target timeout v :
  sock self = Some k -> inbox k = (t, frame body) :: r ->
  t < clock w + timeout -> 0 < timeout ->
  json_loads body = inr v -> (forall d, v <> JDict d) ->
  _wait_for target timeout (w, self)
  = Raise (Exn AttributeError ("'" +:+ type_name v +:+ "' object has no attribute 'get'"))
          (set_clock (Z.max (clock w) t) w, with_inbox r k self).
Proof.
  intros Hk Hib Ht Hpos Hjson Hv.
  destruct (frame_cons body) as [s Hs]. rewrite Hs in Hib.
  destruct (wait_for_arrival w self k t _ s r target timeout Hk Hib Ht Hpos) as [fuel' ->].
  rewrite <- Hs in Hib.
  rewrite (recv_message_frame _ self k t body r Hk Hib) by (cbn; lia).
  rewrite Hjson. destruct v as [| | | | |d]; try reflexivity. by destruct (Hv d).
Qed.

(** X6. [recv(content_length)] is called once: when only the first part
    of a body has arrived with the header, that part alone goes to
    [json.loads], and the rest stays in the socket. *)
Theorem split_body_is_truncated w self k t c b1 t2 b2 r target timeout e :
  sock self = Some k ->
  inbox k = (t, header (String.length (String c b1 +:+ b2)) +:+ String c b1) :: (t2, b2) :: r ->
  t < clock w + timeout -> 0 < timeout -> Z.max (clock w) t < t2 ->
  json_loads (String c b1) = inl e ->
  _wait_for target timeout (w, self)
  = Raise e (set_clock (Z.max (clock w) t) w, with_inbox ((t2, b2) :: r) k self).
Proof.
  intros Hk Hib Ht Hpos Ht2 Hjson.
  set (n := String.length (String c b1 +:+ b2)) in *.
  rewrite header_is_block in Hib.
  destruct (block_cons [length_line n] (String c b1)) as (c0 & s0 & Hs). rewrite Hs in Hib.
  destruct (wait_for_arrival w self k t _ s0 _ target timeout Hk Hib Ht Hpos) as [fuel' ->].
  rewrite <- Hs in Hib.
  assert (Forall header_line [length_line n]) as Hls
    by (apply Forall_singleton, length_line_ok).
  rewrite (recv_message_block [length_line n] _ self k t (String c b1) _ ltac:(done) Hls Hk Hib)
    by (cbn; lia).
  rewrite bind_unfold. unfold content_length. cbn [foldl].
  rewrite length_line_step, int_of_str_of_nat. cbn [mret M_ret].
  rewrite bind_unfold. cbn [chunk_cons].
  rewrite (recv_partial _ _ (set_inbox ((t, String c b1) :: (t2, b2) :: r) k) t c b1 t2 b2 r n);
    [ | done | done | cbn; lia | cbn; lia | ].
  - rewrite Hjson. unfold raise. by rewrite with_inbox_twice.
  - subst n. rewrite str_length_app. lia.
Qed.

(** X5. In an ASCII header block the length is looked up under the
    exact key [Content-Length]: when no line of the block has it, the
    length defaults to 0, nothing of the body is read and [json.loads]
    gets the empty text. *)
Theorem missing_content_length_reads_nothing ls w self k t tail r target timeout e :
  ls <> [] -> Forall header_line ls ->
  Forall (fun l => all_ascii l = true) ls ->
  Forall (fun l => header_key l <> "Content-Length"%string) ls ->
  sock self = Some k -> inbox k = (t, header_block ls +:+ tail) :: r ->
  t < clock w + timeout -> 0 < timeout ->
  json_loads EmptyString = inl e ->
  _wait_for target timeout (w, self)
  = Raise e (set_clock (Z.max (clock w) t) w, with_inbox (chunk_cons t tail r) k self).
Proof.
  intros Hne Hls _ Hkeys Hk Hib Ht Hpos Hjson.
  destruct (block_cons ls tail) as (c0 & s0 & Hs). rewrite Hs in Hib.
  destruct (wait_for_arrival w self k t _ s0 _ target timeout Hk Hib Ht Hpos) as [fuel' ->].
  rewrite <- Hs in Hib.
  rewrite (recv_message_block ls _ self k t tail r Hne Hls Hk Hib) by (cbn; lia).
  rewrite bind_unfold. unfold content_length.
  rewrite (headers_other ls "Content-Length" ∅ Hkeys), lookup_empty. cbn [mret M_ret].
  rewrite bind_unfold. unfold sock_recv. cbn [with_inbox set_sock sock].
  change (0 <? 0) with false. change (0 =? 0) with true. cbv iota.
  by rewrite Hjson.
Qed.

(** X4. Other ASCII header lines around the [Content-Length] line (LSP
    allows [Content-Type]) do not disturb the reader: the body is read
    whole and the matching reply is returned. *)
Theorem extra_header_lines_ignored before after w self k t body r target timeout message :
  Forall header_line (before ++ after) ->
  Forall (fun l => all_ascii l = true) (before ++ after) ->
  Forall (fun l => header_key l <> "Content-Length"%string) after ->
  sock self = Some k ->
  inbox k = (t, header_block (before ++ length_line (String.length body) :: after) +:+ body) :: r ->
  t < clock w + timeout -> 0 < timeout ->
  json_loads body = inr (JDict message) -> answers target message = true ->
  _wait_for target timeout (w, self)
  = Ret (JDict message) (set_clock (Z.max (clock w) t) w, with_inbox r k self).
Proof.
  intros Hls _ Hafter Hk Hib Ht Hpos Hjson Hans.
  set (ls := before ++ length_line (String.length body) :: after) in *.
  assert (Forall header_line ls) as Hls'.
  { apply Forall_app in Hls as [H1 H2]. apply Forall_app. split; [done|].
    constructor; [apply length_line_ok | done]. }
  assert (ls <> []) as Hne by (subst ls; by destruct before).
  destruct (block_cons ls body) as (c0 & s0 & Hs). rewrite Hs in Hib.
  destruct (wait_for_arrival w self k t _ s0 _ target timeout Hk Hib Ht Hpos) as [fuel' ->].
  rewrite <- Hs in Hib.
  rewrite (recv_message_block ls _ self k t body r Hne Hls' Hk Hib) by (cbn; lia).
  rewrite bind_unfold. unfold content_length.
  assert (foldl header_step ∅ ls !! "Content-Length"%string
          = Some (PyStr.str_of_nat (String.length body))) as ->.
  { subst ls. rewrite foldl_app. cbn [foldl]. rewrite headers_other by done.
    apply length_line_step. }
  rewrite int_of_str_of_nat. cbn [mret M_ret]. rewrite bind_unfold.
  rewrite (recv_body _ _ (set_inbox (chunk_cons t body r) k) t body r); [|done|done|cbn; lia].
  rewrite Hjson. cbn [mret M_ret message_get]. rewrite with_inbox_twice.
  fold (answers target message). by rewrite Hans.
Qed.

End Malformed.

Lemma recv_one_blocking w self k t c s r :
  sock self = Some k -> inbox k = (t, String c s) :: r ->
  sock_recv 1 (w, self)
  = Ret (String c EmptyString)
        (set_clock (Z.max (clock w) t) w, with_inbox (chunk_cons t s r) k self).
Proof.
  intros Hk Hib. unfold sock_recv. rewrite Hk, Hib. cbn [norm].
  change (1 <? 0) with false. change (1 =? 0) with false. cbv iota.
  change (Z.to_nat 1) with 1%nat. cbn [take_avail].
  change (1 =? 0)%nat with false. rewrite orb_false_l.
  assert ((t <=? Z.max (clock w) t) = true) as -> by lia. cbn [negb].
  destruct s as [|c' s]; cbn [String.length Nat.leb Nat.sub].
  - by rewrite take_avail_0.
  - reflexivity.
Qed.

Section Late.
Context {P : Platform}.

Lemma read_header_step fuel line st :
  PyStr.endswith line PyStr.CRLFCRLF = false ->
  read_header (S fuel) line st
  = match sock_recv 1 st with
    | Ret b st' =>
        match b with
        | EmptyString => Hang
        | _ => read_header fuel (line +:+ b) st'
        end
    | Raise e st' => Raise e st'
    | Hang => Hang
    | NoFuel => NoFuel
    end.
Proof.
  intros Hl. cbn [read_header]. rewrite Hl, bind_unfold.
  destruct (sock_recv 1 st) as [[|c b] st'|e st'| |]; reflexivity.
Qed.

Lemma recv_message_late w self k t t2 rest r body :
  sock self = Some k -> inbox k = (t, "C"%string) :: (t2, rest) :: r ->
  String "C" rest = frame body -> t <= clock w ->
  recv_message (w, self)
  = match json_loads body with
    | inl e => Raise e (set_clock (Z.max (clock w) t2) w, with_inbox r k self)
    | inr message => Ret message (set_clock (Z.max (clock w) t2) w, with_inbox r k self)
    end.
Proof.
  intros Hk Hib Hframe Ht.
  set (n := String.length body).
  set (h := "ntent-Length: " +:+ PyStr.str_of_nat n +:+ PyStr.CRLFCRLF).
  assert (rest = String "o" (h +:+ body)) as ->.
  { unfold frame in Hframe. fold n in Hframe. rewrite !str_app_cons in Hframe.
    injection Hframe as ->. subst h. by rewrite !str_app_cons, !str_app_assoc. }
  assert (header n = "Co" +:+ h) as Hh by reflexivity.
  unfold recv_message. rewrite bind_unfold. cbn [get fst snd]. rewrite Hk. cbn [from_option].
  rewrite Hib. cbn [bytes_in String.length Nat.add]. rewrite bind_unfold.
  rewrite read_header_step by reflexivity.
  rewrite (recv_one w self k t "C" EmptyString _ Hk Hib Ht).
  cbn [chunk_cons]. rewrite str_app_nil_l.
  rewrite read_header_step by reflexivity.
  set (ib1 := (t2, String "o" (h +:+ body)) :: r).
  rewrite (recv_one_blocking w (with_inbox ib1 k self) (set_inbox ib1 k) t2 "o" (h +:+ body) r
             eq_refl eq_refl).
  rewrite with_inbox_twice.
  set (w2 := set_clock (Z.max (clock w) t2) w).
  assert (chunk_cons t2 (h +:+ body) r = (t2, h +:+ body) :: r) as Hcc.
  { subst h. by rewrite !str_app_cons. }
  rewrite Hcc. change ("C" +:+ "o")%string with "Co"%string.
  set (ib2 := (t2, h +:+ body) :: r).
  rewrite (read_header_spec h "Co" _ w2 (with_inbox ib2 k self) (set_inbox ib2 k) t2 body r);
    [ | done | done | done | subst w2; cbn; lia | | | ].
  - rewrite <- Hh, bind_unfold. unfold content_length.
    rewrite parse_headers_header, int_of_str_of_nat. cbn [mret M_ret].
    rewrite bind_unfold, with_inbox_twice.
    rewrite (recv_body w2 _ (set_inbox (chunk_cons t2 body r) k) t2 body r);
      [|done|done|subst w2; cbn; lia].
    rewrite with_inbox_twice. by destruct (json_loads body).
  - intros p q Hp Hq.
    destruct (PyStr.endswith ("Co" +:+ p) PyStr.CRLFCRLF) eqn:E; [|done].
    apply endswith_spec in E as [a Ha].
    assert (header n = a +:+ PyStr.CRLFCRLF +:+ q) as Hn.
    { rewrite Hh, Hp, <- str_app_assoc, Ha. by rewrite !str_app_assoc. }
    rewrite header_assoc in Hn. apply terminator_once in Hn; [done | apply header_no_cr].
  - rewrite <- Hh. apply endswith_spec. eexists. apply header_assoc.
  - rewrite !str_length_app. lia.
Qed.

(** X7. The timeout is checked between frames only.  Once the first byte
    of a frame has been seen, the byte-by-byte header read blocks until
    the rest comes: a reply whose remainder arrives at [t2], however long
    after the deadline, is still returned, at [t2]. *)
Theorem late_frame_outlasts_timeout w self k t t2 rest r body target timeout message :
  sock self = Some k -> inbox k = (t, "C"%string) :: (t2, rest) :: r ->
  String "C" rest = frame body ->
  t < clock w + timeout -> 0 < timeout ->
  json_loads body = inr (JDict message) -> answers target message = true ->
  _wait_for target timeout (w, self)
  = Ret (JDict message) (set_clock (Z.max (Z.max (clock w) t) t2) w, with_inbox r k self).
Proof.
  intros Hk Hib Hframe Ht Hpos Hjson Hans.
  destruct (wait_for_arrival w self k t "C" EmptyString _ target timeout Hk Hib Ht Hpos)
    as [fuel' ->].
  rewrite (recv_message_late _ self k t t2 rest r body Hk Hib Hframe) by (cbn; lia).
  rewrite Hjson. cbn [message_get mret M_ret]. fold (answers target message). rewrite Hans.
  by rewrite set_clock_twice.
Qed.

End Late.

(** ** Correlation, on every input *)

Section Matching.
Context {P : Platform}.

(** C4 (what the code does). Whatever the peer sends, a message that
    [_wait_for] returns is the sentinel [None] or has the awaited id.  On
    a connection that stays open and delivers each frame in one piece it
    does return: [None] after the whole timeout, or the first delivered
    message with the awaited id, every message before it (a notification,
    which has no id, or a response with another id) read and dropped,
    nothing put back; and a matching message that arrives, with
    everything before it, inside the timeout is the one returned.  But
    the body is read with a single [recv(content_length)]: when a frame
    comes in two segments, the body cut between them, the wait does not
    skip it, return it or time out; it ends with the exception
    [json.loads] raises on the first part, the rest left in the socket. *)
Theorem wait_for_id_matching target timeout :
  (forall st r st',
     _wait_for target timeout st = Ret r st' ->
     r = JNull \/ exists message, r = JDict message /\ answers target message = true) /\
  (forall w self k ds,
     sock self = Some k -> eof k = false -> inbox k = frames_of ds ->
     Forall well_formed ds ->
     (exists skipped rest w',
        ds = skipped ++ rest /\
        Forall (fun d => answers target (content d) = false) skipped /\
        clock w <= clock w' /\
        ((_wait_for target timeout (w, self)
          = Ret JNull (w', with_inbox (frames_of rest) k self) /\
          clock w + timeout <= clock w')
         \/ exists d rest',
              rest = d :: rest' /\ answers target (content d) = true /\
              arrival d < clock w + timeout + 100 /\
              _wait_for target timeout (w, self)
              = Ret (JDict (content d)) (w', with_inbox (frames_of rest') k self)))
     /\ (forall skipped d rest,
           ds = skipped ++ d :: rest ->
           Forall (fun x => answers target (content x) = false) skipped ->
           answers target (content d) = true ->
           Forall (fun x => arrival x < clock w + timeout) (skipped ++ [d]) ->
           0 < timeout ->
           exists w', clock w' < clock w + timeout /\
             _wait_for target timeout (w, self)
             = Ret (JDict (content d)) (w', with_inbox (frames_of rest) k self))) /\
  (forall w self k t c b1 t2 b2 r e,
     sock self = Some k ->
     inbox k = (t, header (String.length (String c b1 +:+ b2)) +:+ String c b1)
               :: (t2, b2) :: r ->
     t < clock w + timeout -> 0 < timeout -> Z.max (clock w) t < t2 ->
     json_loads (String c b1) = inl e ->
     _wait_for target timeout (w, self)
     = Raise e (set_clock (Z.max (clock w) t) w, with_inbox ((t2, b2) :: r) k self)).
Proof.
  split; [|split].
  - intros st r st' Hr. rewrite wait_for_unfold in Hr. by eapply wait_loop_sound.
  - intros w self k ds Hk He Hib Hwf. rewrite wait_for_unfold. cbn [fst].
    assert (length ds <= unread (w, self))%nat as Hlen.
    { unfold unread. cbn. rewrite Hk. cbn. rewrite Hib. apply frames_length. }
    split.
    + apply wait_loop_frames; try done. by apply (wait_fuel_enough (w, self)).
    + intros skipped d rest -> Hsk Hd Harr Ht.
      destruct (wait_loop_finds (wait_fuel (w, self) timeout) skipped d rest w self k
                  target (clock w) timeout) as (w' & Hw' & Hres); try done.
      * rewrite Forall_app in Hwf. destruct Hwf as [H1 H2]. apply Forall_app. split; [done|].
        apply Forall_cons in H2 as [H2 _]. by apply Forall_singleton.
      * lia.
      * apply (wait_fuel_enough (w, self)). rewrite length_app in Hlen. cbn in Hlen. lia.
      * exists w'. split; [lia | done].
  - intros w self k t c b1 t2 b2 r e Hk Hib Ht Hpos Ht2 Hjson.
    set (n := String.length (String c b1 +:+ b2)) in *.
    rewrite header_is_block in Hib.
    destruct (block_cons [length_line n] (String c b1)) as (c0 & s0 & Hs). rewrite Hs in Hib.
    destruct (wait_for_arrival w self k t _ s0 _ target timeout Hk Hib Ht Hpos) as [fuel' ->].
    rewrite <- Hs in Hib.
    assert (Forall header_line [length_line n]) as Hls
      by (apply Forall_singleton, length_line_ok).
    rewrite (recv_message_block [length_line n] _ self k t (String c b1) _ ltac:(done) Hls Hk Hib)
      by (cbn; lia).
    rewrite bind_unfold. unfold content_length. cbn [foldl].
    rewrite length_line_step, int_of_str_of_nat. cbn [mret M_ret].
    rewrite bind_unfold. cbn [chunk_cons].
    rewrite (recv_partial _ _ (set_inbox ((t, String c b1) :: (t2, b2) :: r) k) t c b1 t2 b2 r n);
      [ | done | done | cbn; lia | cbn; lia | ].
    + rewrite Hjson. unfold raise. by rewrite with_inbox_twice.
    + subst n. rewrite str_length_app. lia.
Qed.

End Matching.

(** ** A query through a connected session *)

Section Established.
Context {P : Platform}.

Lemma prepare_established path w tool s k content :
  _session tool = Some s -> sock s = Some k -> send_budget k <> Some 0%nat ->
  files w !! abspath path = Some (Readable content) ->
  prepare path (w, tool)
  = Ret (inr ("file://" +:+ abspath path))
        (set_clock (clock w + 300) w,
         Tool (Some (set_sock (Some (pushed (did_open_frame path content) k)) s))).
Proof.
  intros Hs Hk Hb Hf. unfold prepare. rewrite bind_unfold.
  rewrite (ensure_session_some (w, tool) s Hs).
  rewrite open_document_unfold, Hf.
  rewrite (on_session_some _ w tool s Hs).
  by rewrite (send_ok _ _ _ w s k Hk Hb).
Qed.

(** With a connected session and a readable file, [execute] is: write
    didOpen, sleep, write the query, wait for its id, report. *)
Lemma execute_established path action method line character w tool s k content :
  _session tool = Some s -> sock s = Some k -> send_budget k = None ->
  files w !! abspath path = Some (Readable content) ->
  lsp_method action = Some method ->
  execute path action line character (w, tool)
  = reported (_wait_for (_id s + 1) 3000
                (set_clock (clock w + 300) w,
                 queried path content method line character k s)).
Proof.
  intros Hs Hk Hb Hf Hm. rewrite execute_unfold.
  rewrite (prepare_established path w tool s k content Hs Hk ltac:(by rewrite Hb) Hf).
  unfold try_except. rewrite (dispatch_supported _ _ _ _ _ Hm), bind_unfold.
  rewrite (on_session_some _ _ (Tool (Some _)) _ eq_refl).
  rewrite request_unfold. cbn [_id set_sock set_id].
  rewrite (send_ok _ _ _ _ _ (pushed (did_open_frame path content) k)) by (cbn; by rewrite ?Hb).
  cbn [snd _id set_sock set_id]. unfold queried, request_frame.
  destruct (_wait_for _ _ _) as [[| | | | |d] [w' s']|e [w' s']| |]; reflexivity.
Qed.

End Established.

Section Answers.
Context {P : Platform}.

(** X10. With a connected session and a readable file, [execute] writes
    two frames, the didOpen notification and the query under the next id,
    and returns the [result] field of the first reply that carries that
    id, rendered with [indent=2]; replies with other ids and
    notifications before it are dropped, what follows it stays unread. *)
Theorem execute_returns_result
    path action method line character w tool s k contents skipped d rest result :
  _session tool = Some s -> sock s = Some k -> send_budget k = None ->
  files w !! abspath path = Some (Readable contents) ->
  lsp_method action = Some method ->
  inbox k = frames_of (skipped ++ d :: rest) ->
  Forall well_formed (skipped ++ [d]) ->
  Forall (fun x => answers (_id s + 1) (content x) = false) skipped ->
  answers (_id s + 1) (content d) = true ->
  Forall (fun x => arrival x < clock w + 3300) (skipped ++ [d]) ->
  dict_get "result" (content d) = Some result ->
  exists c s',
    clock w + 300 <= c < clock w + 3300 /\
    execute path action line character (w, tool)
    = Ret (tool_output (json_dumps (Some 2%nat) result)) (set_clock c w, Tool (Some s')) /\
    _id s' = _id s + 1 /\
    (sent <$> sock s')
    = Some (sent k ++ [did_open_frame path contents;
                       request_frame method ("file://" +:+ abspath path) line character
                         (_id s + 1)]) /\
    (inbox <$> sock s') = Some (frames_of rest).
Proof.
  intros Hs Hk Hb Hf Hm Hib Hwf Hsk Hd Harr Hres.
  rewrite (execute_established path action method line character w tool s k contents) by done.
  set (k2 := pushed (request_frame method ("file://" +:+ abspath path) line character (_id s + 1))
               (pushed (did_open_frame path contents) k)).
  destruct (wait_for_finds skipped d rest (set_clock (clock w + 300) w)
              (queried path contents method line character k s) k2 (_id s + 1) 3000)
    as (c & Hc & ->); try done.
  - eapply Forall_impl; [exact Harr|]. intros x Hx. cbn in Hx |- *. lia.
  - cbn [clock set_clock] in Hc.
    exists c, (with_inbox (frames_of rest) k2 (queried path contents method line character k s)).
    split; [lia|]. cbn [reported fst snd]. rewrite Hres, set_clock_twice. cbn [default].
    split; [done|]. split; [done|]. split; [|done].
    cbn. by rewrite <- app_assoc.
Qed.

(** C10. With a connected session and a readable file, when the first
    reply that carries the id of the query has no [result] field (an LSP
    error reply, which has [error] instead, is one), [execute] returns
    the success payload whose output is the empty structure: the default
    of [result.get("result", {})] rendered by [json.dumps]; the [error]
    field is not read and no error is reported. *)
Theorem error_reply_renders_empty
    path action method line character w tool s k contents skipped d rest :
  _session tool = Some s -> sock s = Some k -> send_budget k = None ->
  files w !! abspath path = Some (Readable contents) ->
  lsp_method action = Some method ->
  inbox k = frames_of (skipped ++ d :: rest) ->
  Forall well_formed (skipped ++ [d]) ->
  Forall (fun x => answers (_id s + 1) (content x) = false) skipped ->
  answers (_id s + 1) (content d) = true ->
  Forall (fun x => arrival x < clock w + 3300) (skipped ++ [d]) ->
  dict_get "result" (content d) = None ->
  exists c s',
    clock w + 300 <= c < clock w + 3300 /\
    execute path action line character (w, tool)
    = Ret (MkToolResult (Some "{}"%string) None) (set_clock c w, Tool (Some s')) /\
    _id s' = _id s + 1 /\
    (inbox <$> sock s') = Some (frames_of rest).
Proof.
  intros Hs Hk Hb Hf Hm Hib Hwf Hsk Hd Harr Hres.
  rewrite (execute_established path action method line character w tool s k contents) by done.
  set (k2 := pushed (request_frame method ("file://" +:+ abspath path) line character (_id s + 1))
               (pushed (did_open_frame path contents) k)).
  destruct (wait_for_finds skipped d rest (set_clock (clock w + 300) w)
              (queried path contents method line character k s) k2 (_id s + 1) 3000)
    as (c & Hc & ->); try done.
  - eapply Forall_impl; [exact Harr|]. intros x Hx. cbn in Hx |- *. lia.
  - cbn [clock set_clock] in Hc.
    exists c, (with_inbox (frames_of rest) k2 (queried path contents method line character k s)).
    split; [lia|]. cbn [reported fst snd]. rewrite Hres, set_clock_twice. cbn [default].
    by repeat split.
Qed.

(** X12. When the server accepts the connection and closes it without
    sending anything, the first [execute] never returns, whatever file
    and action it was given: [start] writes the initialize frame, then
    [select] reports the socket readable, [recv(1)] returns no byte, and
    the header loop of [_wait_for] repeats without reaching its timeout
    check or raising. *)
Theorem first_call_hangs_when_server_closes path action line character w tool k :
  _session tool = None ->
  endpoints w !! ("127.0.0.1"%string, 2087) = Some k ->
  inbox k = [] -> eof k = true -> send_budget k <> Some 0%nat ->
  execute path action line character (w, tool) = Hang.
Proof.
  intros Hs He Hib Heof Hb. rewrite execute_unfold. unfold prepare. rewrite bind_unfold.
  rewrite (ensure_session_none w tool Hs), start_unfold.
  cbn [host port fresh_session after_init endpoints]. rewrite He.
  rewrite (send_ok _ _ _ _ _ k) by done. cbn [snd _id set_sock set_id].
  by rewrite (wait_for_eof_hangs _ _ (pushed (frame (json_dumps None
                (JDict (payload "initialize" initialize_params None)))) k)).
Qed.

(** X18. When the pipe is broken (the server has closed the connection
    and the client has written to it since), a call through the session
    ends with BrokenPipeError at its first write that fails.  If that is
    the didOpen notification, [execute] reports it at once and nothing
    changes.  If it is the query, [execute] reports it after the settle
    delay, without waiting for a reply: the didOpen frame is written and
    the id of the query is used up. *)
Theorem broken_pipe_ends_the_call path action method line character w tool s k contents :
  _session tool = Some s -> sock s = Some k ->
  files w !! abspath path = Some (Readable contents) ->
  lsp_method action = Some method ->
  (send_budget k = Some 0%nat ->
   execute path action line character (w, tool)
   = Ret (tool_error "LSP tool error: [Errno 32] Broken pipe") (w, tool)) /\
  (send_budget k = Some 1%nat ->
   execute path action line character (w, tool)
   = Ret (tool_error "LSP tool error: [Errno 32] Broken pipe")
         (set_clock (clock w + 300) w,
          Tool (Some (set_id (_id s + 1)
                        (set_sock (Some (pushed (did_open_frame path contents) k)) s))))).
Proof.
  intros Hs Hk Hf Hm. split; intros Hb.
  - rewrite execute_unfold. unfold prepare. rewrite bind_unfold.
    rewrite (ensure_session_some (w, tool) s Hs).
    rewrite open_document_unfold, Hf, (on_session_some _ w tool s Hs).
    rewrite (send_broken _ _ _ w s k Hk Hb).
    destruct tool as [o]. cbn in Hs. by subst o.
  - rewrite execute_unfold.
    rewrite (prepare_established path w tool s k contents Hs Hk ltac:(by rewrite Hb) Hf).
    unfold try_except. rewrite (dispatch_supported _ _ _ _ _ Hm), bind_unfold.
    rewrite (on_session_some _ _ (Tool (Some _)) _ eq_refl).
    rewrite request_unfold. cbn [_id set_sock set_id].
    rewrite (send_broken _ _ _ _ _ (pushed (did_open_frame path contents) k))
      by (cbn; by rewrite ?Hb).
    reflexivity.
Qed.

End Answers.

Section Runs.
Context {P : Platform}.

Lemma reported_state r res st' :
  reported r = Ret res st' ->
  exists st, st' = (st.1, Tool (Some st.2)) /\
    match r with
    | Ret _ s | Raise _ s => s = st
    | _ => False
    end.
Proof.
  destruct r as [[| | | | |d] st|e st| |]; cbn [reported]; try done;
    intros [= _ <-]; by exists st.
Qed.

Lemma execute_step path action line character w tool s k r w' tool' :
  _session tool = Some s -> sock s = Some k -> send_budget k = None ->
  execute path action line character (w, tool) = Ret r (w', tool') ->
  exists s' k',
    _session tool' = Some s' /\ sock s' = Some k' /\ send_budget k' = None /\
    files w' = files w /\
    sent k' = sent k ++ (call_frames w (_id s) (path, action, line, character)).1 /\
    _id s' = (call_frames w (_id s) (path, action, line, character)).2.
Proof.
  intros Hs Hk Hb He. unfold call_frames.
  destruct (files w !! abspath path) as [[contents|e]|] eqn:Hf.
  - destruct (lsp_method action) as [method|] eqn:Hm.
    + rewrite (execute_established path action method line character w tool s k contents)
        in He by done.
      set (k2 := pushed (request_frame method ("file://" +:+ abspath path) line character
                           (_id s + 1)) (pushed (did_open_frame path contents) k)) in *.
      pose proof (wait_for_reads (_id s + 1) 3000
                    (set_clock (clock w + 300) w,
                     queried path contents method line character k s)) as Hr.
      destruct (reported_state _ _ _ He) as (st & Hst' & Hst).
      assert (reads_only (set_clock (clock w + 300) w,
                          queried path contents method line character k s) st) as Hro.
      { destruct (_wait_for _ _ _) as [v st0|e st0| |]; try done; by subst st0. }
      destruct Hro as (c & _ & Hw & ib & Hself & _). injection Hst' as -> ->.
      exists (st.2), (set_inbox ib k2). rewrite Hself, Hw.
      cbn. rewrite Hb. repeat split; try done. by rewrite <- app_assoc.
    + rewrite execute_unsupported in He by done.
      rewrite (prepare_established path w tool s k contents Hs Hk ltac:(by rewrite Hb) Hf) in He.
      injection He as _ <- <-.
      exists (set_sock (Some (pushed (did_open_frame path contents) k)) s),
             (pushed (did_open_frame path contents) k).
      cbn. rewrite Hb. by repeat split.
  - rewrite execute_unfold in He. unfold prepare in He. rewrite bind_unfold in He.
    rewrite (ensure_session_some (w, tool) s Hs) in He.
    rewrite open_document_unfold, Hf in He. injection He as _ <- <-.
    exists s, k. rewrite app_nil_r. by repeat split.
  - rewrite (execute_missing path action line character (w, tool) (w, tool) Hf
               (ensure_session_some (w, tool) s Hs)) in He.
    injection He as _ <- <-. exists s, k. rewrite app_nil_r. by repeat split.
Qed.

Lemma call_frames_files w w' id call :
  files w' = files w -> call_frames w' id call = call_frames w id call.
Proof. intros Hf. destruct call as [[[path action] line] character]. cbn. by rewrite Hf. Qed.

Lemma run_frames_files w w' calls : forall id,
  files w' = files w -> run_frames w' id calls = run_frames w id calls.
Proof.
  induction calls as [|call calls IH]; intros id Hf; [done|]. cbn [run_frames].
  rewrite (call_frames_files w w' id call Hf).
  destruct (call_frames w id call) as [fs id']. by rewrite IH.
Qed.

(** X11. Through a connected session, a run of [execute] calls writes, in
    order and with nothing else: for each call on a readable file the
    didOpen notification (again, with version 1, even for a file opened
    before), followed, when the action is supported, by the query under
    the next id; for a call on a missing or unreadable file, nothing.
    The counter ends at the number of queries written above its start. *)
Theorem execute_run_writes calls : forall w tool s k st',
  _session tool = Some s -> sock s = Some k -> send_budget k = None ->
  execute_all calls (w, tool) = Some st' ->
  exists s',
    _session st'.2 = Some s' /\
    (sent <$> sock s') = Some (sent k ++ (run_frames w (_id s) calls).1) /\
    _id s' = (run_frames w (_id s) calls).2.
Proof.
  induction calls as [|[[[path action] line] character] calls IH];
    intros w tool s k st' Hs Hk Hb Hrun.
  - injection Hrun as <-. exists s. cbn. rewrite Hs, Hk, app_nil_r. done.
  - cbn [execute_all] in Hrun.
    destruct (execute path action line character (w, tool)) as [r [w1 tool1]| | |] eqn:He;
      try done.
    destruct (execute_step _ _ _ _ _ _ _ _ _ _ _ Hs Hk Hb He)
      as (s1 & k1 & Hs1 & Hk1 & Hb1 & Hf1 & Hsent1 & Hid1).
    destruct (IH w1 tool1 s1 k1 st' Hs1 Hk1 Hb1 Hrun) as (s' & Hs' & Hsent' & Hid').
    exists s'. split; [done|]. cbn [run_frames].
    rewrite (run_frames_files w w1 calls _ Hf1) in Hsent', Hid'.
    destruct (call_frames w (_id s) (path, action, line, character)) as [fs id1].
    cbn [fst snd] in *. rewrite Hid1 in Hsent', Hid'.
    destruct (run_frames w id1 calls) as [fs' id2]. cbn [fst snd] in *.
    rewrite Hsent1 in Hsent'. by rewrite app_assoc.
Qed.

End Runs.

(** ** Failures of [execute] *)

Lemma yields_bind {S A B} (Q : B -> Prop) (m : M S A) (k : A -> M S B) :
  (forall a, yields Q (k a)) -> yields Q (m ≫= k).
Proof.
  intros Hk s. rewrite bind_unfold. destruct (m s) as [a s'| | |]; try done. apply Hk.
Qed.

Section Failures.
Context {P : Platform}.

(** X13. When nothing listens on 127.0.0.1:2087, the first [execute]
    reports the refused connection, whatever file and action it was
    given, and leaves in the tool the session object it had just built:
    not connected, its id counter at 0. *)
Theorem refused_connection_leaves_session path action line character w tool :
  _session tool = None -> endpoints w !! ("127.0.0.1"%string, 2087) = None ->
  execute path action line character (w, tool)
  = Ret (lsp_tool_error (Exn ConnectionRefusedError "[Errno 111] Connection refused"))
        (after_connect (after_init w), Tool (Some (fresh_session w))).
Proof.
  intros Hs He. rewrite execute_unfold. unfold prepare. rewrite bind_unfold.
  rewrite (ensure_session_none w tool Hs), start_unfold.
  cbn [host port fresh_session after_init endpoints]. by rewrite He.
Qed.

(** X14. A session that is not connected stays so: [execute] does not
    call [start] again, and on a readable file every call, whatever the
    action, stops at the didOpen notification with the RuntimeError of
    [_send], the state unchanged. *)
Theorem unconnected_session_fails_every_call path action line character w tool s contents :
  _session tool = Some s -> sock s = None ->
  files w !! abspath path = Some (Readable contents) ->
  execute path action line character (w, tool)
  = Ret (tool_error "LSP tool error: LSP socket not connected.") (w, tool).
Proof.
  intros Hs Hk Hf. rewrite execute_unfold. unfold prepare. rewrite bind_unfold.
  rewrite (ensure_session_some (w, tool) s Hs).
  rewrite open_document_unfold, Hf, (on_session_some _ w tool s Hs).
  unfold _send. rewrite bind_unfold. cbn [get snd]. rewrite Hk.
  destruct tool as [o]. cbn in Hs. by subst o.
Qed.

(** X15. A file that exists but cannot be read as UTF-8 text (a
    directory, bytes that do not decode) is reported with the text of
    the exception [open] or [read] raised; nothing is written to the
    server and the session keeps its id. *)
Theorem unreadable_file_sends_nothing path action line character w tool s e :
  _session tool = Some s -> files w !! abspath path = Some (Unreadable e) ->
  execute path action line character (w, tool) = Ret (lsp_tool_error e) (w, tool).
Proof.
  intros Hs Hf. rewrite execute_unfold. unfold prepare. rewrite bind_unfold.
  rewrite (ensure_session_some (w, tool) s Hs).
  by rewrite open_document_unfold, Hf.
Qed.

Lemma render_one_sided result : yields (fun r => one_sided r = true) (render result).
Proof. intros s. by destruct result. Qed.

Lemma dispatch_one_sided action uri line character :
  yields (fun r => one_sided r = true) (dispatch action uri line character).
Proof.
  unfold dispatch. destruct (String.eqb action "hover").
  { apply yields_bind. intros result. apply render_one_sided. }
  destruct (String.eqb action "definition").
  { apply yields_bind. intros result. apply render_one_sided. }
  by intros s.
Qed.

Lemma open_document_early path :
  yields (fun r => match r with inl early => one_sided early = true | inr _ => True end)
         (open_document path).
Proof.
  intros [w tool]. rewrite open_document_unfold.
  destruct (files w !! abspath path) as [[content|e]|]; try done.
  by destruct (on_session _ _) as [a st1|e st1| |].
Qed.

(** X16. No exception leaves [execute]: when the call returns, it returns
    a [ToolResult] with exactly one of [output] and [error] set.  The
    only other outcome is a read that blocks for ever. *)
Theorem execute_reports_every_exception path action line character st :
  match execute path action line character st with
  | Ret r _ => one_sided r = true
  | Raise _ _ => False
  | Hang => True
  | NoFuel => False
  end.
Proof.
  pose proof (execute_total path action line character st) as Htotal.
  destruct (execute path action line character st) as [r st'|e st'| |] eqn:E; try done.
  clear Htotal. rewrite execute_unfold in E.
  unfold prepare in E. rewrite bind_unfold in E.
  destruct (ensure_session st) as [[] st0|e st0| |]; try done; [|by injection E as <- _].
  pose proof (open_document_early path st0) as Hearly.
  destruct (open_document path st0) as [[early|uri] st1|e st1| |]; try done.
  - by injection E as <- _.
  - unfold try_except in E. pose proof (dispatch_one_sided action uri line character st1) as Hd.
    destruct (dispatch action uri line character st1) as [r' st2|e st2| |]; try done;
      by injection E as <- _.
  - by injection E as <- _.
Qed.

End Failures.

(** ** Bytes on the wire *)

Lemma all_printable_app s t :
  all_printable (s +:+ t) = all_printable s && all_printable t.
Proof.
  induction s as [|c s IH]; [done|]. rewrite str_app_cons. cbn [all_printable].
  by rewrite IH, andb_assoc.
Qed.

Lemma escape_char_printable c : all_printable (escape_char c) = true.
Proof. destruct c as [[] [] [] [] [] [] [] []]; reflexivity. Qed.

Lemma escape_printable s : all_printable (escape s) = true.
Proof.
  induction s as [|c s IH]; [done|]. cbn [escape].
  by rewrite all_printable_app, escape_char_printable, IH.
Qed.

Lemma quote_printable s : all_printable (quote s) = true.
Proof.
  unfold quote. cbn [all_printable]. by rewrite all_printable_app, escape_printable.
Qed.

Lemma uint_printable d : all_printable (NilEmpty.string_of_uint d) = true.
Proof. induction d; cbn [NilEmpty.string_of_uint all_printable]; by rewrite ?IHd. Qed.

Lemma str_of_Z_printable n : all_printable (PyStr.str_of_Z n) = true.
Proof.
  unfold PyStr.str_of_Z. destruct (Z.to_int n); cbn [NilEmpty.string_of_int all_printable];
    by rewrite uint_printable.
Qed.

Lemma elems_printable level l :
  Forall (fun v => forall level, all_printable (dumps_at None level v) = true) l ->
  all_printable (elems_text None level l) = true.
Proof.
  induction l as [|y l IH]; intros Hl; [reflexivity|]. apply Forall_cons in Hl as [Hy Hl].
  by rewrite elems_text_cons, !all_printable_app, Hy, IH.
Qed.

Lemma members_printable level d :
  Forall (fun kv => forall level, all_printable (dumps_at None level kv.2) = true) d ->
  all_printable (members_text None level d) = true.
Proof.
  induction d as [|[k y] d IH]; intros Hd; [reflexivity|]. apply Forall_cons in Hd as [Hy Hd].
  cbn [snd] in Hy.
  by rewrite members_text_cons, !all_printable_app, Hy, quote_printable, IH.
Qed.

Lemma dumps_printable v : forall level, all_printable (dumps_at None level v) = true.
Proof.
  induction v as [|[]|n|s|l IH|d IH] using json_induction; intros level; try reflexivity.
  - apply str_of_Z_printable.
  - apply quote_printable.
  - destruct l as [|x l]; [reflexivity|]. rewrite dumps_list.
    apply Forall_cons in IH as [Hx Hl].
    by rewrite !all_printable_app, Hx, elems_printable.
  - destruct d as [|[k x] d]; [reflexivity|]. rewrite dumps_dict.
    apply Forall_cons in IH as [Hx Hd]. cbn [snd] in Hx.
    by rewrite !all_printable_app, Hx, quote_printable, members_printable.
Qed.

Section Bytes.
Context {P : Platform}.

(** X1. The body [_send] writes is printable ASCII whatever the method
    and the params hold ([json.dumps] escapes every other character), so
    [len(body)], which counts characters, is the number of bytes
    [body.encode()] puts on the wire: the [Content-Length] header is
    exact, and the body has no line break of its own. *)
Theorem request_body_is_ascii method params id sender sender' data :
  _send method params id sender = Ret tt sender' ->
  last_sent sender' = Some data ->
  exists body,
    data = header (String.length body) +:+ body /\
    body = json_dumps None (JDict (payload method params id)) /\
    all_printable body = true.
Proof.
  intros Hsend Hlast. apply send_last in Hsend.
  exists (json_dumps None (JDict (payload method params id))).
  split; [|split; [done|]].
  - rewrite <- frame_header. congruence.
  - apply dumps_printable.
Qed.

End Bytes.

(** ** The schema and the actions *)

Section Schema.
Context {P : Platform}.

Lemma lsp_method_some action :
  is_Some (lsp_method action) <-> action = "hover"%string \/ action = "definition"%string.
Proof.
  unfold lsp_method.
  destruct (String.eqb_spec action "hover") as [->|Hh]; [by split; eauto|].
  destruct (String.eqb_spec action "definition") as [->|Hd]; [by split; eauto|].
  split; [by intros [? ?] | by intros [?|?]].
Qed.

(** X17. The [enum] the tool's schema gives for [action] lists exactly
    the actions the [if]/[elif] chain of [execute] handles: for an action
    of the schema the chain never answers "Unsupported action", for any
    other it always does, without calling [request]. *)
Theorem schema_actions_are_dispatched action uri line character :
  (JStr action ∈ schema_actions ->
   forall st r st', dispatch action uri line character st = Ret r st' ->
                    is_Some (output r) /\ r <> unsupported_action action) /\
  (JStr action ∉ schema_actions ->
   forall st, dispatch action uri line character st = Ret (unsupported_action action) st).
Proof.
  assert (JStr action ∈ schema_actions <-> is_Some (lsp_method action)) as Hin.
  { rewrite lsp_method_some. change schema_actions with [JStr "hover"; JStr "definition"].
    rewrite !elem_of_cons, elem_of_nil. split.
    - intros [[= ->]|[[= ->]|[]]]; by eauto.
    - intros [->| ->]; by eauto. }
  split.
  - intros Hs st r st' Hd. apply Hin in Hs as [method Hm].
    rewrite (dispatch_supported _ _ _ _ _ Hm), bind_unfold in Hd.
    destruct (on_session _ st) as [result st1|e st1| |]; try done.
    destruct result; try done; injection Hd as <- _; by split.
  - intros Hs st. rewrite Hin in Hs.
    destruct (lsp_method action) as [method|] eqn:Hm; [by destruct Hs|].
    by rewrite (dispatch_unsupported _ _ _ _ Hm).
Qed.

End Schema.

(** ** The examples, run *)

Lemma framing_round_trip_witness :
  exists message,
    recv_message (P := example_platform) (example_world loopback, connected loopback 0)
    = Ret (JDict message)
          (example_world loopback, with_inbox [] loopback (connected loopback 0)) /\
    dict_get "id" message = Some (JInt 7) /\
    dict_get "method" message = Some (JStr "textDocument/hover") /\
    dict_get "params" message = Some hover_params.
Proof.
  apply (proj2 (framing_round_trip "textDocument/hover" hover_params 7) "/w"
           (example_world silent, connected silent 0)
           (example_world silent, connected (pushed hover_frame silent) 0)
           hover_frame (example_world loopback) (connected loopback 0) loopback 900 []).
  - vm_compute. reflexivity.
  - reflexivity.
  - reflexivity.
  - reflexivity.
  - reflexivity.
  - vm_compute. discriminate.
Defined.

Lemma execute_timeout_is_error_witness :
  exists st2,
    execute (P := example_platform) "./main.py" "hover" 15 22 (example_world silent, Tool None)
    = Ret none_type_error st2 /\
    clock st2.1 = 7300.
Proof.
  eexists. split.
  - eapply (execute_timeout_is_error (P := example_platform));
      [vm_compute; reflexivity | reflexivity | vm_compute; reflexivity].
  - reflexivity.
Defined.

Lemma initialize_sent_without_id_witness :
  dict_get "id" (payload "initialize" (initialize_params (P := example_platform)) None) = None /\
  match start (P := example_platform) (example_world silent, unconnected) with
  | Ret _ st' | Raise _ st' =>
      exists k' more, sock st'.2 = Some k' /\
        sent k' = sent silent ++ initialize_frame (P := example_platform) :: more
  | Hang => True
  | NoFuel => False
  end.
Proof.
  apply (initialize_sent_without_id (P := example_platform) (example_world silent) unconnected silent).
  - reflexivity.
  - discriminate.
Defined.

Lemma handshake_order_without_id_witness :
  exists st',
    start (P := example_platform) (example_world silent, unconnected) = Ret tt st' /\
    dict_get "id" (payload "initialize" (initialize_params (P := example_platform)) None) = None /\
    exists k', sock st'.2 = Some k' /\
      sent k' = [initialize_frame (P := example_platform); initialized_frame].
Proof.
  eexists. split; [vm_compute; reflexivity|].
  eapply (handshake_order_without_id (P := example_platform) (example_world silent) unconnected silent).
  - reflexivity.
  - vm_compute. reflexivity.
Defined.

Lemma missing_file_opens_connection :
  files unused.1 !! abspath (Platform := example_platform) "./nope.py" = None /\
  _session unused.2 = None /\ connect_calls unused.1 = 0%nat /\
  (exists st',
     execute (P := example_platform) "./nope.py" "hover" 0 0 unused
     = Ret (file_not_found "./nope.py") st' /\
     connect_calls st'.1 = 1%nat /\
     (sent <$> (_session st'.2 ≫= sock))
     = Some [initialize_frame (P := example_platform); initialized_frame]) /\
  (exists st'',
     execute (P := example_platform) "./nope.py" "hover" 0 0 (nowhere, Tool None)
     = Ret (tool_error "LSP tool error: [Errno 111] Connection refused") st'' /\
     connect_calls st''.1 = 1%nat).
Proof.
  split; [vm_compute; reflexivity|]. split; [reflexivity|]. split; [reflexivity|]. split.
  - eexists. split; [vm_compute; reflexivity|]. split; vm_compute; reflexivity.
  - eexists. split; [vm_compute; reflexivity|]. vm_compute; reflexivity.
Defined.

Lemma missing_file_after_session_witness :
  execute (P := example_platform) "./nope.py" "hover" 0 0 established
  = Ret (file_not_found "./nope.py") established.
Proof.
  apply (proj1 (missing_file_after_session (P := example_platform) "./nope.py" "hover" 0 0
                  established ltac:(vm_compute; reflexivity))
           (connected silent 1) eq_refl).
Defined.

Lemma unsupported_action_on_missing_file :
  execute (P := example_platform) "./nope.py" "rename" 0 0 established
  = Ret (file_not_found "./nope.py") established /\
  file_not_found "./nope.py" <> unsupported_action "rename".
Proof. split; [vm_compute; reflexivity | discriminate]. Defined.

Lemma unsupported_action_never_requests_witness :
  exists st',
    execute (P := example_platform) "./main.py" "rename" 0 0 established
    = Ret (unsupported_action "rename") st' /\
    (_id <$> _session st'.2) = Some 1.
Proof.
  destruct (unsupported_action_never_requests (P := example_platform)
              "./main.py" "rename" 0 0 established
              ltac:(discriminate) ltac:(discriminate)) as [H _].
  eexists. split; [rewrite H; vm_compute; reflexivity | vm_compute; reflexivity].
Defined.


(** Two more runs, for the record: a server that answers the handshake
    lets [start] return as soon as the answer is in, with the same two
    frames sent; a server that closes the connection leaves [_wait_for]
    reading nothing for ever. *)
Example handshake_answered :
  exists st',
    start (P := example_platform) (example_world answering, unconnected) = Ret tt st' /\
    clock st'.1 = 1150 /\
    (sent <$> sock st'.2) = Some [initialize_frame (P := example_platform); initialized_frame].
Proof. eexists. split; [vm_compute; reflexivity|]. split; vm_compute; reflexivity. Qed.

Example execute_hangs_when_peer_closes :
  execute (P := example_platform) "./main.py" "hover" 15 22 (example_world hung_up, Tool None)
  = Hang.
Proof. vm_compute. reflexivity. Qed.

(** The further properties, on examples. *)

Lemma wait_for_raises_on_bad_body_witness :
  _wait_for (P := example_platform) 2 3000 (example_world garbled, connected garbled 2)
  = Raise (Exn JSONDecodeError "malformed JSON text")
          (set_clock 1100 (example_world garbled), with_inbox [] garbled (connected garbled 2)).
Proof.
  apply (wait_for_raises_on_bad_body (P := example_platform)
           (example_world garbled) (connected garbled 2) garbled 1100 (dq "{'id': 2") []
           2 3000); [reflexivity | reflexivity | reflexivity | reflexivity | ].
  vm_compute. reflexivity.
Defined.

Lemma wait_for_raises_on_non_object_witness :
  _wait_for (P := example_platform) 2 3000 (example_world listing, connected listing 2)
  = Raise (Exn AttributeError "'list' object has no attribute 'get'")
          (set_clock 1100 (example_world listing), with_inbox [] listing (connected listing 2)).
Proof.
  apply (wait_for_raises_on_non_object (P := example_platform)
           (example_world listing) (connected listing 2) listing 1100 "[1, 2]" []
           2 3000 (JList [JInt 1; JInt 2]));
    [reflexivity | reflexivity | reflexivity | reflexivity | vm_compute; reflexivity | done].
Defined.

Lemma split_body_is_truncated_witness :
  _wait_for (P := example_platform) 2 3000 (example_world halved, connected halved 2)
  = Raise (Exn JSONDecodeError "malformed JSON text")
          (set_clock 1100 (example_world halved),
           with_inbox [(5000, second_part)] halved (connected halved 2)).
Proof.
  apply (split_body_is_truncated (P := example_platform)
           (example_world halved) (connected halved 2) halved 1100
           "{" (PyStr.drop 1 first_part) 5000 second_part [] 2 3000);
    [reflexivity | reflexivity | reflexivity | reflexivity | reflexivity | ].
  vm_compute. reflexivity.
Defined.

Lemma missing_content_length_reads_nothing_witness :
  _wait_for (P := example_platform) 2 3000 (example_world lower_case, connected lower_case 2)
  = Raise (Exn JSONDecodeError "Expecting value: line 1 column 1 (char 0)")
          (set_clock 1100 (example_world lower_case),
           with_inbox [(1100, "{}"%string)] lower_case (connected lower_case 2)).
Proof.
  apply (missing_content_length_reads_nothing (P := example_platform) lower_case_lines
           (example_world lower_case) (connected lower_case 2) lower_case 1100 "{}" [] 2 3000);
    [done | | | | reflexivity | reflexivity | reflexivity | reflexivity | reflexivity].
  - repeat constructor; vm_compute; (discriminate || intuition discriminate).
  - repeat constructor.
  - repeat constructor; vm_compute; discriminate.
Defined.

Lemma extra_header_lines_ignored_witness :
  _wait_for (P := example_platform) 2 3000 (example_world typed, connected typed 2)
  = Ret (JDict (content hover_reply))
        (set_clock 1100 (example_world typed), with_inbox [] typed (connected typed 2)).
Proof.
  apply (extra_header_lines_ignored (P := example_platform) [] [content_type]
           (example_world typed) (connected typed 2) typed 1100 (text hover_reply) [] 2 3000);
    [ | | | reflexivity | reflexivity | reflexivity | reflexivity
      | vm_compute; reflexivity | reflexivity].
  - repeat constructor; vm_compute; (discriminate || intuition discriminate).
  - repeat constructor.
  - repeat constructor; vm_compute; discriminate.
Defined.

Lemma late_frame_outlasts_timeout_witness :
  _wait_for (P := example_platform) 2 3000 (example_world trickling, connected trickling 2)
  = Ret (JDict (content hover_reply))
        (set_clock 61000 (example_world trickling),
         with_inbox [] trickling (connected trickling 2)).
Proof.
  apply (late_frame_outlasts_timeout (P := example_platform)
           (example_world trickling) (connected trickling 2) trickling 1100 61000
           (PyStr.drop 1 (frame (text hover_reply))) [] (text hover_reply) 2 3000);
    [reflexivity | reflexivity | vm_compute; reflexivity | reflexivity | reflexivity
     | vm_compute; reflexivity | reflexivity].
Defined.

Lemma wait_for_idle_timeout_witness :
  _wait_for (P := example_platform) 2 250 (example_world silent, connected silent 2)
  = Ret JNull (set_clock 1300 (example_world silent), connected silent 2).
Proof.
  apply (wait_for_idle_timeout (P := example_platform)
           (example_world silent) (connected silent 2) silent 2 250); reflexivity.
Defined.

Lemma execute_returns_result_witness :
  exists c s',
    1300 <= c < 4300 /\
    execute (P := example_platform) "./main.py" "hover" 15 22
      (example_world chatty, Tool (Some (connected chatty 1)))
    = Ret (tool_output (json_dumps (Some 2%nat) (JDict [("contents"%string, JStr "int")])))
          (set_clock c (example_world chatty), Tool (Some s')) /\
    _id s' = 2 /\
    (sent <$> sock s')
    = Some [did_open_frame (P := example_platform) "./main.py" "x = 1";
            request_frame "textDocument/hover" "file:///w/main.py" 15 22 2] /\
    (inbox <$> sock s') = Some [].
Proof.
  destruct (execute_returns_result (P := example_platform) "./main.py" "hover" "textDocument/hover"
           15 22 (example_world chatty) (Tool (Some (connected chatty 1))) (connected chatty 1)
           chatty "x = 1" [log_message; stale_reply] hover_reply []
           (JDict [("contents"%string, JStr "int")]))
    as (c & s' & Hc & He & Hid & Hsent & Hib).
  - reflexivity.
  - reflexivity.
  - reflexivity.
  - vm_compute. reflexivity.
  - reflexivity.
  - reflexivity.
  - repeat constructor; vm_compute; reflexivity.
  - repeat constructor.
  - reflexivity.
  - repeat constructor.
  - reflexivity.
  - exists c, s'. split; [exact Hc|]. split; [exact He|]. split; [exact Hid|].
    split; [|exact Hib]. rewrite Hsent. vm_compute. reflexivity.
Defined.

Lemma refused_connection_leaves_session_witness :
  execute (P := example_platform) "./main.py" "hover" 15 22 (nowhere, Tool None)
  = Ret (tool_error "LSP tool error: [Errno 111] Connection refused")
        (after_connect (after_init nowhere), Tool (Some unconnected)).
Proof.
  apply (refused_connection_leaves_session (P := example_platform) "./main.py" "hover" 15 22
           nowhere (Tool None)); reflexivity.
Defined.

Lemma unconnected_session_fails_every_call_witness :
  execute (P := example_platform) "./main.py" "rename" 15 22 stranded
  = Ret (tool_error "LSP tool error: LSP socket not connected.") stranded.
Proof.
  apply (unconnected_session_fails_every_call (P := example_platform) "./main.py" "rename" 15 22
           nowhere (Tool (Some unconnected)) unconnected "x = 1");
    [reflexivity | reflexivity | vm_compute; reflexivity].
Defined.

Lemma unreadable_file_sends_nothing_witness :
  execute (P := example_platform) "pkg" "hover" 0 0
    (with_directory, Tool (Some (connected silent 1)))
  = Ret (tool_error "LSP tool error: [Errno 21] Is a directory: '/w/pkg'")
        (with_directory, Tool (Some (connected silent 1))).
Proof.
  apply (unreadable_file_sends_nothing (P := example_platform) "pkg" "hover" 0 0
           with_directory (Tool (Some (connected silent 1))) (connected silent 1)
           is_a_directory); [reflexivity|].
  vm_compute. reflexivity.
Defined.

Lemma execute_run_writes_witness :
  exists st' s',
    execute_all (P := example_platform) two_calls established = Some st' /\
    _session st'.2 = Some s' /\
    (sent <$> sock s')
    = Some [did_open_frame (P := example_platform) "./main.py" "x = 1";
            request_frame "textDocument/hover" "file:///w/main.py" 15 22 2;
            did_open_frame (P := example_platform) "./main.py" "x = 1";
            request_frame "textDocument/definition" "file:///w/main.py" 1 1 3] /\
    _id s' = 3.
Proof.
  assert (exists st', execute_all (P := example_platform) two_calls established = Some st')
    as [st' Hrun] by (eexists; vm_compute; reflexivity).
  destruct (execute_run_writes (P := example_platform) two_calls (example_world silent)
              (Tool (Some (connected silent 1))) (connected silent 1) silent st'
              eq_refl eq_refl eq_refl Hrun)
    as (s' & Hs' & Hsent & Hid).
  exists st', s'. split; [exact Hrun|]. split; [exact Hs'|]. split.
  - rewrite Hsent. vm_compute. reflexivity.
  - rewrite Hid. vm_compute. reflexivity.
Defined.

Lemma request_body_is_ascii_witness :
  exists body,
    hover_frame = header (String.length body) +:+ body /\
    body = json_dumps None (JDict (payload "textDocument/hover" hover_params (Some 7))) /\
    all_printable body = true.
Proof.
  apply (request_body_is_ascii "textDocument/hover" hover_params (Some 7)
           (example_world silent, connected silent 0)
           (example_world silent, connected (pushed hover_frame silent) 0) hover_frame);
    reflexivity.
Defined.

(** The revised statements, on examples: a notification that comes in
    two segments, an LSP error reply, a server that has closed. *)

Lemma wait_for_id_matching_witness :
  (exists w',
     _wait_for (P := example_platform) 2 3000 (example_world chatty, connected chatty 2)
     = Ret (JDict (content hover_reply)) (w', with_inbox [] chatty (connected chatty 2))) /\
  json_loads (Platform := example_platform) (notification_head +:+ notification_tail)
  = inr (JDict (content log_message)) /\
  answers 2 (content log_message) = false /\
  _wait_for (P := example_platform) 2 3000 (example_world segmented, connected segmented 2)
  = Raise (Exn JSONDecodeError "malformed JSON text")
          (set_clock 1100 (example_world segmented),
           with_inbox [(1200, notification_tail)] segmented (connected segmented 2)).
Proof.
  destruct (wait_for_id_matching (P := example_platform) 2 3000) as (_ & Hwhole & Hsplit).
  split; [|split; [vm_compute; reflexivity | split; [reflexivity|]]].
  - destruct (Hwhole (example_world chatty) (connected chatty 2) chatty example_traffic
                eq_refl eq_refl eq_refl) as [_ H].
    { repeat constructor. }
    destruct (H [log_message; stale_reply] hover_reply [] eq_refl) as (w' & _ & Hr).
    + repeat constructor.
    + reflexivity.
    + repeat constructor.
    + lia.
    + by exists w'.
  - apply (Hsplit (example_world segmented) (connected segmented 2) segmented 1100
             "{"%char (PyStr.drop 1 notification_head) 1200 notification_tail []);
      [reflexivity | reflexivity | reflexivity | reflexivity | reflexivity | ].
    vm_compute. reflexivity.
Defined.

Lemma error_reply_renders_empty_witness :
  exists c s',
    1300 <= c < 4300 /\
    execute (P := example_platform) "./main.py" "hover" 15 22
      (example_world refusing, Tool (Some (connected refusing 1)))
    = Ret (MkToolResult (Some "{}"%string) None)
          (set_clock c (example_world refusing), Tool (Some s')) /\
    is_Some (dict_get "error" (content error_reply)) /\
    _id s' = 2.
Proof.
  destruct (error_reply_renders_empty (P := example_platform) "./main.py" "hover"
              "textDocument/hover" 15 22 (example_world refusing)
              (Tool (Some (connected refusing 1))) (connected refusing 1) refusing "x = 1"
              [] error_reply [])
    as (c & s' & Hc & He & Hid & _).
  - reflexivity.
  - reflexivity.
  - reflexivity.
  - vm_compute. reflexivity.
  - reflexivity.
  - reflexivity.
  - repeat constructor; vm_compute; reflexivity.
  - repeat constructor.
  - reflexivity.
  - repeat constructor.
  - reflexivity.
  - exists c, s'. split; [exact Hc|]. split; [exact He|]. split; [by eexists | exact Hid].
Defined.

Lemma first_call_hangs_when_server_closes_witness :
  execute (P := example_platform) "./main.py" "hover" 15 22 (example_world closed, Tool None)
  = Hang.
Proof.
  apply (first_call_hangs_when_server_closes (P := example_platform) "./main.py" "hover" 15 22
           (example_world closed) (Tool None) closed);
    [reflexivity | vm_compute; reflexivity | reflexivity | reflexivity | discriminate].
Defined.

Lemma broken_pipe_ends_the_call_witness :
  execute (P := example_platform) "./main.py" "hover" 15 22
    (example_world closed, Tool (Some (connected closed 1)))
  = Ret (tool_error "LSP tool error: [Errno 32] Broken pipe")
        (set_clock 1300 (example_world closed),
         Tool (Some (set_id 2 (set_sock
                 (Some (pushed (did_open_frame (P := example_platform) "./main.py" "x = 1")
                          closed))
                 (connected closed 1))))).
Proof.
  apply (proj2 (broken_pipe_ends_the_call (P := example_platform) "./main.py" "hover"
                  "textDocument/hover" 15 22 (example_world closed)
                  (Tool (Some (connected closed 1))) (connected closed 1) closed "x = 1"
                  eq_refl eq_refl ltac:(vm_compute; reflexivity) eq_refl)).
  reflexivity.
Defined.
